(** * beavr-bot: the VR keypoint transform and its keypoint logger

    A shallow embedding of

      - [src/beavr/teleop/components/detector/vr/keypoint_transform.py]
        (class [TransformHandPositionCoords]) and
      - [src/beavr/teleop/components/detector/vr/log_keypoints.py]
        (class [KeypointLogger]).

    Numbers.  The program computes with numpy [float64] arrays.  Here a
    finite float is read as the real number it stands for and the arithmetic
    is the arithmetic of [R]; the only non-finite values the program can
    produce from finite inputs come from a division [0/0] inside
    [normalize_vector] (numpy fills the vector with [nan] and goes on) and
    from the mean of an empty window.  A row that holds such values is
    [None]; every operation on rows propagates [None], as every numpy
    operation propagates [nan].

    Exceptions.  A Python exception is a value of [exn]; fallible functions
    return [res A].  Nothing in either source file catches an exception but
    [KeypointLogger.save_data]. *)

From Stdlib Require Import Reals Lra Psatz ZArith String Bool Lia List.
Import ListNotations.

Open Scope R_scope.

(** ** Rows of three numbers *)

Record vec : Type := mkvec { vx : R; vy : R; vz : R }.

Definition vzero : vec := mkvec 0 0 0.
Definition vadd (a b : vec) : vec := mkvec (vx a + vx b) (vy a + vy b) (vz a + vz b).
Definition vsub (a b : vec) : vec := mkvec (vx a - vx b) (vy a - vy b) (vz a - vz b).
Definition vscale (k : R) (a : vec) : vec := mkvec (k * vx a) (k * vy a) (k * vz a).
Definition vdiv (a : vec) (k : R) : vec := mkvec (vx a / k) (vy a / k) (vz a / k).

(** [np.dot] on two rows. *)
Definition dot (a b : vec) : R := vx a * vx b + vy a * vy b + vz a * vz b.

(** [np.cross] on two rows. *)
Definition cross (a b : vec) : vec :=
  mkvec (vy a * vz b - vz a * vy b)
        (vz a * vx b - vx a * vz b)
        (vx a * vy b - vy a * vx b).

(** [np.linalg.norm] on a row. *)
Definition norm (a : vec) : R := sqrt (dot a a).

(** A row as the program may hold it: [None] is a row of non-finite
    entries. *)
Definition nvec : Type := option vec.

Definition nbind {A B : Type} (o : option A) (f : A -> option B) : option B :=
  match o with
  | Some a => f a
  | None => None
  end.

Definition nmap2 {A B C : Type} (f : A -> B -> C) (a : option A) (b : option B)
  : option C :=
  nbind a (fun a' => nbind b (fun b' => Some (f a' b'))).

Definition nsub : nvec -> nvec -> nvec := nmap2 vsub.
Definition ncross : nvec -> nvec -> nvec := nmap2 cross.
Definition ndot : nvec -> nvec -> option R := nmap2 dot.
Definition nscale (k : option R) (a : nvec) : nvec := nmap2 vscale k a.

(** Modelled from the spec: [normalize_vector] of
    [beavr.teleop.common.math.vectorops], which the transform imports and
    whose file is not part of the sources at hand.  The spec says
    "normalize" and asks for a unit-length result: the row divided by its
    Euclidean norm.  A row of norm zero is the zero row, the division is
    [0/0] in every entry and the result is the non-finite row. *)
Definition normalize_vector (v : nvec) : nvec :=
  nbind v (fun a =>
    if Req_dec_T (norm a) 0 then None else Some (vdiv a (norm a))).

(** ** [TransformHandPositionCoords._orthogonalize_frame] *)

Definition _orthogonalize_frame (x_vec y_vec z_vec : nvec) : nvec * nvec * nvec :=
  let x_vec := normalize_vector x_vec in
  let y_vec := nsub y_vec (nscale (ndot y_vec x_vec) x_vec) in
  let y_vec := normalize_vector y_vec in
  let z_vec := ncross x_vec y_vec in
  let z_vec := normalize_vector z_vec in
  (x_vec, y_vec, z_vec).

(** The Gram-Schmidt remainder of [b] along a unit row [x]: the row
    [y_vec - np.dot(y_vec, x_vec) * x_vec] of [_orthogonalize_frame]. *)
Definition reject (b x : vec) : vec := vsub b (vscale (dot b x) x).

(** ** Exceptions and indexing *)

(** [OSError] stands for its subclasses too ([FileExistsError],
    [PermissionError], ...). *)
Inductive exn : Type :=
| ValueError
| IndexError
| LinAlgError
| ZeroDivisionError
| OSError.

Definition res (A : Type) : Type := (A + exn)%type.

Definition ret {A : Type} (a : A) : res A := inl a.
Definition raise {A : Type} (e : exn) : res A := inr e.

Definition rbind {A B : Type} (r : res A) (f : A -> res B) : res B :=
  match r with
  | inl a => f a
  | inr e => inr e
  end.

Notation "x <- r ;; k" := (rbind r (fun x => k))
  (at level 61, r at next level, right associativity).
Notation "' p <- r ;; k" := (rbind r (fun x => let 'p := x in k))
  (at level 61, p pattern, r at next level, right associativity).

(** [l[i]] on a Python list or on the rows of an array: a negative index
    counts from the end, an index out of range raises [IndexError]. *)
Definition getitem {A : Type} (l : list A) (i : Z) : res A :=
  let n := Z.of_nat (length l) in
  let j := if (i <? 0)%Z then (i + n)%Z else i in
  if ((0 <=? j)%Z && (j <? n)%Z)%bool
  then match nth_error l (Z.to_nat j) with
       | Some a => ret a
       | None => raise IndexError
       end
  else raise IndexError.

(** ** 3x3 matrices, by rows *)

Record mat : Type := mkmat { row0 : vec; row1 : vec; row2 : vec }.

Definition e0 : vec := mkvec 1 0 0.
Definition e1 : vec := mkvec 0 1 0.
Definition e2 : vec := mkvec 0 0 1.

(** [np.eye(3)]. *)
Definition eye : mat := mkmat e0 e1 e2.

Definition det (m : mat) : R := dot (row0 m) (cross (row1 m) (row2 m)).

Definition transpose (m : mat) : mat :=
  mkmat (mkvec (vx (row0 m)) (vx (row1 m)) (vx (row2 m)))
        (mkvec (vy (row0 m)) (vy (row1 m)) (vy (row2 m)))
        (mkvec (vz (row0 m)) (vz (row1 m)) (vz (row2 m))).

(** [m @ v] for a column [v]. *)
Definition mat_vec (m : mat) (v : vec) : vec :=
  mkvec (dot (row0 m) v) (dot (row1 m) v) (dot (row2 m) v).

(** [a @ b]. *)
Definition mat_mul (a b : mat) : mat :=
  let bt := transpose b in
  mkmat (mat_vec bt (row0 a)) (mat_vec bt (row1 a)) (mat_vec bt (row2 a)).

(** The inverse by cofactors: its columns are the cross products of the
    rows, over the determinant. *)
Definition inverse (m : mat) : mat :=
  transpose (mkmat (vdiv (cross (row1 m) (row2 m)) (det m))
                   (vdiv (cross (row2 m) (row0 m)) (det m))
                   (vdiv (cross (row0 m) (row1 m)) (det m))).

(** [np.linalg.solve(a, np.eye(3))] on the list of three rows [a]: the
    unique [X] with [a @ X = eye], [LinAlgError] when a finite [a] is
    singular.  A matrix with a non-finite row has no zero pivot, LAPACK
    reports no error and the result is non-finite ([None]). *)
Definition linalg_solve_eye (a : list nvec) : res (option mat) :=
  match a with
  | [Some x; Some y; Some z] =>
      let m := mkmat x y z in
      if Req_dec_T (det m) 0 then raise LinAlgError else ret (Some (inverse m))
  | [_; _; _] => ret None
  | _ => raise LinAlgError
  end.

(** ** Constants of [beavr.teleop.configs.constants.robots]

    The module is imported by the transform and is not part of the sources
    at hand; its constants are parameters of the development. *)

Record Robots : Type := mkRobots {
  LEFT : string;
  RIGHT : string;
  ABSOLUTE : string;
  RELATIVE : string;
  TRANSFORMED_HAND_COORDS : string;
  TRANSFORMED_HAND_FRAME : string;
  OCULUS_NUM_KEYPOINTS : nat;
  OCULUS_JOINTS_knuckles : list Z
}.

(** ** Arrays *)

(** An array of rows (a keypoint set of shape (N,3), a frame of shape
    (4,3)); a row with non-finite entries is [None]. *)
Definition rows : Type := list nvec.

(** What [np.mean(queue, axis=0)] returns: the scalar [nan] on the empty
    list, an array otherwise. *)
Inductive ndarray : Type :=
| NanScalar
| Rows (a : rows).

(** [a[i]] on such a value; numpy refuses to index a scalar. *)
Definition ndarray_getitem (a : ndarray) (i : Z) : res nvec :=
  match a with
  | NanScalar => raise IndexError
  | Rows l => getitem l i
  end.

Fixpoint vsum (l : list vec) : vec :=
  match l with
  | [] => vzero
  | a :: l' => vadd a (vsum l')
  end.

Fixpoint all_finite (l : list nvec) : option (list vec) :=
  match l with
  | [] => Some []
  | o :: l' => nbind o (fun a => nbind (all_finite l') (fun r => Some (a :: r)))
  end.

(** The arithmetic mean of one row position across the samples. *)
Definition vmean (l : list nvec) : nvec :=
  nbind (all_finite l) (fun vs => Some (vdiv (vsum vs) (INR (length vs)))).

(** Row [i] of every sample. *)
Definition column (i : nat) (q : list rows) : list nvec :=
  map (fun s => nth i s None) q.

(** [np.mean(queue, axis=0)] on a list of arrays of one shape. *)
Definition np_mean (q : list rows) : ndarray :=
  match q with
  | [] => NanScalar
  | a :: _ => Rows (map (fun i => vmean (column i q)) (seq 0 (length a)))
  end.

(** Modelled from the spec: [moving_average] of
    [beavr.teleop.common.math.vectorops], imported by the transform and
    absent from the sources at hand.  Spec 4.4: "append latest sample; if
    window exceeds K, evict oldest; compute elementwise arithmetic mean
    across the window".  The queue is the caller's list, updated in place:
    the new queue is returned with the mean. *)
Definition moving_average (vector : rows) (moving_average_queue : list rows)
    (limit : Z) : ndarray * list rows :=
  let queue := moving_average_queue ++ [vector] in
  let queue := if (limit <? Z.of_nat (length queue))%Z then tl queue else queue in
  (np_mean queue, queue).

(** The last [k] elements of a list. *)
Definition lastn {A : Type} (k : nat) (l : list A) : list A :=
  skipn (length l - k) l.
(** ** What the two classes do to the outside *)

(** The record [InputFrame] of [beavr.teleop.components.detector.detector_types]
    as the transform builds it for publication. *)
Record InputFrame : Type := mkInputFrame {
  timestamp_s : R;
  if_hand_side : string;
  keypoints : ndarray;
  is_relative : bool;
  frame_vectors : rows
}.

(** The two fields the transform reads of a frame it receives: the
    keypoints, one row per keypoint, and the relativity flag. *)
Record RecvFrame : Type := mkRecvFrame {
  recv_keypoints : list vec;
  recv_is_relative : bool
}.

(** Levels of the [logging] module. *)
Inductive level : Type := DEBUG | INFO | WARNING | ERROR.

(** Calls that leave the object, in program order. *)
Inductive event : Type :=
| TimerStartLoop
| TimerEndLoop
| Publish (topic : string) (data : InputFrame)
| LoggerCall (lvl : level).

(** ** [KeypointLogger] *)

Module KeypointLogger.

(** One entry of [logged_data]. *)
Record FrameData : Type := mkFrameData {
  frame_id : Z;
  timestamp : R;
  fd_keypoints : ndarray;
  origin : nvec;
  x_vector : nvec;
  y_vector : nvec;
  z_vector : nvec
}.

(** The JSON document of [save_data]. *)
Record Document : Type := mkDocument {
  doc_hand_side : string;
  total_frames : Z;
  frames : list FrameData;
  save_timestamp : R;
  doc_moving_average_limit : Z
}.

(** The file at [self.log_file]: not yet written, holding the document of
    the last successful [json.dump], or left in a state the program does
    not determine by a write that raised. *)
Inductive FileState : Type :=
| NoFile
| Saved (d : Document)
| Undetermined.

Record t : Type := mk {
  hand_side : string;
  log_dir : string;
  auto_save_interval : Z;
  moving_average_limit : Z;
  frame_counter : Z;
  logged_data : list FrameData;
  log_file : FileState
}.

(** What one call reads of its surroundings: [time.time()],
    [datetime.now()], and whether [open] and [json.dump] go through. *)
Record Env : Type := mkEnv {
  time_time : R;
  datetime_now : R;
  write_ok : bool
}.

(** What the construction reads of its surroundings: the outcome of
    [self.log_dir.mkdir(parents=True, exist_ok=True)] for a directory (it
    raises an [OSError] when, for one, the path is a file), and the outcome
    of [signal.signal(sig, signal_handler)] for a signal (it raises
    [ValueError] off the main thread). *)
Inductive signum : Type := SIGINT | SIGTERM.

Record InitEnv : Type := mkInitEnv {
  mkdir : string -> res unit;
  signal_signal : signum -> res unit
}.

(** The instance a construction that returns leaves: the attributes as
    given, nothing counted, nothing buffered, the log file named and not yet
    written. *)
Definition fresh (hand_side log_dir : string) (auto_save_interval : Z)
    (moving_average_limit : Z) : t :=
  mk hand_side log_dir auto_save_interval moving_average_limit 0%Z [] NoFile.

Definition set_log_file (self : t) (f : FileState) : t :=
  mk (hand_side self) (log_dir self) (auto_save_interval self)
     (moving_average_limit self)
     (frame_counter self) (logged_data self) f.

Definition set_logged_data (self : t) (d : list FrameData) : t :=
  mk (hand_side self) (log_dir self) (auto_save_interval self)
     (moving_average_limit self)
     (frame_counter self) d (log_file self).

Definition set_frame_counter (self : t) (c : Z) : t :=
  mk (hand_side self) (log_dir self) (auto_save_interval self)
     (moving_average_limit self)
     c (logged_data self) (log_file self).

(** [_setup_logging]: the directory is created, the file named, one line
    logged at level info. *)
Definition _setup_logging (self : t) (env : InitEnv) : list event * res t :=
  match mkdir env (log_dir self) with
  | inr e => ([], raise e)
  | inl _ => ([LoggerCall INFO], ret (set_log_file self NoFile))
  end.

(** [_register_signal_handlers]: the handler is registered for [SIGINT],
    then for [SIGTERM].  The handler itself runs on a signal, of which the
    model has none. *)
Definition _register_signal_handlers (self : t) (env : InitEnv) : res unit :=
  _ <- signal_signal env SIGINT ;;
  signal_signal env SIGTERM.

(** [__init__]: the attributes, [_setup_logging],
    [_register_signal_handlers], and [atexit.register], which returns. *)
Definition __init__ (env : InitEnv) (hand_side log_dir : string)
    (auto_save_interval : Z) (moving_average_limit : Z)
  : list event * res t :=
  let self :=
    mk hand_side log_dir auto_save_interval moving_average_limit 0%Z []
       NoFile in
  match _setup_logging self env with
  | (evs, inr e) => (evs, raise e)
  | (evs, inl self) =>
      match _register_signal_handlers self env with
      | inr e => (evs, raise e)
      | inl _ => (evs, ret self)
      end
  end.

Definition save_data (self : t) (env : Env) : t * list event :=
  if (Z.of_nat (length (logged_data self)) =? 0)%Z then (self, [])
  else
    let serializable_data :=
      mkDocument (hand_side self)
                 (Z.of_nat (length (logged_data self)))
                 (logged_data self)
                 (datetime_now env)
                 (moving_average_limit self) in
    if write_ok env
    then (set_log_file self (Saved serializable_data), [LoggerCall INFO])
    else (set_log_file self Undetermined, [LoggerCall ERROR]).

Definition log_frame (self : t) (env : Env) (keypoints : ndarray)
    (coordinate_frame : rows) : t * list event * res unit :=
  match (o <- getitem coordinate_frame 0 ;;
         x <- getitem coordinate_frame 1 ;;
         y <- getitem coordinate_frame 2 ;;
         z <- getitem coordinate_frame 3 ;;
         ret (mkFrameData (frame_counter self) (time_time env) keypoints o x y z))
  with
  | inr e => (self, [], raise e)
  | inl frame_data =>
      let self := set_logged_data self (logged_data self ++ [frame_data]) in
      let self := set_frame_counter self (frame_counter self + 1)%Z in
      if (auto_save_interval self =? 0)%Z
      then (self, [], raise ZeroDivisionError)
      else if ((frame_counter self) mod (auto_save_interval self) =? 0)%Z
      then
        let '(self, evs) := save_data self env in
        let self := set_logged_data self [] in
        (self, evs ++ [LoggerCall DEBUG], ret tt)
      else (self, [], ret tt)
  end.

(** A run of [log_frame] calls, one environment and one pair of arguments
    per call; it stops at the first call that raises. *)
Fixpoint log_frames (self : t) (calls : list (Env * ndarray * rows))
  : t * option exn :=
  match calls with
  | [] => (self, None)
  | (env, k, cf) :: rest =>
      match log_frame self env k cf with
      | (self', _, inl _) => log_frames self' rest
      | (self', _, inr e) => (self', Some e)
      end
  end.

End KeypointLogger.
(** ** [TransformHandPositionCoords] *)

Section Transform.

Variable robots : Robots.

(** The attributes of an instance.  The subscriber, the publisher manager
    and the timer are collaborators: their calls appear as inputs
    ([TickEnv]) and as [event]s. *)
Record Self : Type := mkSelf {
  hand_side : string;
  host : string;
  keypoint_sub_port : Z;
  keypoint_transform_pub_port : Z;
  coords_topic : string;
  frame_topic : string;
  absolute_mode : string;
  relative_mode : string;
  wrist_idx : Z;
  index_knuckle_idx : Z;
  middle_knuckle_idx : Z;
  pinky_knuckle_idx : Z;
  moving_average_limit : Z;
  coord_moving_average_queue : list rows;
  frame_moving_average_queue : list rows;
  keypoint_logger : option KeypointLogger.t;
  averaged_keypoints : option ndarray;
  averaged_coordinate_frame : option ndarray
}.

(** [x in [robots.LEFT, robots.RIGHT]]. *)
Definition is_hand_side (x : string) : bool :=
  (String.eqb x (LEFT robots) || String.eqb x (RIGHT robots))%bool.

(** [__init__]: the attributes of the instance, the calls made, and
    [inr e] when exception [e] leaves the constructor.  The constructors of
    the collaborators ([notify_component_start], [ZMQSubscriber],
    [ZMQPublisherManager], [FrequencyTimer]) are taken to succeed; the
    logger is constructed last, when logging is enabled. *)
Definition __init__ (env : KeypointLogger.InitEnv) (host : string)
    (keypoint_sub_port : Z) (keypoint_transform_pub_port : Z)
    (hand_side : string) (moving_average_limit : Z) (enable_logging : bool)
    (log_dir : string) (auto_save_interval : Z) : list event * res Self :=
  if negb (is_hand_side hand_side) then ([], raise ValueError)
  else
    let '(coords_topic, frame_topic, absolute_mode, relative_mode) :=
      if String.eqb hand_side (RIGHT robots)
      then (RIGHT robots ++ "_" ++ TRANSFORMED_HAND_COORDS robots,
            RIGHT robots ++ "_" ++ TRANSFORMED_HAND_FRAME robots,
            ABSOLUTE robots, RELATIVE robots)%string
      else (LEFT robots ++ "_" ++ TRANSFORMED_HAND_COORDS robots,
            LEFT robots ++ "_" ++ TRANSFORMED_HAND_FRAME robots,
            ABSOLUTE robots, RELATIVE robots)%string in
    match (index_knuckle_idx <- getitem (OCULUS_JOINTS_knuckles robots) 0 ;;
           middle_knuckle_idx <- getitem (OCULUS_JOINTS_knuckles robots) 1 ;;
           pinky_knuckle_idx <- getitem (OCULUS_JOINTS_knuckles robots) (-1) ;;
           ret (index_knuckle_idx, middle_knuckle_idx, pinky_knuckle_idx))
    with
    | inr e => ([], raise e)
    | inl (index_knuckle_idx, middle_knuckle_idx, pinky_knuckle_idx) =>
        let self keypoint_logger :=
          mkSelf hand_side host keypoint_sub_port keypoint_transform_pub_port
                 coords_topic frame_topic absolute_mode relative_mode
                 0 index_knuckle_idx middle_knuckle_idx pinky_knuckle_idx
                 moving_average_limit [] [] keypoint_logger None None in
        if enable_logging
        then
          match KeypointLogger.__init__ env hand_side log_dir
                  auto_save_interval moving_average_limit with
          | (evs, inr e) => (evs, raise e)
          | (evs, inl l) => (evs, ret (self (Some l)))
          end
        else ([], ret (self None))
    end.

(** [_get_hand_coords]: [None] for [(None, None)]; [reshape] raises
    [ValueError] unless the data has [3 * OCULUS_NUM_KEYPOINTS] entries. *)
Definition _get_hand_coords (self : Self) (input_frame : option RecvFrame)
  : res (option (string * list vec)) :=
  match input_frame with
  | None => ret None
  | Some f =>
      let data_type :=
        if recv_is_relative f then relative_mode self else absolute_mode self in
      if Nat.eqb (length (recv_keypoints f)) (OCULUS_NUM_KEYPOINTS robots)
      then ret (Some (data_type, recv_keypoints f))
      else raise ValueError
  end.

(** The three landmark vectors shared by the two frame functions. *)
Definition landmark_vectors (self : Self) (hand_coords : list vec)
  : res (vec * vec * vec * vec) :=
  wrist <- getitem hand_coords (wrist_idx self) ;;
  i <- getitem hand_coords (index_knuckle_idx self) ;;
  p <- getitem hand_coords (pinky_knuckle_idx self) ;;
  m <- getitem hand_coords (middle_knuckle_idx self) ;;
  ret (wrist, vsub i wrist, vsub p wrist, vsub m wrist).

Definition _get_stable_coord_frame (self : Self) (hand_coords : list vec)
  : res rows :=
  '(wrist, v1, v2, v3) <- landmark_vectors self hand_coords ;;
  let palm_normal := normalize_vector (Some (cross v1 v3)) in
  let palm_direction :=
    normalize_vector (Some (vdiv (vadd (vadd v1 v2) v3) 3)) in
  let cross_product := normalize_vector (ncross palm_direction palm_normal) in
  let '(x_vec, y_vec, z_vec) :=
    _orthogonalize_frame cross_product palm_direction palm_normal in
  ret [x_vec; y_vec; z_vec].

Definition _get_stable_hand_dir_frame (self : Self) (hand_coords : list vec)
  : res rows :=
  '(wrist, v1, v2, v3) <- landmark_vectors self hand_coords ;;
  let '(palm_normal, palm_direction, cross_product) :=
    if String.eqb (hand_side self) (RIGHT robots)
    then
      let palm_normal := normalize_vector (Some (cross v1 v3)) in
      let palm_direction :=
        normalize_vector (Some (vdiv (vadd (vadd v1 v2) v3) 3)) in
      let cross_product :=
        normalize_vector (ncross palm_direction palm_normal) in
      (palm_normal, palm_direction, cross_product)
    else
      let palm_normal := normalize_vector (Some (cross v1 v3)) in
      let palm_direction :=
        normalize_vector (Some (vdiv (vadd (vadd v1 v2) v3) 3)) in
      let cross_product :=
        normalize_vector (ncross palm_direction palm_normal) in
      (palm_normal, palm_direction, cross_product) in
  let '(x_vec, y_vec, z_vec) :=
    _orthogonalize_frame cross_product palm_normal palm_direction in
  ret [Some wrist; x_vec; y_vec; z_vec].

(** [copy(hand_coords) - hand_coords[0]]. *)
Definition translate (hand_coords : list vec) (wrist : vec) : list vec :=
  map (fun p => vsub p wrist) hand_coords.

(** [(rotation_matrix @ translated_coords.T).T]: one product per row; a
    non-finite matrix makes every row non-finite. *)
Definition rotate (rotation_matrix : option mat) (coords : list vec) : rows :=
  map (fun p => nbind rotation_matrix (fun m => Some (mat_vec m p))) coords.

Definition transform_keypoints (self : Self) (hand_coords : list vec)
  : res (rows * rows) :=
  wrist <- getitem hand_coords 0 ;;
  let translated_coords := translate hand_coords wrist in
  original_coord_frame <- _get_stable_coord_frame self translated_coords ;;
  solved <- linalg_solve_eye original_coord_frame ;;
  let rotation_matrix := nbind solved (fun m => Some (transpose m)) in
  let transformed_keypoints := rotate rotation_matrix translated_coords in
  coordinate_frame <- _get_stable_hand_dir_frame self hand_coords ;;
  ret (transformed_keypoints, coordinate_frame).

(** [_log_frame]. *)
Definition _log_frame (self : Self) (env : KeypointLogger.Env)
    (keypoints : ndarray) (coordinate_frame : rows)
  : option KeypointLogger.t * list event * res unit :=
  match keypoint_logger self with
  | None => (None, [], ret tt)
  | Some l =>
      let '(l', evs, r) := KeypointLogger.log_frame l env keypoints coordinate_frame in
      (Some l', evs, r)
  end.

(** What one pass of the loop reads of its surroundings: the answer of
    [recv_keypoints], [time.time()], and the logger's environment. *)
Record TickEnv : Type := mkTickEnv {
  received : option RecvFrame;
  now : R;
  log_env : KeypointLogger.Env
}.

Definition set_queues (self : Self) (cq fq : list rows)
    (ak af : option ndarray) : Self :=
  mkSelf (hand_side self) (host self) (keypoint_sub_port self)
         (keypoint_transform_pub_port self) (coords_topic self)
         (frame_topic self) (absolute_mode self) (relative_mode self)
         (wrist_idx self) (index_knuckle_idx self) (middle_knuckle_idx self)
         (pinky_knuckle_idx self) (moving_average_limit self)
         cq fq (keypoint_logger self) ak af.

Definition set_keypoint_logger (self : Self) (l : option KeypointLogger.t)
  : Self :=
  mkSelf (hand_side self) (host self) (keypoint_sub_port self)
         (keypoint_transform_pub_port self) (coords_topic self)
         (frame_topic self) (absolute_mode self) (relative_mode self)
         (wrist_idx self) (index_knuckle_idx self) (middle_knuckle_idx self)
         (pinky_knuckle_idx self) (moving_average_limit self)
         (coord_moving_average_queue self) (frame_moving_average_queue self)
         l (averaged_keypoints self) (averaged_coordinate_frame self).

(** The re-orthogonalisation of the averaged frame (lines 243-255). *)
Definition reorthogonalize (averaged : ndarray) : res rows :=
  origin <- ndarray_getitem averaged 0 ;;
  a1 <- ndarray_getitem averaged 1 ;;
  a2 <- ndarray_getitem averaged 2 ;;
  a3 <- ndarray_getitem averaged 3 ;;
  let x_vec := normalize_vector a1 in
  let y_vec := normalize_vector a2 in
  let z_vec := normalize_vector a3 in
  let '(x_vec, y_vec, z_vec) := _orthogonalize_frame x_vec y_vec z_vec in
  ret [origin; x_vec; y_vec; z_vec].

(** The body of [while True] in [stream]: the new attributes, the calls
    made, and [inr e] when exception [e] leaves the body (and with it
    [stream]: nothing catches it).  [publish] is taken to return. *)
Definition stream_iteration (self : Self) (env : TickEnv)
  : Self * list event * res unit :=
  match _get_hand_coords self (received env) with
  | inr e => (self, [TimerStartLoop], raise e)
  | inl None => (self, [TimerStartLoop; TimerEndLoop], ret tt)
  | inl (Some (data_type, hand_coords)) =>
      match transform_keypoints self hand_coords with
      | inr e => (self, [TimerStartLoop], raise e)
      | inl (transformed_keypoints, coordinate_frame) =>
          let '(avg_k, cq) :=
            moving_average transformed_keypoints
              (coord_moving_average_queue self) (moving_average_limit self) in
          let '(avg_f, fq) :=
            moving_average coordinate_frame
              (frame_moving_average_queue self) (moving_average_limit self) in
          let self := set_queues self cq fq (Some avg_k) (Some avg_f) in
          match reorthogonalize avg_f with
          | inr e => (self, [TimerStartLoop], raise e)
          | inl frame =>
              let self := set_queues self cq fq (Some avg_k) (Some (Rows frame)) in
              let data :=
                mkInputFrame (now env) (hand_side self) avg_k
                  (String.eqb data_type (relative_mode self)) frame in
              let ev1 := [TimerStartLoop; Publish (coords_topic self) data] in
              let '(l, evs, r) := _log_frame self (log_env env) avg_k frame in
              let self := set_keypoint_logger self l in
              match r with
              | inr e => (self, ev1 ++ evs, raise e)
              | inl _ =>
                  (self,
                   ev1 ++ evs ++ [Publish (frame_topic self) data; TimerEndLoop],
                   ret tt)
              end
          end
      end
  end.

(** [stream] over the first passes of the loop, one environment per pass:
    the loop goes on until an exception leaves the body. *)
Fixpoint stream (self : Self) (envs : list TickEnv)
  : Self * list event * option exn :=
  match envs with
  | [] => (self, [], None)
  | env :: rest =>
      match stream_iteration self env with
      | (self', evs, inr e) => (self', evs, Some e)
      | (self', evs, inl _) =>
          let '(self'', evs', r) := stream self' rest in
          (self'', evs ++ evs', r)
      end
  end.

End Transform.

(** ** Definitions used to state the properties *)

(** A frame as the data model asks for it: three unit rows, pairwise
    orthogonal, right-handed. *)
Definition orthonormal_rh (x y z : vec) : Prop :=
  norm x = 1 /\ norm y = 1 /\ norm z = 1 /\
  dot x y = 0 /\ dot x z = 0 /\ dot y z = 0 /\
  z = cross x y.

(** The instance with another [hand_side], everything else kept. *)
Definition with_hand_side (self : Self) (h : string) : Self :=
  mkSelf h (host self) (keypoint_sub_port self)
         (keypoint_transform_pub_port self) (coords_topic self)
         (frame_topic self) (absolute_mode self) (relative_mode self)
         (wrist_idx self) (index_knuckle_idx self) (middle_knuckle_idx self)
         (pinky_knuckle_idx self) (moving_average_limit self)
         (coord_moving_average_queue self) (frame_moving_average_queue self)
         (keypoint_logger self) (averaged_keypoints self)
         (averaged_coordinate_frame self).

(** Constants and an instance to run the definitions on: 24 keypoints, the
    knuckles at rows 6, 9, 12 and 16. *)
Definition example_robots : Robots :=
  mkRobots "left" "right" "absolute" "relative"
           "transformed_hand_coords" "transformed_hand_frame"
           24 [6; 9; 12; 16]%Z.

Definition example_self : Self :=
  mkSelf "right" "localhost" 8087 8088
         "right_transformed_hand_coords" "right_transformed_hand_frame"
         "absolute" "relative" 0 6 9 16 5 [] [] None None None.

(** A keypoint set for [example_self]: the wrist at (1,1,1), the index
    knuckle 3 along x from it, the middle knuckle 4 along y, the pinky
    knuckle at (3,4,0) from it; every other keypoint at the wrist. *)
Definition example_wrist : vec := mkvec 1 1 1.

Definition example_hand_coords : list vec :=
  map (fun k =>
         if Nat.eqb k 6 then mkvec 4 1 1
         else if Nat.eqb k 9 then mkvec 1 5 1
         else if Nat.eqb k 16 then mkvec 4 5 1
         else example_wrist)
      (seq 0 24).

Definition is_warning (e : event) : bool :=
  match e with
  | LoggerCall WARNING => true
  | _ => false
  end.

Definition is_publish (e : event) : bool :=
  match e with
  | Publish _ _ => true
  | _ => false
  end.

(** The policy "skip tick, warn, continue" of the error table, for one pass
    of the loop: the pass returns, both windows are as they were, nothing
    was published and one warning was logged. *)
Definition skipped_with_warning (robots : Robots) (self : Self) (env : TickEnv)
  : Prop :=
  let '(self', evs, r) := stream_iteration robots self env in
  r = inl tt /\
  coord_moving_average_queue self' = coord_moving_average_queue self /\
  frame_moving_average_queue self' = frame_moving_average_queue self /\
  filter is_publish evs = [] /\
  length (filter is_warning evs) = 1%nat.


Definition example_log_env : KeypointLogger.Env := KeypointLogger.mkEnv 0 0 true.

(** Surroundings of a construction: one in which the directory is created
    and the handlers are registered; one off the main thread, where
    [signal.signal] raises [ValueError]; one in which the log directory
    cannot be created. *)
Definition example_init_env : KeypointLogger.InitEnv :=
  KeypointLogger.mkInitEnv (fun _ => ret tt) (fun _ => ret tt).



Definition example_log_dir : string := "data/keypoint_logs".

(** A pass on which [recv_keypoints] returns nothing. *)
Definition example_env_no_data : TickEnv := mkTickEnv None 0 example_log_env.

(** A pass that receives two keypoints where 24 are configured. *)
Definition example_env_malformed : TickEnv :=
  mkTickEnv (Some (mkRecvFrame [vzero; vzero] false)) 0 example_log_env.


(** The sample a pass feeds to the two windows: the pair that
    [transform_keypoints] returns on the keypoints received, when keypoints
    were received, have the configured number and the transform returns. *)
Definition tick_sample (robots : Robots) (self : Self) (env : TickEnv)
  : option (rows * rows) :=
  match _get_hand_coords robots self (received env) with
  | inl (Some (_, hand_coords)) =>
      match transform_keypoints robots self hand_coords with
      | inl s => Some s
      | inr _ => None
      end
  | _ => None
  end.

(** The samples of a run of passes, oldest first. *)
Definition samples (robots : Robots) (self : Self) (envs : list TickEnv)
  : list (rows * rows) :=
  flat_map (fun env =>
              match tick_sample robots self env with
              | Some s => [s]
              | None => []
              end) envs.

(** The attributes that no pass assigns. *)
Definition same_config (s s' : Self) : Prop :=
  hand_side s' = hand_side s /\
  coords_topic s' = coords_topic s /\
  frame_topic s' = frame_topic s /\
  absolute_mode s' = absolute_mode s /\
  relative_mode s' = relative_mode s /\
  wrist_idx s' = wrist_idx s /\
  index_knuckle_idx s' = index_knuckle_idx s /\
  middle_knuckle_idx s' = middle_knuckle_idx s /\
  pinky_knuckle_idx s' = pinky_knuckle_idx s /\
  moving_average_limit s' = moving_average_limit s.

(** The smoothed outputs an instance holds are the means of its windows,
    the frame re-orthogonalised after the mean was taken. *)
Definition outputs_are_means (self : Self) : Prop :=
  averaged_keypoints self = Some (np_mean (coord_moving_average_queue self)) /\
  exists frame : rows,
    reorthogonalize (np_mean (frame_moving_average_queue self)) = inl frame /\
    averaged_coordinate_frame self = Some (Rows frame).

(** A pass that receives [example_hand_coords]. *)
Definition example_env_data : TickEnv :=
  mkTickEnv (Some (mkRecvFrame example_hand_coords false)) 0 example_log_env.

(** The entry that [log_frame] appends on the call numbered [i] (from 0)
    of a logger, for a frame of four rows. *)
Definition entry_of (i : nat) (c : KeypointLogger.Env * ndarray * rows)
  : KeypointLogger.FrameData :=
  let '(env, k, cf) := c in
  KeypointLogger.mkFrameData (Z.of_nat i) (KeypointLogger.time_time env) k
    (nth 0 cf None) (nth 1 cf None) (nth 2 cf None) (nth 3 cf None).

Fixpoint entries_from (i : nat) (calls : list (KeypointLogger.Env * ndarray * rows))
  : list KeypointLogger.FrameData :=
  match calls with
  | [] => []
  | c :: rest => entry_of i c :: entries_from (S i) rest
  end.

(** A call of [log_frame] with a frame of four rows that writes its file. *)
Definition example_call : KeypointLogger.Env * ndarray * rows :=
  (example_log_env, Rows [Some example_wrist],
   [Some example_wrist; Some e0; Some e1; Some e2]).

(** ** [cleanup] *)

(** Calls that leave the object during [cleanup]: those of [event], the
    call [keypoint_subscriber.stop()] and the call
    [cleanup_zmq_resources()]. *)
Inductive cleanup_event : Type :=
| Call (e : event)
| SubscriberStop
| CleanupZmqResources.

(** [cleanup]; the two closing calls are taken to return. *)
Definition cleanup (self : Self) (env : KeypointLogger.Env)
  : Self * list cleanup_event :=
  match keypoint_logger self with
  | Some l =>
      let '(l', evs) := KeypointLogger.save_data l env in
      (set_keypoint_logger self (Some l'),
       Call (LoggerCall INFO) :: map Call evs
         ++ [SubscriberStop; CleanupZmqResources])
  | None => (self, [SubscriberStop; CleanupZmqResources])
  end.

(** [__del__]. *)
Definition __del__ (self : Self) (env : KeypointLogger.Env)
  : Self * list cleanup_event :=
  cleanup self env.

(** ** Further definitions used to state the properties *)

(** [i] is an index of [l]: Python takes [-len(l) <= i < len(l)]. *)
Definition valid_index {A : Type} (l : list A) (i : Z) : Prop :=
  (- Z.of_nat (length l) <= i < Z.of_nat (length l))%Z.

(** The entry that a call of [log_frame] on the logger [l] builds from a
    frame of four rows. *)
Definition frame_data_of (l : KeypointLogger.t) (env : KeypointLogger.Env)
    (k : ndarray) (cf : rows) : KeypointLogger.FrameData :=
  KeypointLogger.mkFrameData (KeypointLogger.frame_counter l)
    (KeypointLogger.time_time env) k
    (nth 0 cf None) (nth 1 cf None) (nth 2 cf None) (nth 3 cf None).

(** The document [save_data] writes for the logger [l]. *)
Definition document_of (l : KeypointLogger.t) (env : KeypointLogger.Env)
  : KeypointLogger.Document :=
  KeypointLogger.mkDocument (KeypointLogger.hand_side l)
    (Z.of_nat (length (KeypointLogger.logged_data l)))
    (KeypointLogger.logged_data l)
    (KeypointLogger.datetime_now env)
    (KeypointLogger.moving_average_limit l).

(** A frame with its origin moved by [t]. *)
Definition shift_origin (t : vec) (cf : rows) : rows :=
  match cf with
  | o :: basis => nbind o (fun w => Some (vadd w t)) :: basis
  | [] => []
  end.

(** A logger with an auto-save interval of two frames, an environment in
    which the write fails, and a frame of four rows. *)
Definition example_logger : KeypointLogger.t :=
  KeypointLogger.fresh "right" example_log_dir 2 5.

Definition example_log_env_fail : KeypointLogger.Env :=
  KeypointLogger.mkEnv 0 0 false.

Definition example_frame : rows :=
  [Some example_wrist; Some e0; Some e1; Some e2].

(** A logger with a positive interval whose buffer holds as many entries as
    the counter is past the last multiple of the interval. *)
Definition logger_ok (l : KeypointLogger.t) : Prop :=
  (0 < KeypointLogger.auto_save_interval l)%Z /\
  (0 <= KeypointLogger.frame_counter l)%Z /\
  Z.of_nat (length (KeypointLogger.logged_data l))
  = (KeypointLogger.frame_counter l mod KeypointLogger.auto_save_interval l)%Z.

(** The record a pass builds for publication. *)
Definition published_record (self : Self) (env : TickEnv) (f : RecvFrame)
    (averaged_keypoints : ndarray) (frame : rows) : InputFrame :=
  mkInputFrame (now env) (hand_side self) averaged_keypoints
    (String.eqb (if recv_is_relative f then relative_mode self
                 else absolute_mode self) (relative_mode self))
    frame.

(** [example_self] with a logger. *)
Definition example_self_logging (l : KeypointLogger.t) : Self :=
  set_keypoint_logger example_self (Some l).
(** ** Facts on rows *)

Lemma vec_eq (a b : vec) :
  vx a = vx b -> vy a = vy b -> vz a = vz b -> a = b.
Proof. destruct a, b; simpl; intros; subst; reflexivity. Qed.

Lemma dot_self_nonneg (a : vec) : 0 <= dot a a.
Proof. unfold dot. nra. Qed.

Lemma norm_nonneg (a : vec) : 0 <= norm a.
Proof. apply sqrt_pos. Qed.

Lemma norm_sqr (a : vec) : norm a * norm a = dot a a.
Proof. apply sqrt_sqrt, dot_self_nonneg. Qed.

Lemma norm_eq_1 (a : vec) : dot a a = 1 -> norm a = 1.
Proof. intros H. unfold norm. rewrite H. apply sqrt_1. Qed.

Lemma norm_of_square (a : vec) (k : R) : 0 <= k -> dot a a = k * k -> norm a = k.
Proof. intros Hk H. unfold norm. rewrite H. apply sqrt_square, Hk. Qed.

Lemma dot_vdiv_l (a b : vec) (k : R) : dot (vdiv a k) b = dot a b / k.
Proof. unfold dot, vdiv, Rdiv; simpl. ring. Qed.

Lemma dot_vdiv_r (a b : vec) (k : R) : dot a (vdiv b k) = dot a b / k.
Proof. unfold dot, vdiv, Rdiv; simpl. ring. Qed.

Lemma dot_comm (a b : vec) : dot a b = dot b a.
Proof. unfold dot. ring. Qed.

Lemma vdiv_1 (a : vec) : vdiv a 1 = a.
Proof. apply vec_eq; unfold vdiv; simpl; field. Qed.

(** A row divided by its norm has norm one. *)
Lemma norm_vdiv_norm (a : vec) : norm a <> 0 -> norm (vdiv a (norm a)) = 1.
Proof.
  intros Hn. apply norm_eq_1.
  rewrite dot_vdiv_l, dot_vdiv_r, <- norm_sqr. field. exact Hn.
Qed.

Lemma dot_cross_l (a b : vec) : dot a (cross a b) = 0.
Proof. unfold dot, cross; simpl. ring. Qed.

Lemma dot_cross_r (a b : vec) : dot b (cross a b) = 0.
Proof. unfold dot, cross; simpl. ring. Qed.

(** Lagrange's identity. *)
Lemma dot_cross_cross (a b : vec) :
  dot (cross a b) (cross a b) = dot a a * dot b b - dot a b * dot a b.
Proof. unfold dot, cross; simpl. ring. Qed.

Lemma normalize_vector_some (a : vec) :
  norm a <> 0 -> normalize_vector (Some a) = Some (vdiv a (norm a)).
Proof.
  intros Hn. unfold normalize_vector; simpl.
  destruct (Req_dec_T (norm a) 0) as [E | _]; [contradiction | reflexivity].
Qed.

Lemma normalize_vector_zero (a : vec) :
  norm a = 0 -> normalize_vector (Some a) = None.
Proof.
  intros Hn. unfold normalize_vector; simpl.
  destruct (Req_dec_T (norm a) 0) as [_ | E]; [reflexivity | contradiction].
Qed.

Lemma normalize_vector_unit (a : vec) :
  norm a = 1 -> normalize_vector (Some a) = Some a.
Proof.
  intros Hn. rewrite normalize_vector_some by lra. rewrite Hn, vdiv_1. reflexivity.
Qed.

Lemma dot_reject (b x : vec) : dot x x = 1 -> dot x (reject b x) = 0.
Proof.
  intros Hx. unfold reject, dot, vsub, vscale in *; simpl in *.
  transitivity ((vx x * vx b + vy x * vy b + vz x * vz b)
                * (1 - (vx x * vx x + vy x * vy x + vz x * vz x))); [ring |].
  rewrite Hx. ring.
Qed.

(** What [_orthogonalize_frame] computes on finite rows whose two
    intermediate rows do not vanish. *)
Lemma orthogonalize_frame_eq (a b : vec) (c : nvec) :
  norm a <> 0 ->
  norm (reject b (vdiv a (norm a))) <> 0 ->
  let x := vdiv a (norm a) in
  let y := vdiv (reject b x) (norm (reject b x)) in
  norm (cross x y) = 1 /\
  _orthogonalize_frame (Some a) (Some b) c = (Some x, Some y, Some (cross x y)).
Proof.
  intros Ha Hb x y.
  assert (Hx1 : norm x = 1) by (apply norm_vdiv_norm, Ha).
  assert (Hy1 : norm y = 1) by (apply norm_vdiv_norm, Hb).
  assert (Hxx : dot x x = 1) by (rewrite <- norm_sqr, Hx1; ring).
  assert (Hyy : dot y y = 1) by (rewrite <- norm_sqr, Hy1; ring).
  assert (Hxy : dot x y = 0).
  { unfold y. rewrite dot_vdiv_r, dot_reject by exact Hxx. unfold Rdiv; ring. }
  assert (Hz1 : norm (cross x y) = 1).
  { apply norm_eq_1. rewrite dot_cross_cross, Hxx, Hyy, Hxy. ring. }
  split; [exact Hz1 |].
  unfold _orthogonalize_frame.
  rewrite (normalize_vector_some a Ha). fold x.
  change (nsub (Some b) (nscale (ndot (Some b) (Some x)) (Some x)))
    with (Some (reject b x)).
  rewrite (normalize_vector_some (reject b x) Hb). fold y.
  change (ncross (Some x) (Some y)) with (Some (cross x y)).
  rewrite (normalize_vector_unit _ Hz1). reflexivity.
Qed.

(** ** The orthogonalizer *)

Lemma norm_nonzero (a : vec) : dot a a <> 0 -> norm a <> 0.
Proof.
  intros H E. apply H. rewrite <- norm_sqr, E. ring.
Qed.

(** C2.  On a non-degenerate triple (the first row and the remainder of the
    second along it do not vanish) [_orthogonalize_frame] returns finite rows
    [x], [y], [z]: [x] is the first input over its norm, [y] the normalised
    remainder of the second input along [x], [z] the normalised cross product
    of [x] and [y]; the three are unit rows, pairwise orthogonal, and
    [z = x × y].  The equalities are exact, hence within every epsilon.  The
    third input has no part in the result. *)
Theorem orthogonalize_frame_orthonormal (a b : vec) (c : nvec) :
  norm a <> 0 ->
  norm (reject b (vdiv a (norm a))) <> 0 ->
  exists x y z : vec,
    _orthogonalize_frame (Some a) (Some b) c = (Some x, Some y, Some z) /\
    x = vdiv a (norm a) /\
    y = vdiv (reject b x) (norm (reject b x)) /\
    z = vdiv (cross x y) (norm (cross x y)) /\
    orthonormal_rh x y z /\
    forall c' : nvec,
      _orthogonalize_frame (Some a) (Some b) c'
      = _orthogonalize_frame (Some a) (Some b) c.
Proof.
  intros Ha Hb.
  destruct (orthogonalize_frame_eq a b c Ha Hb) as [Hz1 Heq].
  set (x := vdiv a (norm a)) in *.
  set (y := vdiv (reject b x) (norm (reject b x))) in *.
  assert (Hx1 : norm x = 1) by (apply norm_vdiv_norm, Ha).
  assert (Hy1 : norm y = 1) by (apply norm_vdiv_norm, Hb).
  assert (Hxx : dot x x = 1) by (rewrite <- norm_sqr, Hx1; ring).
  assert (Hxy : dot x y = 0).
  { unfold y. rewrite dot_vdiv_r, dot_reject by exact Hxx. unfold Rdiv; ring. }
  exists x, y, (cross x y).
  split; [exact Heq |].
  split; [reflexivity |].
  split; [reflexivity |].
  split; [rewrite Hz1, vdiv_1; reflexivity |].
  split.
  - unfold orthonormal_rh. repeat split; try assumption.
    + apply dot_cross_l.
    + apply dot_cross_r.
  - intros c'. reflexivity.
Qed.

Lemma orthogonalize_frame_orthonormal_witness :
  exists x y z : vec,
    _orthogonalize_frame (Some (mkvec 2 0 0)) (Some (mkvec 1 3 0)) None
    = (Some x, Some y, Some z) /\
    orthonormal_rh x y z.
Proof.
  assert (Hn : norm (mkvec 2 0 0) = 2).
  { apply norm_of_square; [lra | unfold dot; simpl; ring]. }
  assert (Ha : norm (mkvec 2 0 0) <> 0) by (rewrite Hn; lra).
  assert (Hb : norm (reject (mkvec 1 3 0)
                       (vdiv (mkvec 2 0 0) (norm (mkvec 2 0 0)))) <> 0).
  { rewrite Hn.
    replace (vdiv (mkvec 2 0 0) 2) with e0
      by (apply vec_eq; unfold vdiv; simpl; field).
    replace (reject (mkvec 1 3 0) e0) with (mkvec 0 3 0)
      by (apply vec_eq; unfold reject, vsub, vscale, dot; simpl; ring).
    apply norm_nonzero. unfold dot; simpl. lra. }
  destruct (orthogonalize_frame_orthonormal (mkvec 2 0 0) (mkvec 1 3 0) None Ha Hb)
    as (x & y & z & Heq & _ & _ & _ & Hon & _).
  exists x, y, z. split; assumption.
Defined.

(** On an orthonormal right-handed triple the Gram-Schmidt pass changes
    nothing. *)
Lemma orthogonalize_frame_fixed (x y z : vec) :
  orthonormal_rh x y z ->
  _orthogonalize_frame (Some x) (Some y) (Some z) = (Some x, Some y, Some z).
Proof.
  intros (Hx & Hy & Hz & Hxy & Hxz & Hyz & Hrh).
  unfold _orthogonalize_frame.
  rewrite (normalize_vector_unit x Hx).
  change (nsub (Some y) (nscale (ndot (Some y) (Some x)) (Some x)))
    with (Some (reject y x)).
  assert (Hr : reject y x = y).
  { unfold reject. rewrite (dot_comm y x), Hxy.
    apply vec_eq; unfold vsub, vscale; simpl; ring. }
  rewrite Hr, (normalize_vector_unit y Hy).
  change (ncross (Some x) (Some y)) with (Some (cross x y)).
  rewrite <- Hrh, (normalize_vector_unit z Hz). reflexivity.
Qed.

(** C5.  On three unit rows, pairwise orthogonal and right-handed,
    [_orthogonalize_frame] returns the three rows themselves (exactly, hence
    within every epsilon), and so does the re-orthogonalisation that [stream]
    applies to an averaged frame with these rows. *)
Theorem orthogonalize_frame_idempotent (x y z : vec) (origin : nvec) :
  orthonormal_rh x y z ->
  _orthogonalize_frame (Some x) (Some y) (Some z) = (Some x, Some y, Some z) /\
  reorthogonalize (Rows [origin; Some x; Some y; Some z])
  = ret [origin; Some x; Some y; Some z].
Proof.
  intros Hon.
  pose proof (orthogonalize_frame_fixed x y z Hon) as H1.
  destruct Hon as (Hx & Hy & Hz & _).
  split; [exact H1 |].
  unfold reorthogonalize, ndarray_getitem.
  change (getitem [origin; Some x; Some y; Some z] 0) with (@ret nvec origin).
  change (getitem [origin; Some x; Some y; Some z] 1) with (@ret nvec (Some x)).
  change (getitem [origin; Some x; Some y; Some z] 2) with (@ret nvec (Some y)).
  change (getitem [origin; Some x; Some y; Some z] 3) with (@ret nvec (Some z)).
  unfold rbind, ret.
  rewrite (normalize_vector_unit x Hx), (normalize_vector_unit y Hy),
    (normalize_vector_unit z Hz), H1. reflexivity.
Qed.

Lemma orthonormal_rh_canonical : orthonormal_rh e0 e1 e2.
Proof.
  unfold orthonormal_rh, e0, e1, e2.
  repeat split;
    try (apply norm_eq_1; unfold dot; simpl; ring);
    try (unfold dot; simpl; ring).
  apply vec_eq; unfold cross; simpl; ring.
Qed.

Lemma orthogonalize_frame_idempotent_witness :
  _orthogonalize_frame (Some e0) (Some e1) (Some e2) = (Some e0, Some e1, Some e2) /\
  reorthogonalize (Rows [Some vzero; Some e0; Some e1; Some e2])
  = ret [Some vzero; Some e0; Some e1; Some e2].
Proof.
  exact (orthogonalize_frame_idempotent e0 e1 e2 (Some vzero)
           orthonormal_rh_canonical).
Defined.

(** ** Indexing *)

Lemma getitem_map {A B : Type} (f : A -> B) (l : list A) (i : Z) :
  getitem (map f l) i
  = match getitem l i with
    | inl a => inl (f a)
    | inr e => inr e
    end.
Proof.
  unfold getitem. rewrite length_map, nth_error_map.
  destruct (_ && _)%bool; [| reflexivity].
  destruct (nth_error l _); reflexivity.
Qed.

Lemma getitem_inl_length {A : Type} (l : list A) (i : Z) (a : A) :
  getitem l i = inl a -> l <> [].
Proof.
  intros H E. subst l. unfold getitem in H. simpl in H.
  destruct (i <? 0)%Z eqn:Hi.
  - rewrite Z.add_0_r in H.
    assert (E : (0 <=? i)%Z = false) by (apply Z.leb_gt, Z.ltb_lt, Hi).
    rewrite E in H. discriminate.
  - destruct (0 <=? i)%Z; simpl in H.
    + assert (E : (i <? 0)%Z = false) by exact Hi. rewrite E in H. discriminate.
    + discriminate.
Qed.

(** ** Matrices *)

Lemma transpose_involutive (m : mat) : transpose (transpose m) = m.
Proof. destruct m as [[? ? ?] [? ? ?] [? ? ?]]. reflexivity. Qed.

(** [inverse] is a right inverse: the matrix [np.linalg.solve(m, eye)]
    solves for. *)
Lemma mat_mul_inverse (m : mat) : det m <> 0 -> mat_mul m (inverse m) = eye.
Proof.
  intros Hd. destruct m as [[a1 a2 a3] [b1 b2 b3] [c1 c2 c3]].
  unfold det, dot, cross in Hd; simpl in Hd.
  unfold mat_mul, inverse, eye, e0, e1, e2; rewrite transpose_involutive.
  unfold mat_vec, vdiv, det, dot, cross; simpl.
  f_equal; apply vec_eq; simpl; field; exact Hd.
Qed.


(** ** The frame functions *)

Lemma vsub_translate (a b w : vec) : vsub (vsub a w) (vsub b w) = vsub a b.
Proof. apply vec_eq; unfold vsub; simpl; ring. Qed.

Lemma landmark_vectors_translate (self : Self) (hand_coords : list vec) (w : vec) :
  landmark_vectors self (translate hand_coords w)
  = match landmark_vectors self hand_coords with
    | inl (wrist, v1, v2, v3) => inl (vsub wrist w, v1, v2, v3)
    | inr e => inr e
    end.
Proof.
  unfold landmark_vectors, translate.
  rewrite !getitem_map.
  destruct (getitem hand_coords (wrist_idx self)) as [wr |]; [| reflexivity].
  destruct (getitem hand_coords (index_knuckle_idx self)) as [i |]; [| reflexivity].
  destruct (getitem hand_coords (pinky_knuckle_idx self)) as [p |]; [| reflexivity].
  destruct (getitem hand_coords (middle_knuckle_idx self)) as [m |]; [| reflexivity].
  unfold rbind, ret. rewrite !vsub_translate. reflexivity.
Qed.

Lemma coord_frame_inl_landmarks (self : Self) (hand_coords : list vec) (fr : rows) :
  _get_stable_coord_frame self hand_coords = inl fr ->
  exists l, landmark_vectors self hand_coords = inl l.
Proof.
  unfold _get_stable_coord_frame. intros H.
  destruct (landmark_vectors self hand_coords) as [l | e]; [eauto | discriminate].
Qed.

Lemma hand_dir_frame_of_landmarks (robots : Robots) (self : Self)
    (hand_coords : list vec) (l : vec * vec * vec * vec) :
  landmark_vectors self hand_coords = inl l ->
  exists x y z,
    _get_stable_hand_dir_frame robots self hand_coords
    = inl [Some (fst (fst (fst l))); x; y; z].
Proof.
  intros H. unfold _get_stable_hand_dir_frame. rewrite H.
  destruct l as [[[wrist v1] v2] v3]. unfold rbind, ret; cbv beta iota zeta.
  destruct (String.eqb (hand_side self) (RIGHT robots));
    match goal with
    | |- context [_orthogonalize_frame ?a ?b ?c] =>
        destruct (_orthogonalize_frame a b c) as [[x y] z]
    end; simpl; eauto.
Qed.

(** C6.  The hand-direction frame of an instance does not depend on its
    [hand_side]: for every keypoint set the left-hand and the right-hand
    instance compute the same frame (or raise the same exception). *)
Theorem hand_dir_frame_left_right (robots : Robots) (self : Self)
    (hand_coords : list vec) :
  _get_stable_hand_dir_frame robots (with_hand_side self (LEFT robots)) hand_coords
  = _get_stable_hand_dir_frame robots (with_hand_side self (RIGHT robots)) hand_coords.
Proof.
  unfold _get_stable_hand_dir_frame.
  change (landmark_vectors (with_hand_side self (LEFT robots)) hand_coords)
    with (landmark_vectors self hand_coords).
  change (landmark_vectors (with_hand_side self (RIGHT robots)) hand_coords)
    with (landmark_vectors self hand_coords).
  destruct (landmark_vectors self hand_coords) as [[[[wrist v1] v2] v3] | e];
    [| reflexivity].
  unfold rbind; simpl.
  destruct (String.eqb (LEFT robots) (RIGHT robots));
    destruct (String.eqb (RIGHT robots) (RIGHT robots)); reflexivity.
Qed.

(** The frame functions return three and four rows. *)
Lemma coord_frame_rows (self : Self) (hand_coords : list vec) (fr : rows) :
  _get_stable_coord_frame self hand_coords = inl fr ->
  exists x y z, fr = [x; y; z].
Proof.
  unfold _get_stable_coord_frame.
  destruct (landmark_vectors self hand_coords) as [[[[w v1] v2] v3] | e];
    [| discriminate].
  unfold rbind, ret; cbv beta iota zeta.
  match goal with
  | |- context [_orthogonalize_frame ?a ?b ?c] =>
      destruct (_orthogonalize_frame a b c) as [[x y] z]
  end.
  intros H. injection H as <-. eauto.
Qed.

(** [transform_keypoints] on a keypoint set whose rotation-alignment frame
    is finite and non-singular. *)
Lemma transform_keypoints_finite (robots : Robots) (self : Self)
    (hand_coords : list vec) (wrist x y z : vec) :
  getitem hand_coords 0 = inl wrist ->
  _get_stable_coord_frame self (translate hand_coords wrist)
  = inl [Some x; Some y; Some z] ->
  det (mkmat x y z) <> 0 ->
  exists o fx fy fz : nvec,
    _get_stable_hand_dir_frame robots self hand_coords = inl [o; fx; fy; fz] /\
    transform_keypoints robots self hand_coords
    = inl (map (fun p => Some (mat_vec (transpose (inverse (mkmat x y z)))
                                       (vsub p wrist))) hand_coords,
           [o; fx; fy; fz]).
Proof.
  intros Hw Hf Hd.
  destruct (coord_frame_inl_landmarks _ _ _ Hf) as [l Hl].
  rewrite landmark_vectors_translate in Hl.
  destruct (landmark_vectors self hand_coords) as [l0 |] eqn:Hl0;
    [| discriminate].
  destruct (hand_dir_frame_of_landmarks robots self hand_coords l0 Hl0)
    as (fx & fy & fz & Hh).
  exists (Some (fst (fst (fst l0)))), fx, fy, fz. split; [exact Hh |].
  unfold transform_keypoints. rewrite Hw. unfold rbind at 1.
  rewrite Hf. unfold rbind at 1.
  unfold linalg_solve_eye.
  destruct (Req_dec_T (det (mkmat x y z)) 0) as [E | _]; [contradiction |].
  unfold rbind at 1. rewrite Hh. unfold rbind, ret, nbind, rotate, translate.
  rewrite map_map. reflexivity.
Qed.

(** [transform_keypoints] on a keypoint set whose rotation-alignment frame
    has a non-finite row: the solve raises nothing, every transformed
    keypoint is non-finite. *)
Lemma transform_keypoints_nonfinite (robots : Robots) (self : Self)
    (hand_coords : list vec) (wrist : vec) (frame : rows) :
  getitem hand_coords 0 = inl wrist ->
  _get_stable_coord_frame self (translate hand_coords wrist) = inl frame ->
  In None frame ->
  exists o fx fy fz : nvec,
    _get_stable_hand_dir_frame robots self hand_coords = inl [o; fx; fy; fz] /\
    transform_keypoints robots self hand_coords
    = inl (map (fun _ => None) hand_coords, [o; fx; fy; fz]).
Proof.
  intros Hw Hf Hin.
  destruct (coord_frame_inl_landmarks _ _ _ Hf) as [l Hl].
  rewrite landmark_vectors_translate in Hl.
  destruct (landmark_vectors self hand_coords) as [l0 |] eqn:Hl0;
    [| discriminate].
  destruct (hand_dir_frame_of_landmarks robots self hand_coords l0 Hl0)
    as (fx & fy & fz & Hh).
  exists (Some (fst (fst (fst l0)))), fx, fy, fz. split; [exact Hh |].
  destruct (coord_frame_rows _ _ _ Hf) as (x & y & z & ->).
  unfold transform_keypoints. rewrite Hw. unfold rbind at 1.
  rewrite Hf. unfold rbind at 1.
  assert (Hs : linalg_solve_eye [x; y; z] = ret None).
  { unfold linalg_solve_eye.
    destruct x as [x |]; [| reflexivity].
    destruct y as [y |]; [| reflexivity].
    destruct z as [z |]; [| reflexivity].
    simpl in Hin. destruct Hin as [H | [H | [H | []]]]; discriminate H. }
  rewrite Hs. unfold ret, rbind at 1. rewrite Hh.
  unfold rbind, nbind, rotate, translate. rewrite map_map. reflexivity.
Qed.


(** ** The example keypoint set *)

Lemma normalize_vector_eq (a : vec) (k : R) :
  0 < k -> dot a a = k * k -> normalize_vector (Some a) = Some (vdiv a k).
Proof.
  intros Hk H.
  assert (Hn : norm a = k) by (apply norm_of_square; [lra | exact H]).
  rewrite normalize_vector_some by (rewrite Hn; lra).
  rewrite Hn. reflexivity.
Qed.

Lemma example_landmarks :
  landmark_vectors example_self example_hand_coords
  = inl (example_wrist, mkvec 3 0 0, mkvec 3 4 0, mkvec 0 4 0).
Proof.
  unfold landmark_vectors.
  change (getitem example_hand_coords (wrist_idx example_self))
    with (@ret vec example_wrist).
  change (getitem example_hand_coords (index_knuckle_idx example_self))
    with (@ret vec (mkvec 4 1 1)).
  change (getitem example_hand_coords (pinky_knuckle_idx example_self))
    with (@ret vec (mkvec 4 5 1)).
  change (getitem example_hand_coords (middle_knuckle_idx example_self))
    with (@ret vec (mkvec 1 5 1)).
  unfold rbind, ret, example_wrist.
  repeat f_equal; apply vec_eq; unfold vsub; simpl; ring.
Qed.

Ltac vec_field := apply vec_eq; unfold vdiv, vsub, vadd, vscale, cross, reject, dot; simpl; field.

Lemma example_orthogonalize :
  let palm_normal := normalize_vector (Some (cross (mkvec 3 0 0) (mkvec 0 4 0))) in
  let palm_direction :=
    normalize_vector
      (Some (vdiv (vadd (vadd (mkvec 3 0 0) (mkvec 3 4 0)) (mkvec 0 4 0)) 3)) in
  let cross_product := normalize_vector (ncross palm_direction palm_normal) in
  palm_normal = Some e2 /\
  palm_direction = Some (mkvec (3/5) (4/5) 0) /\
  cross_product = Some (mkvec (4/5) (-3/5) 0).
Proof.
  intros pn pd cp.
  assert (Hpn : pn = Some e2).
  { unfold pn. rewrite (normalize_vector_eq _ 12);
      [| lra | unfold dot, cross; simpl; ring].
    f_equal. unfold e2. vec_field. }
  assert (Hpd : pd = Some (mkvec (3/5) (4/5) 0)).
  { unfold pd. rewrite (normalize_vector_eq _ (10/3));
      [| lra | unfold dot, vdiv, vadd; simpl; field].
    f_equal. vec_field. }
  repeat split; try assumption.
  unfold cp. rewrite Hpn, Hpd.
  change (ncross (Some (mkvec (3/5) (4/5) 0)) (Some e2))
    with (Some (cross (mkvec (3/5) (4/5) 0) e2)).
  rewrite (normalize_vector_eq _ 1);
    [| lra | unfold dot, cross, e2; simpl; field].
  f_equal. unfold e2. vec_field.
Qed.

Lemma example_frame_orthonormal :
  orthonormal_rh (mkvec (4/5) (-3/5) 0) (mkvec (3/5) (4/5) 0) e2.
Proof.
  unfold orthonormal_rh, e2.
  repeat split;
    try (apply norm_eq_1; unfold dot; simpl; field);
    try (unfold dot; simpl; field).
  apply vec_eq; unfold cross; simpl; field.
Qed.

Lemma example_coord_frame :
  _get_stable_coord_frame example_self (translate example_hand_coords example_wrist)
  = inl [Some (mkvec (4/5) (-3/5) 0); Some (mkvec (3/5) (4/5) 0); Some e2].
Proof.
  unfold _get_stable_coord_frame.
  rewrite landmark_vectors_translate, example_landmarks.
  unfold rbind; cbv beta iota zeta.
  destruct example_orthogonalize as (Hn & Hd & Hc).
  rewrite Hc, Hn, Hd.
  rewrite (orthogonalize_frame_fixed _ _ _ example_frame_orthonormal).
  reflexivity.
Qed.


(** ** Finite and non-finite frames *)



Lemma normalize_vector_cases (a : vec) :
  normalize_vector (Some a) = None \/
  exists u, normalize_vector (Some a) = Some u /\ norm u = 1 /\
            u = vdiv a (norm a) /\ norm a <> 0.
Proof.
  destruct (Req_dec_T (norm a) 0) as [E | E].
  - left. apply normalize_vector_zero, E.
  - right. exists (vdiv a (norm a)).
    split; [apply normalize_vector_some, E |].
    split; [apply norm_vdiv_norm, E |]. split; [reflexivity | exact E].
Qed.

Lemma orthogonalize_frame_none (b c : nvec) :
  _orthogonalize_frame None b c = (None, None, None).
Proof. unfold _orthogonalize_frame. destruct b; reflexivity. Qed.

(** Two unit rows at a right angle: the Gram-Schmidt pass keeps them and
    adds their cross product. *)
Lemma orthogonalize_frame_unit_pair (x b : vec) (c : nvec) :
  norm x = 1 -> norm b = 1 -> dot b x = 0 ->
  _orthogonalize_frame (Some x) (Some b) c = (Some x, Some b, Some (cross x b)) /\
  orthonormal_rh x b (cross x b).
Proof.
  intros Hx Hb Hbx.
  assert (Hxx : dot x x = 1) by (rewrite <- norm_sqr, Hx; ring).
  assert (Hbb : dot b b = 1) by (rewrite <- norm_sqr, Hb; ring).
  assert (Hxb : dot x b = 0) by (rewrite dot_comm; exact Hbx).
  assert (Hz : norm (cross x b) = 1).
  { apply norm_eq_1. rewrite dot_cross_cross, Hxx, Hbb, Hxb. ring. }
  assert (Hon : orthonormal_rh x b (cross x b)).
  { unfold orthonormal_rh. repeat split; try assumption.
    - apply dot_cross_l.
    - apply dot_cross_r. }
  split; [| exact Hon].
  unfold _orthogonalize_frame.
  rewrite (normalize_vector_unit x Hx).
  change (nsub (Some b) (nscale (ndot (Some b) (Some x)) (Some x)))
    with (Some (reject b x)).
  assert (Hr : reject b x = b).
  { unfold reject. rewrite Hbx.
    apply vec_eq; unfold vsub, vscale; simpl; ring. }
  rewrite Hr, (normalize_vector_unit b Hb).
  change (ncross (Some x) (Some b)) with (Some (cross x b)).
  rewrite (normalize_vector_unit _ Hz). reflexivity.
Qed.

(** The three rows the frame functions start from: either the side row is
    non-finite, or the three are finite unit rows and the side row is at a
    right angle to the other two. *)
Lemma landmark_rows_cases (v1 v2 v3 : vec) :
  let palm_normal := normalize_vector (Some (cross v1 v3)) in
  let palm_direction :=
    normalize_vector (Some (vdiv (vadd (vadd v1 v2) v3) 3)) in
  let cross_product := normalize_vector (ncross palm_direction palm_normal) in
  cross_product = None \/
  exists c d n : vec,
    cross_product = Some c /\ palm_direction = Some d /\ palm_normal = Some n /\
    norm c = 1 /\ norm d = 1 /\ norm n = 1 /\ dot d c = 0 /\ dot n c = 0.
Proof.
  intros pn pd cp. unfold cp.
  destruct (normalize_vector_cases (cross v1 v3)) as [E | (n & E & Hn & _)];
    fold pn in E; rewrite E.
  { left. destruct pd; reflexivity. }
  destruct (normalize_vector_cases (vdiv (vadd (vadd v1 v2) v3) 3))
    as [E' | (d & E' & Hd & _)]; fold pd in E'; rewrite E'.
  { left. reflexivity. }
  change (ncross (Some d) (Some n)) with (Some (cross d n)).
  destruct (normalize_vector_cases (cross d n)) as [E'' | (c & E'' & Hc & Hcv & Hnz)].
  { left. exact E''. }
  right. exists c, d, n. repeat split; try assumption.
  - rewrite Hcv, dot_vdiv_r, dot_cross_l. unfold Rdiv; ring.
  - rewrite Hcv, dot_vdiv_r, dot_cross_r. unfold Rdiv; ring.
Qed.

(** The rotation-alignment frame of one keypoint set and the
    hand-direction frame of another with the same landmark vectors (the
    translated set and the set itself): both have a non-finite basis, or
    both are orthonormal right-handed triples. *)
Lemma frames_cases (robots : Robots) (self : Self) (coords1 coords2 : list vec)
    (w1 w2 v1 v2 v3 : vec) :
  landmark_vectors self coords1 = inl (w1, v1, v2, v3) ->
  landmark_vectors self coords2 = inl (w2, v1, v2, v3) ->
  (_get_stable_coord_frame self coords1 = inl [None; None; None] /\
   _get_stable_hand_dir_frame robots self coords2
   = inl [Some w2; None; None; None]) \/
  (exists x y z a b c : vec,
     _get_stable_coord_frame self coords1 = inl [Some x; Some y; Some z] /\
     orthonormal_rh x y z /\
     _get_stable_hand_dir_frame robots self coords2
     = inl [Some w2; Some a; Some b; Some c] /\
     orthonormal_rh a b c).
Proof.
  intros Hl1 Hl2.
  unfold _get_stable_coord_frame, _get_stable_hand_dir_frame.
  rewrite Hl1, Hl2. unfold rbind, ret; cbv beta iota zeta.
  destruct (landmark_rows_cases v1 v2 v3)
    as [E | (c & d & n & Ec & Ed & En & Hc & Hd & Hn & Hdc & Hnc)].
  - left.
    destruct (String.eqb (hand_side self) (RIGHT robots));
      cbv beta iota; rewrite E, !orthogonalize_frame_none; split; reflexivity.
  - right.
    destruct (orthogonalize_frame_unit_pair c d (Some n) Hc Hd Hdc) as [E1 O1].
    destruct (orthogonalize_frame_unit_pair c n (Some d) Hc Hn Hnc) as [E2 O2].
    exists c, d, (cross c d), c, n, (cross c n).
    destruct (String.eqb (hand_side self) (RIGHT robots));
      cbv beta iota; rewrite Ec, En, Ed, E1, E2;
      repeat split; assumption || reflexivity || apply O1 || apply O2.
Qed.

(** An orthonormal right-handed triple has determinant one: on a finite
    rotation-alignment frame the solve cannot meet a singular matrix. *)
Lemma orthonormal_rh_det (x y z : vec) :
  orthonormal_rh x y z -> det (mkmat x y z) = 1.
Proof.
  intros (Hx & Hy & _ & Hxy & _ & _ & ->).
  assert (Hxx : dot x x = 1) by (rewrite <- norm_sqr, Hx; ring).
  assert (Hyy : dot y y = 1) by (rewrite <- norm_sqr, Hy; ring).
  unfold det; simpl.
  transitivity (dot x x * dot y y - dot x y * dot x y);
    [unfold dot, cross; simpl; ring |].
  rewrite Hxx, Hyy, Hxy. ring.
Qed.

(** ** One pass of the loop *)

(** C8.  On a pass where nothing was received the loop body makes the two
    timer calls and nothing else (no publish, no logger call), leaves every
    attribute (both windows among them) as it was, raises nothing, and
    [stream] goes on with the next pass. *)
Theorem stream_iteration_no_data (robots : Robots) (self : Self) (env : TickEnv)
    (rest : list TickEnv) :
  received env = None ->
  stream_iteration robots self env = (self, [TimerStartLoop; TimerEndLoop], inl tt) /\
  stream robots self (env :: rest)
  = (let '(self', evs, r) := stream robots self rest in
     (self', [TimerStartLoop; TimerEndLoop] ++ evs, r)).
Proof.
  intros H.
  assert (E : stream_iteration robots self env
              = (self, [TimerStartLoop; TimerEndLoop], inl tt)).
  { unfold stream_iteration, _get_hand_coords. rewrite H. reflexivity. }
  split; [exact E |].
  cbn [stream]. rewrite E. reflexivity.
Qed.

Lemma stream_iteration_no_data_witness :
  stream_iteration example_robots example_self example_env_no_data
  = (example_self, [TimerStartLoop; TimerEndLoop], inl tt) /\
  stream example_robots example_self [example_env_no_data; example_env_no_data]
  = (let '(self', evs, r) :=
       stream example_robots example_self [example_env_no_data] in
     (self', [TimerStartLoop; TimerEndLoop] ++ evs, r)).
Proof.
  apply (stream_iteration_no_data example_robots example_self example_env_no_data
           [example_env_no_data]).
  reflexivity.
Defined.

(** C7, as the code has it.  On a pass whose data has another number of
    keypoints than the configured one, [reshape] raises [ValueError]; nothing
    catches it: the pass has made the timer's start call only (no warning,
    no publish), every attribute (both windows among them) is as it was, and
    [stream] ends with that exception whatever would have come next. *)
Theorem stream_iteration_malformed (robots : Robots) (self : Self) (env : TickEnv)
    (f : RecvFrame) (rest : list TickEnv) :
  received env = Some f ->
  length (recv_keypoints f) <> OCULUS_NUM_KEYPOINTS robots ->
  stream_iteration robots self env = (self, [TimerStartLoop], inr ValueError) /\
  stream robots self (env :: rest) = (self, [TimerStartLoop], Some ValueError).
Proof.
  intros H Hn.
  assert (E : stream_iteration robots self env
              = (self, [TimerStartLoop], inr ValueError)).
  { unfold stream_iteration, _get_hand_coords. rewrite H.
    apply Nat.eqb_neq in Hn. rewrite Hn. reflexivity. }
  split; [exact E |].
  cbn [stream]. rewrite E. reflexivity.
Qed.

Lemma stream_iteration_malformed_witness :
  stream_iteration example_robots example_self example_env_malformed
  = (example_self, [TimerStartLoop], inr ValueError) /\
  stream example_robots example_self [example_env_malformed; example_env_no_data]
  = (example_self, [TimerStartLoop], Some ValueError).
Proof.
  apply (stream_iteration_malformed example_robots example_self
           example_env_malformed (mkRecvFrame [vzero; vzero] false)
           [example_env_no_data]).
  - reflexivity.
  - simpl. lia.
Defined.

(** C7 as stated fails: two keypoints where 24 are configured are not
    skipped with a warning. *)
Lemma malformed_not_skipped :
  length (recv_keypoints (mkRecvFrame [vzero; vzero] false))
  <> OCULUS_NUM_KEYPOINTS example_robots /\
  received example_env_malformed = Some (mkRecvFrame [vzero; vzero] false) /\
  ~ skipped_with_warning example_robots example_self example_env_malformed.
Proof.
  split; [simpl; lia |]. split; [reflexivity |].
  unfold skipped_with_warning.
  replace (stream_iteration example_robots example_self example_env_malformed)
    with (example_self, [TimerStartLoop], @inr unit exn ValueError)
    by reflexivity.
  intros (H & _). discriminate H.
Qed.

(** ** Construction *)

Lemma getitem_in_range {A : Type} (l : list A) (i : Z) :
  (- Z.of_nat (length l) <= i < Z.of_nat (length l))%Z ->
  exists a, getitem l i = inl a.
Proof.
  intros Hi. unfold getitem.
  set (n := Z.of_nat (length l)) in *.
  set (j := if (i <? 0)%Z then (i + n)%Z else i).
  assert (Hj : (0 <= j < n)%Z).
  { unfold j. destruct (i <? 0)%Z eqn:E.
    - apply Z.ltb_lt in E. lia.
    - apply Z.ltb_ge in E. lia. }
  assert (E1 : (0 <=? j)%Z = true) by (apply Z.leb_le; lia).
  assert (E2 : (j <? n)%Z = true) by (apply Z.ltb_lt; lia).
  rewrite E1, E2. simpl.
  destruct (nth_error l (Z.to_nat j)) eqn:E; [eexists; reflexivity |].
  apply nth_error_None in E. unfold n in Hj. lia.
Qed.


(** ** Construction *)

(** What the construction of a logger comes to: it returns the fresh
    instance when the directory is created and both handlers are
    registered, and otherwise raises what the first failing call raises. *)
Lemma logger_init_cases (env : KeypointLogger.InitEnv) (hs dir : string)
    (M K : Z) :
  (KeypointLogger.mkdir env dir = inl tt /\
   KeypointLogger.signal_signal env KeypointLogger.SIGINT = inl tt /\
   KeypointLogger.signal_signal env KeypointLogger.SIGTERM = inl tt /\
   KeypointLogger.__init__ env hs dir M K
   = ([LoggerCall INFO], inl (KeypointLogger.fresh hs dir M K))) \/
  (exists e,
     (KeypointLogger.mkdir env dir = inr e /\
      KeypointLogger.__init__ env hs dir M K = ([], inr e)) \/
     (KeypointLogger.mkdir env dir = inl tt /\
      KeypointLogger.signal_signal env KeypointLogger.SIGINT = inr e /\
      KeypointLogger.__init__ env hs dir M K = ([LoggerCall INFO], inr e)) \/
     (KeypointLogger.mkdir env dir = inl tt /\
      KeypointLogger.signal_signal env KeypointLogger.SIGINT = inl tt /\
      KeypointLogger.signal_signal env KeypointLogger.SIGTERM = inr e /\
      KeypointLogger.__init__ env hs dir M K = ([LoggerCall INFO], inr e))).
Proof.
  unfold KeypointLogger.__init__, KeypointLogger._setup_logging,
    KeypointLogger._register_signal_handlers.
  cbn [KeypointLogger.log_dir].
  destruct (KeypointLogger.mkdir env dir) as [[] | e1].
  2: { right. exists e1. left. split; reflexivity. }
  unfold rbind.
  destruct (KeypointLogger.signal_signal env KeypointLogger.SIGINT)
    as [[] | e2].
  2: { right. exists e2. right. left. repeat split. }
  destruct (KeypointLogger.signal_signal env KeypointLogger.SIGTERM)
    as [[] | e3].
  2: { right. exists e3. right. right. repeat split. }
  left. repeat split.
Qed.




(** ** The sliding windows *)

Lemma lastn_short {A : Type} (k : nat) (l : list A) :
  (length l <= k)%nat -> lastn k l = l.
Proof.
  intros H. unfold lastn. replace (length l - k)%nat with 0%nat by lia.
  reflexivity.
Qed.

Lemma lastn_cons_ge {A : Type} (k : nat) (x : A) (l : list A) :
  (k <= length l)%nat -> lastn k (x :: l) = lastn k l.
Proof.
  intros H. unfold lastn. simpl length.
  replace (S (length l) - k)%nat with (S (length l - k)) by lia.
  reflexivity.
Qed.

Lemma length_lastn {A : Type} (k : nat) (l : list A) :
  length (lastn k l) = Nat.min k (length l).
Proof. unfold lastn. rewrite length_skipn. lia. Qed.

(** One [moving_average] call on a window of at most [K] samples. *)
Lemma moving_average_queue (K : nat) (v : rows) (q : list rows) :
  (1 <= K)%nat -> (length q <= K)%nat ->
  snd (moving_average v q (Z.of_nat K))
  = (if Nat.ltb (length q) K then q ++ [v] else tl (q ++ [v])) /\
  (length (snd (moving_average v q (Z.of_nat K))) <= K)%nat.
Proof.
  intros HK Hq. unfold moving_average; simpl snd.
  rewrite length_app; simpl length.
  destruct (Nat.ltb (length q) K) eqn:E.
  - apply Nat.ltb_lt in E.
    assert (E' : (Z.of_nat K <? Z.of_nat (length q + 1))%Z = false)
      by (apply Z.ltb_ge; lia).
    rewrite E'. split; [reflexivity |]. rewrite length_app; simpl; lia.
  - apply Nat.ltb_ge in E.
    assert (E' : (Z.of_nat K <? Z.of_nat (length q + 1))%Z = true)
      by (apply Z.ltb_lt; lia).
    rewrite E'. split; [reflexivity |].
    destruct q as [| a q']; simpl in *; [lia |].
    rewrite length_app; simpl; lia.
Qed.

(** A run of [moving_average] calls keeps the last [K] samples. *)
Lemma moving_average_fold (K : nat) (l : list rows) :
  (1 <= K)%nat ->
  forall q : list rows,
    (length q <= K)%nat ->
    fold_left (fun q v => snd (moving_average v q (Z.of_nat K))) l q
    = lastn K (q ++ l).
Proof.
  intros HK. induction l as [| v l IH]; intros q Hq.
  - simpl. rewrite app_nil_r, lastn_short by exact Hq. reflexivity.
  - cbn [fold_left].
    destruct (moving_average_queue K v q HK Hq) as [Heq Hlen].
    rewrite IH by exact Hlen. rewrite Heq.
    destruct (Nat.ltb (length q) K) eqn:E.
    + rewrite <- app_assoc. reflexivity.
    + apply Nat.ltb_ge in E.
      destruct q as [| a q']; [simpl in E; lia |].
      simpl tl. rewrite <- app_assoc. simpl app.
      rewrite lastn_cons_ge; [reflexivity |].
      rewrite length_app; simpl in *; lia.
Qed.

(** ** A pass that has a sample *)

Lemma same_config_refl (s : Self) : same_config s s.
Proof. unfold same_config. repeat split. Qed.

Lemma same_config_trans (s1 s2 s3 : Self) :
  same_config s1 s2 -> same_config s2 s3 -> same_config s1 s3.
Proof.
  unfold same_config.
  intros (a1 & a2 & a3 & a4 & a5 & a6 & a7 & a8 & a9 & a10)
         (b1 & b2 & b3 & b4 & b5 & b6 & b7 & b8 & b9 & b10).
  repeat split; congruence.
Qed.

Lemma tick_sample_same_config (robots : Robots) (s s' : Self) (env : TickEnv) :
  same_config s s' -> tick_sample robots s' env = tick_sample robots s env.
Proof.
  destruct s, s'. unfold same_config; simpl.
  intros (a1 & a2 & a3 & a4 & a5 & a6 & a7 & a8 & a9 & a10). subst.
  reflexivity.
Qed.

Lemma save_data_no_warning (l : KeypointLogger.t) (env : KeypointLogger.Env) :
  filter is_warning (snd (KeypointLogger.save_data l env)) = [].
Proof.
  unfold KeypointLogger.save_data.
  destruct (_ =? _)%Z; [reflexivity |].
  destruct (KeypointLogger.write_ok env); reflexivity.
Qed.

Lemma log_frame_no_warning (l : KeypointLogger.t) (env : KeypointLogger.Env)
    (k : ndarray) (cf : rows) :
  filter is_warning (snd (fst (KeypointLogger.log_frame l env k cf))) = [].
Proof.
  unfold KeypointLogger.log_frame.
  destruct (rbind _ _) as [fd | e]; [| reflexivity].
  cbv zeta.
  destruct (_ =? 0)%Z; [reflexivity |].
  destruct (_ =? 0)%Z; [| reflexivity].
  pose proof (save_data_no_warning
    (KeypointLogger.set_frame_counter
       (KeypointLogger.set_logged_data l (KeypointLogger.logged_data l ++ [fd]))
       (KeypointLogger.frame_counter
          (KeypointLogger.set_logged_data l (KeypointLogger.logged_data l ++ [fd])) + 1))
    env) as H.
  destruct (KeypointLogger.save_data _ env) as [l' evs]. simpl in *.
  rewrite filter_app, H. reflexivity.
Qed.

Ltac tick_fields :=
  split; [reflexivity |];
  split; [reflexivity |];
  split; [unfold same_config; repeat split |];
  split; [reflexivity |];
  split; [| split].

(** What a pass with a sample does: the sample goes through
    [moving_average] into both windows; the smoothed keypoints are the mean
    of the new keypoint window; no warning is logged; and when the pass
    returns, the record published on both topics carries that mean and the
    re-orthogonalised mean of the new frame window. *)
Lemma stream_iteration_sample (robots : Robots) (self : Self) (env : TickEnv)
    (tk cf : rows) :
  tick_sample robots self env = Some (tk, cf) ->
  let K := moving_average_limit self in
  let cq := snd (moving_average tk (coord_moving_average_queue self) K) in
  let fq := snd (moving_average cf (frame_moving_average_queue self) K) in
  exists self' evs r,
    stream_iteration robots self env = (self', evs, r) /\
    coord_moving_average_queue self' = cq /\
    frame_moving_average_queue self' = fq /\
    same_config self self' /\
    averaged_keypoints self' = Some (np_mean cq) /\
    filter is_warning evs = [] /\
    (r = inl tt ->
     exists frame data,
       reorthogonalize (np_mean fq) = inl frame /\
       averaged_coordinate_frame self' = Some (Rows frame) /\
       keypoints data = np_mean cq /\
       frame_vectors data = frame /\
       In (Publish (coords_topic self) data) evs /\
       In (Publish (frame_topic self) data) evs) /\
    (keypoint_logger self = None ->
     keypoint_logger self' = None /\
     forall frame, reorthogonalize (np_mean fq) = inl frame -> r = inl tt).
Proof.
  intros H K cq fq.
  unfold tick_sample in H.
  destruct (_get_hand_coords robots self (received env))
    as [[[dt hc] |] | e] eqn:Hg; try discriminate.
  destruct (transform_keypoints robots self hc) as [s | e] eqn:Ht;
    [| discriminate].
  injection H as ->.
  unfold stream_iteration. rewrite Hg, Ht.
  unfold moving_average at 1 2. cbv zeta.
  fold K.
  change (if (K <? Z.of_nat (length (coord_moving_average_queue self ++ [tk])))%Z
          then tl (coord_moving_average_queue self ++ [tk])
          else coord_moving_average_queue self ++ [tk]) with cq.
  change (if (K <? Z.of_nat (length (frame_moving_average_queue self ++ [cf])))%Z
          then tl (frame_moving_average_queue self ++ [cf])
          else frame_moving_average_queue self ++ [cf]) with fq.
  destruct (reorthogonalize (np_mean fq)) as [frame | e] eqn:Hr.
  - unfold _log_frame.
    change (keypoint_logger
              (set_queues
                 (set_queues self cq fq (Some (np_mean cq)) (Some (np_mean fq)))
                 cq fq (Some (np_mean cq)) (Some (Rows frame))))
      with (keypoint_logger self).
    destruct (keypoint_logger self) as [l |] eqn:Hl.
    + pose proof (log_frame_no_warning l (log_env env) (np_mean cq) frame) as Hw.
      destruct (KeypointLogger.log_frame l (log_env env) (np_mean cq) frame)
        as [[l' evs] r]. simpl in Hw.
      destruct r as [[] | e].
      * do 3 eexists. split; [reflexivity |]. tick_fields.
        { simpl. rewrite filter_app, Hw. reflexivity. }
        { intros _.
          exists frame, (mkInputFrame (now env) (hand_side self) (np_mean cq)
                           (String.eqb dt (relative_mode self)) frame).
          repeat (split; [reflexivity |]).
          split; [cbn [app In]; right; left; reflexivity |].
          cbn [app In]. right. right. apply in_or_app. right. left. reflexivity. }
        { discriminate. }
      * do 3 eexists. split; [reflexivity |]. tick_fields.
        { simpl. exact Hw. }
        { discriminate. }
        { discriminate. }
    + do 3 eexists. split; [reflexivity |]. tick_fields.
      { reflexivity. }
      { intros _.
        exists frame, (mkInputFrame (now env) (hand_side self) (np_mean cq)
                         (String.eqb dt (relative_mode self)) frame).
        repeat (split; [reflexivity |]).
        split; cbn [app In];
          [right; left; reflexivity | right; right; left; reflexivity]. }
      { intros _. split; reflexivity. }
  - do 3 eexists. split; [reflexivity |]. tick_fields.
    { reflexivity. }
    { discriminate. }
    { intros Hl. split; [exact Hl | discriminate]. }
Qed.

(** ** Runs of passes *)

Lemma stream_iteration_no_sample (robots : Robots) (self self' : Self)
    (env : TickEnv) (evs : list event) :
  tick_sample robots self env = None ->
  stream_iteration robots self env = (self', evs, inl tt) ->
  self' = self.
Proof.
  unfold tick_sample, stream_iteration.
  destruct (_get_hand_coords robots self (received env))
    as [[[dt hc] |] | e]; intros H E; unfold raise, ret in *.
  - destruct (transform_keypoints robots self hc) as [s | e];
      [discriminate H | discriminate E].
  - injection E as <- _. reflexivity.
  - discriminate E.
Qed.

Lemma samples_same_config (robots : Robots) (s s' : Self) (envs : list TickEnv) :
  same_config s s' -> samples robots s' envs = samples robots s envs.
Proof.
  intros H. unfold samples. induction envs as [| env envs IH]; [reflexivity |].
  simpl. rewrite IH, (tick_sample_same_config robots s s' env H). reflexivity.
Qed.

(** A run that no exception ends feeds its samples, in order, through
    [moving_average] into the two windows, and leaves the smoothed outputs
    equal to the means of the windows. *)
Lemma stream_windows (robots : Robots) (envs : list TickEnv) :
  forall (self self' : Self) (evs : list event),
    stream robots self envs = (self', evs, None) ->
    let K := moving_average_limit self in
    let push := fun (q : list rows) (v : rows) => snd (moving_average v q K) in
    same_config self self' /\
    coord_moving_average_queue self'
    = fold_left push (map fst (samples robots self envs))
        (coord_moving_average_queue self) /\
    frame_moving_average_queue self'
    = fold_left push (map snd (samples robots self envs))
        (frame_moving_average_queue self) /\
    (outputs_are_means self \/ samples robots self envs <> [] ->
     outputs_are_means self').
Proof.
  induction envs as [| env envs IH]; intros self self' evs H K push.
  - simpl in H. injection H as <- _.
    split; [apply same_config_refl |].
    split; [reflexivity |]. split; [reflexivity |].
    intros [Ho | Hne]; [exact Ho | contradiction Hne; reflexivity].
  - cbn [stream] in H.
    destruct (stream_iteration robots self env) as [[s1 evs1] r1] eqn:E1.
    destruct r1 as [[] | e]; [| discriminate H].
    destruct (stream robots s1 envs) as [[s2 evs2] r2] eqn:E2.
    injection H as -> _ ->.
    specialize (IH s1 self' evs2 E2). cbv zeta in IH.
    destruct IH as (Hc & Hcq & Hfq & Hout).
    unfold samples; cbn [flat_map]. fold (samples robots self envs).
    destruct (tick_sample robots self env) as [[tk cf] |] eqn:Hs.
    + destruct (stream_iteration_sample robots self env tk cf Hs)
        as (s1' & evs1' & r1' & E1' & Hq1 & Hq2 & Hc1 & Hak & _ & Hpub & _).
      rewrite E1 in E1'. injection E1' as <- <- <-.
      assert (HK : moving_average_limit s1 = K) by apply Hc1.
      rewrite (samples_same_config robots self s1 envs Hc1) in Hcq, Hfq, Hout.
      rewrite HK in Hcq, Hfq.
      split; [exact (same_config_trans _ _ _ Hc1 Hc) |].
      split; [rewrite Hcq, Hq1; reflexivity |].
      split; [rewrite Hfq, Hq2; reflexivity |].
      intros _. apply Hout. left.
      destruct (Hpub eq_refl) as (frame & data & Hr & Haf & _).
      unfold outputs_are_means. rewrite Hak, Hq1, Hq2.
      split; [reflexivity |]. exists frame. split; assumption.
    + pose proof (stream_iteration_no_sample robots self s1 env evs1 Hs E1) as ->.
      split; [exact Hc |]. split; [exact Hcq |]. split; [exact Hfq |].
      simpl app. exact Hout.
Qed.

(** C4.  From empty windows and a moving-average limit [K] of at least one,
    a run of passes that no exception ends leaves in each of the two windows
    the last [K] of the samples the passes produced, oldest first: never
    more than [K] of them, exactly [K] once more than [K] samples were
    produced; and the smoothed outputs then held are the means over these
    windows, the frame re-orthogonalised after its mean was taken. *)
Theorem stream_sliding_windows (robots : Robots) (self self' : Self)
    (envs : list TickEnv) (evs : list event) (K : nat) :
  moving_average_limit self = Z.of_nat K ->
  (1 <= K)%nat ->
  coord_moving_average_queue self = [] ->
  frame_moving_average_queue self = [] ->
  stream robots self envs = (self', evs, None) ->
  let produced := samples robots self envs in
  coord_moving_average_queue self' = lastn K (map fst produced) /\
  frame_moving_average_queue self' = lastn K (map snd produced) /\
  (length (coord_moving_average_queue self') <= K)%nat /\
  (length (frame_moving_average_queue self') <= K)%nat /\
  ((K < length produced)%nat ->
   length (coord_moving_average_queue self') = K /\
   length (frame_moving_average_queue self') = K) /\
  (produced <> [] -> outputs_are_means self').
Proof.
  intros HK H1 Hcq Hfq Hrun produced.
  destruct (stream_windows robots envs self self' evs Hrun)
    as (_ & Hc & Hf & Hout).
  rewrite HK, Hcq in Hc. rewrite HK, Hfq in Hf.
  rewrite moving_average_fold in Hc, Hf by (simpl; lia).
  simpl app in Hc, Hf. fold produced in Hc, Hf, Hout.
  rewrite Hc, Hf, !length_lastn, !length_map.
  split; [reflexivity |]. split; [reflexivity |].
  split; [lia |]. split; [lia |]. split; [lia |].
  intros Hne. apply Hout. right. exact Hne.
Qed.

(** ** Non-finite samples in a window *)











(** With a limit of at least one the sample is in the window after the
    call. *)
Lemma moving_average_in (v : rows) (q : list rows) (K : Z) :
  (1 <= K)%Z -> In v (snd (moving_average v q K)).
Proof.
  intros HK. unfold moving_average; simpl snd.
  destruct (K <? _)%Z eqn:E.
  - apply Z.ltb_lt in E. rewrite length_app in E; simpl in E.
    destruct q as [| a q']; [simpl in E; lia |].
    simpl. apply in_or_app. right. left. reflexivity.
  - apply in_or_app. right. left. reflexivity.
Qed.

Lemma tick_sample_of_transform (robots : Robots) (self : Self) (env : TickEnv)
    (f : RecvFrame) (s : rows * rows) :
  received env = Some f ->
  length (recv_keypoints f) = OCULUS_NUM_KEYPOINTS robots ->
  transform_keypoints robots self (recv_keypoints f) = inl s ->
  tick_sample robots self env = Some s.
Proof.
  intros Hr Hn Ht. unfold tick_sample, _get_hand_coords.
  rewrite Hr. apply Nat.eqb_eq in Hn. rewrite Hn. unfold ret.
  rewrite Ht. reflexivity.
Qed.

(** ** Degenerate geometry *)






(** ** Runs without a logger return *)

Lemma hand_dir_frame_rows (robots : Robots) (self : Self)
    (hand_coords : list vec) (cf : rows) :
  _get_stable_hand_dir_frame robots self hand_coords = inl cf ->
  length cf = 4%nat.
Proof.
  intros H.
  destruct (landmark_vectors self hand_coords) as [l |] eqn:Hl.
  - destruct (hand_dir_frame_of_landmarks robots self hand_coords l Hl)
      as (x & y & z & Hh).
    rewrite Hh in H. injection H as <-. reflexivity.
  - unfold _get_stable_hand_dir_frame in H. rewrite Hl in H. discriminate H.
Qed.

Lemma tick_sample_frame_rows (robots : Robots) (self : Self) (env : TickEnv)
    (tk cf : rows) :
  tick_sample robots self env = Some (tk, cf) -> length cf = 4%nat.
Proof.
  unfold tick_sample.
  destruct (_get_hand_coords robots self (received env))
    as [[[dt hc] |] |]; try discriminate.
  destruct (transform_keypoints robots self hc) as [s |] eqn:Ht;
    [| discriminate].
  intros H. injection H as ->.
  unfold transform_keypoints in Ht.
  destruct (getitem hc 0) as [w |]; [| discriminate Ht].
  unfold rbind at 1 in Ht.
  destruct (_get_stable_coord_frame self (translate hc w)) as [fr |];
    [| discriminate Ht].
  unfold rbind at 1 in Ht.
  destruct (linalg_solve_eye fr) as [m |]; [| discriminate Ht].
  unfold rbind at 1 in Ht.
  destruct (_get_stable_hand_dir_frame robots self hc) as [cf' |] eqn:Hh;
    [| discriminate Ht].
  unfold rbind, ret in Ht. injection Ht as _ <-.
  exact (hand_dir_frame_rows robots self hc cf' Hh).
Qed.

Lemma reorthogonalize_returns (q : list rows) :
  q <> [] -> Forall (fun s => length s = 4%nat) q ->
  exists frame, reorthogonalize (np_mean q) = inl frame.
Proof.
  intros Hne Hall. destruct q as [| a q']; [contradiction Hne; reflexivity |].
  inversion Hall as [| ? ? Ha _]; subst.
  unfold np_mean. rewrite Ha.
  set (f := fun i => vmean (column i (a :: q'))).
  change (map f (seq 0 4)) with [f 0%nat; f 1%nat; f 2%nat; f 3%nat].
  unfold reorthogonalize, ndarray_getitem.
  change (getitem [f 0%nat; f 1%nat; f 2%nat; f 3%nat] 0) with (@ret nvec (f 0%nat)).
  change (getitem [f 0%nat; f 1%nat; f 2%nat; f 3%nat] 1) with (@ret nvec (f 1%nat)).
  change (getitem [f 0%nat; f 1%nat; f 2%nat; f 3%nat] 2) with (@ret nvec (f 2%nat)).
  change (getitem [f 0%nat; f 1%nat; f 2%nat; f 3%nat] 3) with (@ret nvec (f 3%nat)).
  unfold rbind, ret.
  destruct (_orthogonalize_frame _ _ _) as [[x y] z]. eauto.
Qed.

Lemma moving_average_rows (v : rows) (q : list rows) (K : Z) (n : nat) :
  length v = n -> Forall (fun s => length s = n) q ->
  Forall (fun s => length s = n) (snd (moving_average v q K)).
Proof.
  intros Hv Hq. unfold moving_average; simpl snd.
  assert (H : Forall (fun s => length s = n) (q ++ [v])).
  { apply Forall_app. split; [exact Hq | constructor; [exact Hv | constructor]]. }
  destruct (K <? _)%Z; [| exact H].
  destruct (q ++ [v]); [constructor |].
  inversion H; assumption.
Qed.

(** Without a logger, with a limit of at least one and frames of four rows
    in the frame window, a run of passes that each receive nothing or have a
    sample returns: no exception ends it. *)
Lemma stream_returns (robots : Robots) (self0 : Self) (envs : list TickEnv) :
  (1 <= moving_average_limit self0)%Z ->
  Forall (fun env => received env = None \/
                     exists s, tick_sample robots self0 env = Some s) envs ->
  forall self : Self,
    same_config self0 self ->
    keypoint_logger self = None ->
    Forall (fun s => length s = 4%nat) (frame_moving_average_queue self) ->
    exists self' evs, stream robots self envs = (self', evs, None).
Proof.
  intros HK Henvs. induction Henvs as [| env envs Henv _ IH];
    intros self Hc Hl Hq.
  - do 2 eexists. reflexivity.
  - cbn [stream].
    destruct Henv as [Hnone | [[tk cf] Hs]].
    + assert (E : stream_iteration robots self env
                  = (self, [TimerStartLoop; TimerEndLoop], inl tt)).
      { unfold stream_iteration, _get_hand_coords. rewrite Hnone. reflexivity. }
      rewrite E. destruct (IH self Hc Hl Hq) as (s' & evs' & E').
      rewrite E'. eauto.
    + rewrite <- (tick_sample_same_config robots self0 self env Hc) in Hs.
      destruct (stream_iteration_sample robots self env tk cf Hs)
        as (s1 & evs1 & r1 & E & _ & Hfq & Hc1 & _ & _ & _ & Hret).
      destruct (Hret Hl) as [Hl1 Hr].
      assert (HK' : (1 <= moving_average_limit self)%Z).
      { replace (moving_average_limit self) with (moving_average_limit self0);
          [exact HK | symmetry; apply Hc]. }
      assert (Hq1 : Forall (fun s => length s = 4%nat)
                      (frame_moving_average_queue s1)).
      { rewrite Hfq. apply moving_average_rows;
          [exact (tick_sample_frame_rows robots self env tk cf Hs) | exact Hq]. }
      destruct (reorthogonalize_returns (frame_moving_average_queue s1))
        as [frame Hf]; [| exact Hq1 |].
      { pose proof (moving_average_in cf (frame_moving_average_queue self)
                      (moving_average_limit self) HK') as Hin.
        rewrite <- Hfq in Hin. intros E0. rewrite E0 in Hin. contradiction. }
      rewrite Hfq in Hf. rewrite (Hr frame Hf) in E. rewrite E.
      destruct (IH s1 (same_config_trans _ _ _ Hc Hc1) Hl1 Hq1)
        as (s' & evs' & E').
      rewrite E'. eauto.
Qed.

Lemma example_tick_sample :
  exists s, tick_sample example_robots example_self example_env_data = Some s.
Proof.
  destruct (transform_keypoints_finite example_robots example_self
              example_hand_coords example_wrist
              (mkvec (4/5) (-3/5) 0) (mkvec (3/5) (4/5) 0) e2
              eq_refl example_coord_frame)
    as (o & fx & fy & fz & _ & Ht).
  { rewrite (orthonormal_rh_det _ _ _ example_frame_orthonormal). lra. }
  eexists.
  apply (tick_sample_of_transform example_robots example_self example_env_data
           (mkRecvFrame example_hand_coords false));
    [reflexivity | reflexivity | exact Ht].
Qed.

Lemma example_run_returns :
  exists self' evs,
    stream example_robots example_self (repeat example_env_data 6)
    = (self', evs, None).
Proof.
  apply (stream_returns example_robots example_self (repeat example_env_data 6)).
  - simpl. lia.
  - cbn [repeat].
    repeat (apply Forall_cons; [right; exact example_tick_sample |]).
    apply Forall_nil.
  - apply same_config_refl.
  - reflexivity.
  - constructor.
Qed.

Lemma example_run_samples :
  length (samples example_robots example_self (repeat example_env_data 6)) = 6%nat.
Proof.
  destruct example_tick_sample as [s Hs].
  unfold samples. cbn [repeat flat_map]. rewrite Hs. reflexivity.
Qed.

Lemma stream_sliding_windows_witness :
  exists (self' : Self) (evs : list event),
    stream example_robots example_self (repeat example_env_data 6)
    = (self', evs, None) /\
    let produced :=
      samples example_robots example_self (repeat example_env_data 6) in
    length produced = 6%nat /\
    coord_moving_average_queue self' = lastn 5 (map fst produced) /\
    frame_moving_average_queue self' = lastn 5 (map snd produced) /\
    (length (coord_moving_average_queue self') <= 5)%nat /\
    (length (frame_moving_average_queue self') <= 5)%nat /\
    ((5 < length produced)%nat ->
     length (coord_moving_average_queue self') = 5%nat /\
     length (frame_moving_average_queue self') = 5%nat) /\
    (produced <> [] -> outputs_are_means self').
Proof.
  destruct example_run_returns as (self' & evs & Hrun).
  exists self', evs. split; [exact Hrun |].
  intros produced. split; [exact example_run_samples |].
  apply (stream_sliding_windows example_robots example_self self'
           (repeat example_env_data 6) evs 5).
  - reflexivity.
  - lia.
  - reflexivity.
  - reflexivity.
  - exact Hrun.
Defined.

(** ** The keypoint logger *)

Lemma lastn_zero {A : Type} (l : list A) : lastn 0 l = [].
Proof. unfold lastn. rewrite Nat.sub_0_r. apply skipn_all. Qed.

Lemma lastn_snoc {A : Type} (j : nat) (l : list A) (a : A) :
  (j <= length l)%nat -> lastn (S j) (l ++ [a]) = lastn j l ++ [a].
Proof.
  intros H. unfold lastn. rewrite length_app; simpl length.
  replace (length l + 1 - S j)%nat with (length l - j)%nat by lia.
  rewrite skipn_app.
  replace (length l - j - length l)%nat with 0%nat by lia.
  reflexivity.
Qed.

Lemma entries_from_app (i : nat) (a b : list (KeypointLogger.Env * ndarray * rows)) :
  entries_from i (a ++ b) = entries_from i a ++ entries_from (i + length a) b.
Proof.
  revert i. induction a as [| c a IH]; intros i; simpl.
  - rewrite Nat.add_0_r. reflexivity.
  - rewrite IH. replace (S i + length a)%nat with (i + S (length a))%nat by lia.
    reflexivity.
Qed.

Lemma length_entries_from (i : nat) (calls : list (KeypointLogger.Env * ndarray * rows)) :
  length (entries_from i calls) = length calls.
Proof.
  revert i. induction calls as [| c l IH]; intros i; simpl;
    [reflexivity | rewrite IH; reflexivity].
Qed.

Lemma frame_ids_entries_from (i : nat)
    (calls : list (KeypointLogger.Env * ndarray * rows)) :
  map KeypointLogger.frame_id (entries_from i calls)
  = map Z.of_nat (seq i (length calls)).
Proof.
  revert i. induction calls as [| [[env k] cf] l IH]; intros i; simpl;
    [reflexivity | rewrite IH; reflexivity].
Qed.

Lemma log_frames_app (s : KeypointLogger.t)
    (a b : list (KeypointLogger.Env * ndarray * rows)) :
  KeypointLogger.log_frames s (a ++ b)
  = match KeypointLogger.log_frames s a with
    | (s', None) => KeypointLogger.log_frames s' b
    | (s', Some e) => (s', Some e)
    end.
Proof.
  revert s. induction a as [| [[env k] cf] a IH]; intros s; simpl;
    [reflexivity |].
  destruct (KeypointLogger.log_frame s env k cf) as [[s' evs] [[] | e]];
    [apply IH | reflexivity].
Qed.

Lemma getitem_four {A : Type} (l : list A) (d : A) :
  length l = 4%nat ->
  getitem l 0 = inl (nth 0 l d) /\ getitem l 1 = inl (nth 1 l d) /\
  getitem l 2 = inl (nth 2 l d) /\ getitem l 3 = inl (nth 3 l d).
Proof.
  intros H.
  destruct l as [| a [| b [| c [| e [| ? ?]]]]]; try discriminate H.
  repeat split; reflexivity.
Qed.

Lemma mod_succ (n M : Z) :
  (0 < M)%Z -> (0 <= n)%Z ->
  ((n + 1) mod M = 0 /\ n mod M = M - 1)%Z \/
  ((n + 1) mod M = n mod M + 1 /\ (n + 1) mod M <> 0)%Z.
Proof.
  intros HM Hn.
  pose proof (Z.mod_pos_bound n M HM) as Hb.
  destruct (Z.eq_dec (n mod M) (M - 1)) as [E | E].
  - left. split; [| exact E].
    rewrite <- Z.add_mod_idemp_l by lia. rewrite E.
    replace (M - 1 + 1)%Z with (1 * M)%Z by ring.
    apply Z.mod_mul. lia.
  - right.
    assert (H : ((n + 1) mod M = n mod M + 1)%Z).
    { rewrite <- Z.add_mod_idemp_l by lia.
      apply Z.mod_small. lia. }
    split; [exact H | lia].
Qed.

(** One call of [log_frame] with a frame of four rows, on a logger that has
    taken [n] calls and holds the last [n mod M] entries. *)
Lemma log_frame_step (s : KeypointLogger.t) (M : Z) (n : nat)
    (all : list KeypointLogger.FrameData)
    (env : KeypointLogger.Env) (k : ndarray) (cf : rows) :
  (0 < M)%Z ->
  KeypointLogger.auto_save_interval s = M ->
  KeypointLogger.frame_counter s = Z.of_nat n ->
  length all = n ->
  KeypointLogger.logged_data s = lastn (Z.to_nat (Z.of_nat n mod M)) all ->
  length cf = 4%nat ->
  let e := entry_of n (env, k, cf) in
  exists s' evs,
    KeypointLogger.log_frame s env k cf = (s', evs, inl tt) /\
    KeypointLogger.hand_side s' = KeypointLogger.hand_side s /\
    KeypointLogger.auto_save_interval s' = M /\
    KeypointLogger.moving_average_limit s' = KeypointLogger.moving_average_limit s /\
    KeypointLogger.frame_counter s' = Z.of_nat (S n) /\
    KeypointLogger.logged_data s'
    = lastn (Z.to_nat (Z.of_nat (S n) mod M)) (all ++ [e]) /\
    ((Z.of_nat (S n) mod M = 0)%Z -> KeypointLogger.write_ok env = true ->
     KeypointLogger.log_file s'
     = KeypointLogger.Saved
         (KeypointLogger.mkDocument (KeypointLogger.hand_side s) M
            (lastn (Z.to_nat M) (all ++ [e]))
            (KeypointLogger.datetime_now env)
            (KeypointLogger.moving_average_limit s))).
Proof.
  intros HM Hi Hc Hlen Hd Hcf e.
  destruct (getitem_four cf None Hcf) as (G0 & G1 & G2 & G3).
  unfold KeypointLogger.log_frame. rewrite G0, G1, G2, G3.
  unfold rbind, ret. cbv zeta.
  cbn [KeypointLogger.auto_save_interval KeypointLogger.frame_counter
       KeypointLogger.logged_data KeypointLogger.set_logged_data
       KeypointLogger.set_frame_counter].
  rewrite Hi, Hc.
  change (KeypointLogger.mkFrameData (Z.of_nat n) (KeypointLogger.time_time env) k
            (nth 0 cf None) (nth 1 cf None) (nth 2 cf None) (nth 3 cf None))
    with e.
  assert (E0 : (M =? 0)%Z = false) by (apply Z.eqb_neq; lia).
  rewrite E0.
  pose proof (Z.mod_pos_bound (Z.of_nat n) M HM) as Hb.
  assert (Hj : (Z.to_nat (Z.of_nat n mod M) <= length all)%nat).
  { rewrite Hlen. pose proof (Z.mod_le (Z.of_nat n) M ltac:(lia) HM). lia. }
  replace (Z.of_nat (S n)) with (Z.of_nat n + 1)%Z by lia.
  destruct (mod_succ (Z.of_nat n) M HM ltac:(lia)) as [[E1 E2] | [E1 E2]].
  - rewrite E1. change (0 =? 0)%Z with true. cbv iota.
    assert (HL : KeypointLogger.logged_data s ++ [e]
                 = lastn (Z.to_nat M) (all ++ [e])).
    { rewrite Hd. replace (Z.to_nat M) with (S (Z.to_nat (Z.of_nat n mod M)))
        by lia.
      symmetry. apply lastn_snoc, Hj. }
    unfold KeypointLogger.save_data.
    cbn [KeypointLogger.logged_data KeypointLogger.hand_side
         KeypointLogger.moving_average_limit KeypointLogger.set_logged_data
         KeypointLogger.set_frame_counter].
    assert (HLen : Z.of_nat (length (KeypointLogger.logged_data s ++ [e])) = M).
    { rewrite HL, length_lastn, length_app, Hlen. simpl length. lia. }
    rewrite HLen.
    assert (EM : (M =? 0)%Z = false) by exact E0. rewrite EM.
    destruct (KeypointLogger.write_ok env) eqn:Hw.
    + do 2 eexists. split; [reflexivity |].
      split; [reflexivity |]. split; [exact Hi |].
      split; [reflexivity |]. split; [reflexivity |].
      split; [change (Z.to_nat 0) with 0%nat; rewrite lastn_zero; reflexivity |].
      intros _ _. simpl. rewrite HL. reflexivity.
    + do 2 eexists. split; [reflexivity |].
      split; [reflexivity |]. split; [exact Hi |].
      split; [reflexivity |]. split; [reflexivity |].
      split; [change (Z.to_nat 0) with 0%nat; rewrite lastn_zero; reflexivity |].
      intros _ H. discriminate H.
  - apply Z.eqb_neq in E2. rewrite E2.
    do 2 eexists. split; [reflexivity |].
    split; [reflexivity |]. split; [exact Hi |].
    split; [reflexivity |]. split; [reflexivity |].
    split.
    + cbn [KeypointLogger.logged_data KeypointLogger.set_logged_data
           KeypointLogger.set_frame_counter]. rewrite E1, Hd.
      replace (Z.to_nat (Z.of_nat n mod M + 1))
        with (S (Z.to_nat (Z.of_nat n mod M))) by lia.
      symmetry. apply lastn_snoc, Hj.
    + intros H. apply Z.eqb_neq in E2. contradiction.
Qed.

(** A run of [log_frame] calls on a fresh logger with a positive interval
    [M], every call with a frame of four rows. *)
Lemma log_frames_run (hs dir : string) (M K : Z)
    (calls : list (KeypointLogger.Env * ndarray * rows)) :
  (0 < M)%Z ->
  Forall (fun c => length (snd c) = 4%nat) calls ->
  exists s,
    KeypointLogger.log_frames (KeypointLogger.fresh hs dir M K) calls = (s, None) /\
    KeypointLogger.hand_side s = hs /\
    KeypointLogger.auto_save_interval s = M /\
    KeypointLogger.moving_average_limit s = K /\
    KeypointLogger.frame_counter s = Z.of_nat (length calls) /\
    KeypointLogger.logged_data s
    = lastn (Z.to_nat (Z.of_nat (length calls) mod M)) (entries_from 0 calls) /\
    (forall pre env k cf,
       calls = pre ++ [(env, k, cf)] ->
       (Z.of_nat (length calls) mod M = 0)%Z ->
       KeypointLogger.write_ok env = true ->
       KeypointLogger.log_file s
       = KeypointLogger.Saved
           (KeypointLogger.mkDocument hs M
              (lastn (Z.to_nat M) (entries_from 0 calls))
              (KeypointLogger.datetime_now env) K)).
Proof.
  intros HM. induction calls as [| c pre IH] using rev_ind; intros Hwf.
  - eexists. split; [reflexivity |].
    split; [reflexivity |]. split; [reflexivity |].
    split; [reflexivity |]. split; [reflexivity |].
    split.
    + simpl. unfold lastn. rewrite skipn_nil. reflexivity.
    + intros pre env k cf H. destruct pre; discriminate H.
  - apply Forall_app in Hwf. destruct Hwf as [Hpre Hc].
    inversion Hc as [| ? ? Hc4 _]; subst.
    destruct (IH Hpre) as (s & Hrun & Hhs & Hi & Hk & Hcnt & Hd & _).
    destruct c as [[env k] cf]. simpl snd in Hc4.
    destruct (log_frame_step s M (length pre) (entries_from 0 pre) env k cf
                HM Hi Hcnt (length_entries_from 0 pre) Hd Hc4)
      as (s' & evs & Hstep & Hhs' & Hi' & Hk' & Hcnt' & Hd' & Hfile).
    assert (Hlen : length (pre ++ [(env, k, cf)]) = S (length pre))
      by (rewrite length_app; simpl; lia).
    assert (Hall : entries_from 0 (pre ++ [(env, k, cf)])
                   = entries_from 0 pre ++ [entry_of (length pre) (env, k, cf)])
      by (rewrite entries_from_app; reflexivity).
    exists s'. rewrite log_frames_app, Hrun. cbn [KeypointLogger.log_frames].
    rewrite Hstep, Hlen, Hall.
    split; [reflexivity |].
    split; [rewrite Hhs'; exact Hhs |].
    split; [exact Hi' |].
    split; [rewrite Hk'; exact Hk |].
    split; [exact Hcnt' |].
    split; [exact Hd' |].
    intros pre' env' k' cf' Heq Hmod Hw.
    apply app_inj_tail in Heq. destruct Heq as [_ Heq].
    injection Heq as <- <- <-.
    rewrite (Hfile Hmod Hw), Hhs, Hk. reflexivity.
Qed.

Lemma lastn_map {A B : Type} (f : A -> B) (k : nat) (l : list A) :
  map f (lastn k l) = lastn k (map f l).
Proof. unfold lastn. rewrite length_map, skipn_map. reflexivity. Qed.

Lemma lastn_seq (k n : nat) :
  (k <= n)%nat -> lastn k (seq 0 n) = seq (n - k) k.
Proof.
  intros H. unfold lastn. rewrite length_seq, skipn_seq.
  f_equal; lia.
Qed.

(** C10.  On a fresh logger with a positive auto-save interval [M], after
    any run of [log_frame] calls (frames of four rows): no call has raised,
    the counter is the number [n] of calls and the buffer holds the last
    [n mod M] entries, fewer than [M]; the entries carry the frame ids
    0, 1, ..., n-1 in order; and when [n] is a multiple of [M] and the write
    of the last call went through, the buffer is empty and the one log file
    holds the document of that save alone: its [total_frames] is [M] and
    its frames are the last [M] entries, with ids n-M, ..., n-1. *)
Theorem log_frames_auto_save (hs dir : string) (M K : Z)
    (calls : list (KeypointLogger.Env * ndarray * rows)) :
  (0 < M)%Z ->
  Forall (fun c => length (snd c) = 4%nat) calls ->
  let n := length calls in
  let all := entries_from 0 calls in
  exists s,
    KeypointLogger.log_frames (KeypointLogger.fresh hs dir M K) calls = (s, None) /\
    KeypointLogger.frame_counter s = Z.of_nat n /\
    KeypointLogger.logged_data s = lastn (Z.to_nat (Z.of_nat n mod M)) all /\
    Z.of_nat (length (KeypointLogger.logged_data s)) = (Z.of_nat n mod M)%Z /\
    (Z.of_nat (length (KeypointLogger.logged_data s)) <= M)%Z /\
    map KeypointLogger.frame_id all = map Z.of_nat (seq 0 n) /\
    (forall pre env k cf,
       calls = pre ++ [(env, k, cf)] ->
       (Z.of_nat n mod M = 0)%Z ->
       KeypointLogger.write_ok env = true ->
       KeypointLogger.logged_data s = [] /\
       exists doc,
         KeypointLogger.log_file s = KeypointLogger.Saved doc /\
         KeypointLogger.doc_hand_side doc = hs /\
         KeypointLogger.total_frames doc = M /\
         KeypointLogger.frames doc = lastn (Z.to_nat M) all /\
         map KeypointLogger.frame_id (KeypointLogger.frames doc)
         = map Z.of_nat (seq (n - Z.to_nat M) (Z.to_nat M))).
Proof.
  intros HM Hwf n all.
  destruct (log_frames_run hs dir M K calls HM Hwf)
    as (s & Hrun & _ & _ & _ & Hcnt & Hd & Hfile).
  fold n in Hcnt, Hd, Hfile. fold all in Hd, Hfile.
  pose proof (Z.mod_pos_bound (Z.of_nat n) M HM) as Hb.
  pose proof (Z.mod_le (Z.of_nat n) M ltac:(lia) HM) as Hle.
  assert (Hall : length all = n) by apply length_entries_from.
  assert (Hlen : Z.of_nat (length (KeypointLogger.logged_data s))
                 = (Z.of_nat n mod M)%Z).
  { rewrite Hd, length_lastn, Hall. lia. }
  exists s.
  split; [exact Hrun |]. split; [exact Hcnt |]. split; [exact Hd |].
  split; [exact Hlen |]. split; [lia |].
  split; [apply frame_ids_entries_from |].
  intros pre env k cf Heq Hmod Hw.
  split.
  - rewrite Hd, Hmod. apply lastn_zero.
  - eexists. split; [exact (Hfile pre env k cf Heq Hmod Hw) |].
    cbn [KeypointLogger.doc_hand_side KeypointLogger.total_frames
         KeypointLogger.frames].
    split; [reflexivity |]. split; [reflexivity |]. split; [reflexivity |].
    assert (Hn : (1 <= n)%nat).
    { unfold n. rewrite Heq, length_app. simpl. lia. }
    assert (HMn : (Z.to_nat M <= n)%nat).
    { destruct (Z_lt_le_dec (Z.of_nat n) M) as [Hlt | Hge]; [| lia].
      rewrite Z.mod_small in Hmod by lia. lia. }
    rewrite lastn_map. unfold all. rewrite frame_ids_entries_from.
    fold n. rewrite <- lastn_map, lastn_seq by exact HMn. reflexivity.
Qed.

Lemma log_frames_auto_save_witness :
  let calls := [example_call; example_call; example_call; example_call] in
  let all := entries_from 0 calls in
  exists s,
    KeypointLogger.log_frames (KeypointLogger.fresh "right" example_log_dir 2 5) calls
    = (s, None) /\
    KeypointLogger.frame_counter s = 4%Z /\
    KeypointLogger.logged_data s = [] /\
    exists doc,
      KeypointLogger.log_file s = KeypointLogger.Saved doc /\
      KeypointLogger.total_frames doc = 2%Z /\
      map KeypointLogger.frame_id (KeypointLogger.frames doc) = [2%Z; 3%Z].
Proof.
  intros calls all.
  destruct (log_frames_auto_save "right" example_log_dir 2 5 calls) as
    (s & Hrun & Hcnt & _ & _ & _ & _ & Hlast).
  - lia.
  - repeat (apply Forall_cons; [reflexivity |]). apply Forall_nil.
  - destruct (Hlast [example_call; example_call; example_call]
                example_log_env (Rows [Some example_wrist])
                [Some example_wrist; Some e0; Some e1; Some e2]
                eq_refl eq_refl eq_refl)
      as (Hbuf & doc & Hfile & _ & Htot & _ & Hids).
    exists s. split; [exact Hrun |]. split; [exact Hcnt |].
    split; [exact Hbuf |].
    exists doc. split; [exact Hfile |]. split; [exact Htot |]. exact Hids.
Defined.

(** ** The logger at its edges *)

Lemma getitem_inr {A : Type} (l : list A) (i : Z) (e : exn) :
  getitem l i = inr e -> e = IndexError.
Proof.
  unfold getitem, raise, ret.
  destruct (_ && _)%bool.
  - destruct (nth_error l _); intros H; [discriminate H | injection H as <-; reflexivity].
  - intros H. injection H as <-. reflexivity.
Qed.

Lemma getitem_valid {A : Type} (l : list A) (i : Z) :
  valid_index l i -> exists a, getitem l i = inl a.
Proof. apply getitem_in_range. Qed.

Lemma getitem_invalid {A : Type} (l : list A) (i : Z) :
  ~ valid_index l i -> getitem l i = inr IndexError.
Proof.
  intros H. destruct (getitem l i) as [a | e] eqn:E.
  - exfalso. apply H. unfold valid_index. unfold getitem in E.
    set (n := Z.of_nat (length l)) in *.
    destruct (i <? 0)%Z eqn:Hi.
    + destruct ((0 <=? i + n)%Z && (i + n <? n)%Z)%bool eqn:Hb; [| discriminate E].
      apply andb_prop in Hb. destruct Hb as [H1 H2].
      apply Z.leb_le in H1. apply Z.ltb_lt in H2. lia.
    + destruct ((0 <=? i)%Z && (i <? n)%Z)%bool eqn:Hb; [| discriminate E].
      apply andb_prop in Hb. destruct Hb as [H1 H2].
      apply Z.leb_le in H1. apply Z.ltb_lt in H2. lia.
  - rewrite (getitem_inr l i e E). reflexivity.
Qed.

(** The first part of [log_frame]: building the entry reads rows 0 to 3. *)
Lemma log_frame_entry (l : KeypointLogger.t) (env : KeypointLogger.Env)
    (k : ndarray) (cf : rows) :
  length cf = 4%nat ->
  (o <- getitem cf 0 ;;
   x <- getitem cf 1 ;;
   y <- getitem cf 2 ;;
   z <- getitem cf 3 ;;
   ret (KeypointLogger.mkFrameData (KeypointLogger.frame_counter l)
          (KeypointLogger.time_time env) k o x y z))
  = inl (frame_data_of l env k cf).
Proof.
  intros H. destruct (getitem_four cf None H) as (G0 & G1 & G2 & G3).
  rewrite G0, G1, G2, G3. reflexivity.
Qed.

(** X1.  A frame of fewer than four rows makes [log_frame] raise
    [IndexError] while it builds the entry: nothing is appended, the counter
    is not incremented, nothing is saved and nothing is logged. *)
Theorem log_frame_short_frame (l : KeypointLogger.t) (env : KeypointLogger.Env)
    (k : ndarray) (cf : rows) :
  (length cf < 4)%nat ->
  KeypointLogger.log_frame l env k cf = (l, [], inr IndexError).
Proof.
  intros H. unfold KeypointLogger.log_frame.
  destruct cf as [| a [| b [| c [| d cf']]]]; try reflexivity.
  simpl in H. lia.
Qed.

Lemma log_frame_short_frame_witness :
  KeypointLogger.log_frame example_logger example_log_env NanScalar
    [Some example_wrist; Some e0; Some e1]
  = (example_logger, [], inr IndexError).
Proof.
  apply (log_frame_short_frame example_logger example_log_env NanScalar
           [Some example_wrist; Some e0; Some e1]).
  simpl. lia.
Defined.

(** X2.  With an auto-save interval of zero every call of [log_frame] on a
    frame of four rows raises [ZeroDivisionError], and it does so after the
    entry was appended and the counter incremented: the logger is left
    changed, the file untouched, nothing is logged. *)
Theorem log_frame_zero_interval (l : KeypointLogger.t) (env : KeypointLogger.Env)
    (k : ndarray) (cf : rows) :
  KeypointLogger.auto_save_interval l = 0%Z ->
  length cf = 4%nat ->
  exists l',
    KeypointLogger.log_frame l env k cf = (l', [], inr ZeroDivisionError) /\
    KeypointLogger.logged_data l'
    = KeypointLogger.logged_data l ++ [frame_data_of l env k cf] /\
    KeypointLogger.frame_counter l' = (KeypointLogger.frame_counter l + 1)%Z /\
    KeypointLogger.log_file l' = KeypointLogger.log_file l /\
    KeypointLogger.auto_save_interval l' = 0%Z.
Proof.
  intros HM Hcf. unfold KeypointLogger.log_frame.
  rewrite (log_frame_entry l env k cf Hcf). cbv zeta.
  cbn [KeypointLogger.auto_save_interval KeypointLogger.set_frame_counter
       KeypointLogger.set_logged_data].
  rewrite HM. change (0 =? 0)%Z with true. cbv iota.
  eexists. split; [reflexivity |].
  repeat split; cbn; try reflexivity. exact HM.
Qed.

Lemma log_frame_zero_interval_witness :
  exists l',
    KeypointLogger.log_frame (KeypointLogger.fresh "right" example_log_dir 0 5)
      example_log_env NanScalar example_frame
    = (l', [], inr ZeroDivisionError) /\
    KeypointLogger.logged_data l'
    = [frame_data_of (KeypointLogger.fresh "right" example_log_dir 0 5) example_log_env
         NanScalar example_frame] /\
    KeypointLogger.frame_counter l' = 1%Z.
Proof.
  destruct (log_frame_zero_interval (KeypointLogger.fresh "right" example_log_dir 0 5)
              example_log_env NanScalar example_frame eq_refl eq_refl)
    as (l' & H1 & H2 & H3 & _).
  exists l'. split; [exact H1 |]. split; [exact H2 | exact H3].
Defined.

(** One call of [log_frame] with a frame of four rows and an interval
    other than zero. *)
Lemma log_frame_nonzero (l : KeypointLogger.t) (env : KeypointLogger.Env)
    (k : ndarray) (cf : rows) :
  KeypointLogger.auto_save_interval l <> 0%Z ->
  length cf = 4%nat ->
  let e := frame_data_of l env k cf in
  let c := (KeypointLogger.frame_counter l + 1)%Z in
  let appended :=
    KeypointLogger.set_frame_counter
      (KeypointLogger.set_logged_data l (KeypointLogger.logged_data l ++ [e])) c in
  KeypointLogger.log_frame l env k cf
  = if (c mod KeypointLogger.auto_save_interval l =? 0)%Z
    then (KeypointLogger.set_logged_data
            (KeypointLogger.set_log_file appended
               (if KeypointLogger.write_ok env
                then KeypointLogger.Saved (document_of appended env)
                else KeypointLogger.Undetermined)) [],
          [LoggerCall (if KeypointLogger.write_ok env then INFO else ERROR);
           LoggerCall DEBUG],
          inl tt)
    else (appended, [], inl tt).
Proof.
  intros HM Hcf e c appended. unfold KeypointLogger.log_frame.
  rewrite (log_frame_entry l env k cf Hcf). cbv zeta. fold e.
  cbn [KeypointLogger.auto_save_interval KeypointLogger.set_frame_counter
       KeypointLogger.set_logged_data KeypointLogger.frame_counter].
  apply Z.eqb_neq in HM. rewrite HM. fold c.
  destruct (c mod KeypointLogger.auto_save_interval l =? 0)%Z; [| reflexivity].
  unfold KeypointLogger.save_data.
  match goal with
  | |- context [(Z.of_nat ?n =? 0)%Z] =>
      assert (E : (Z.of_nat n =? 0)%Z = false)
        by (apply Z.eqb_neq; cbn; rewrite length_app; simpl; lia)
  end.
  rewrite E.
  destruct (KeypointLogger.write_ok env); reflexivity.
Qed.

(** X3.  For every interval other than zero, a negative one included, a
    call of [log_frame] on a frame of four rows returns and increments the
    counter; it saves exactly when the new counter is a multiple of the
    interval: then the buffer with the new entry is written (or the failure
    logged) and the buffer is empty afterwards; otherwise the buffer has
    grown by the new entry, the file is as it was and nothing is logged. *)
Theorem log_frame_saves_on_multiples (l : KeypointLogger.t)
    (env : KeypointLogger.Env) (k : ndarray) (cf : rows) :
  KeypointLogger.auto_save_interval l <> 0%Z ->
  length cf = 4%nat ->
  exists l' evs,
    KeypointLogger.log_frame l env k cf = (l', evs, inl tt) /\
    KeypointLogger.frame_counter l' = (KeypointLogger.frame_counter l + 1)%Z /\
    KeypointLogger.auto_save_interval l' = KeypointLogger.auto_save_interval l /\
    (KeypointLogger.logged_data l' = []
     <-> (KeypointLogger.auto_save_interval l
          | KeypointLogger.frame_counter l + 1)%Z) /\
    (KeypointLogger.logged_data l' = [] ->
     evs = [LoggerCall (if KeypointLogger.write_ok env then INFO else ERROR);
            LoggerCall DEBUG] /\
     KeypointLogger.log_file l'
     = if KeypointLogger.write_ok env
       then KeypointLogger.Saved
              (document_of
                 (KeypointLogger.set_logged_data l
                    (KeypointLogger.logged_data l ++ [frame_data_of l env k cf]))
                 env)
       else KeypointLogger.Undetermined) /\
    (KeypointLogger.logged_data l' <> [] ->
     KeypointLogger.logged_data l'
     = KeypointLogger.logged_data l ++ [frame_data_of l env k cf] /\
     KeypointLogger.log_file l' = KeypointLogger.log_file l /\
     evs = []).
Proof.
  intros HM Hcf. rewrite (log_frame_nonzero l env k cf HM Hcf).
  destruct (_ =? 0)%Z eqn:E.
  - apply Z.eqb_eq in E. do 2 eexists. split; [reflexivity |].
    split; [reflexivity |]. split; [reflexivity |]. split; [| split].
    + split; [intros _; apply Z.mod_divide; assumption | reflexivity].
    + intros _. split; [reflexivity |].
      destruct (KeypointLogger.write_ok env); reflexivity.
    + intros H. contradiction H. reflexivity.
  - apply Z.eqb_neq in E.
    assert (Hne : KeypointLogger.logged_data l ++ [frame_data_of l env k cf] <> [])
      by (destruct (KeypointLogger.logged_data l); discriminate).
    do 2 eexists. split; [reflexivity |].
    split; [reflexivity |]. split; [reflexivity |]. split; [| split].
    + split.
      * intros H. contradiction (Hne H).
      * intros H. apply Z.mod_divide in H; [contradiction | assumption].
    + intros H. contradiction (Hne H).
    + intros _. repeat split; reflexivity.
Qed.

Lemma log_frame_saves_on_multiples_witness :
  exists l' evs,
    KeypointLogger.log_frame (KeypointLogger.fresh "right" example_log_dir (-1) 5)
      example_log_env NanScalar example_frame
    = (l', evs, inl tt) /\
    KeypointLogger.frame_counter l' = 1%Z /\
    KeypointLogger.logged_data l' = [].
Proof.
  destruct (log_frame_saves_on_multiples
              (KeypointLogger.fresh "right" example_log_dir (-1) 5)
              example_log_env NanScalar example_frame)
    as (l' & evs & H1 & H2 & _ & H3 & _).
  - simpl. lia.
  - reflexivity.
  - exists l', evs. split; [exact H1 |]. split; [exact H2 |].
    apply H3. exists (-1)%Z. reflexivity.
Defined.

(** X4.  An auto-save whose write fails loses the frames: when the new
    counter is a multiple of the interval and [open] or [json.dump] raises,
    [log_frame] logs the error, clears the buffer all the same and returns;
    the frames of the buffer are neither in the buffer nor in a written
    document, and a later [save_data] has nothing to save. *)
Theorem log_frame_failed_save_drops (l : KeypointLogger.t)
    (env env' : KeypointLogger.Env) (k : ndarray) (cf : rows) :
  KeypointLogger.auto_save_interval l <> 0%Z ->
  (KeypointLogger.auto_save_interval l | KeypointLogger.frame_counter l + 1)%Z ->
  length cf = 4%nat ->
  KeypointLogger.write_ok env = false ->
  exists l',
    KeypointLogger.log_frame l env k cf
    = (l', [LoggerCall ERROR; LoggerCall DEBUG], inl tt) /\
    KeypointLogger.logged_data l' = [] /\
    KeypointLogger.log_file l' = KeypointLogger.Undetermined /\
    KeypointLogger.frame_counter l' = (KeypointLogger.frame_counter l + 1)%Z /\
    KeypointLogger.save_data l' env' = (l', []).
Proof.
  intros HM Hdiv Hcf Hw. rewrite (log_frame_nonzero l env k cf HM Hcf).
  apply Z.mod_divide in Hdiv; [| exact HM].
  rewrite Hdiv, Hw. change (0 =? 0)%Z with true. cbv iota.
  eexists. split; [reflexivity |]. repeat split; reflexivity.
Qed.

Lemma log_frame_failed_save_drops_witness :
  exists l',
    KeypointLogger.log_frame (KeypointLogger.fresh "right" example_log_dir 1 5)
      example_log_env_fail NanScalar example_frame
    = (l', [LoggerCall ERROR; LoggerCall DEBUG], inl tt) /\
    KeypointLogger.logged_data l' = [] /\
    KeypointLogger.log_file l' = KeypointLogger.Undetermined.
Proof.
  destruct (log_frame_failed_save_drops (KeypointLogger.fresh "right" example_log_dir 1 5)
              example_log_env_fail example_log_env NanScalar example_frame)
    as (l' & H1 & H2 & H3 & _).
  - simpl. lia.
  - exists 1%Z. reflexivity.
  - reflexivity.
  - reflexivity.
  - exists l'. split; [exact H1 |]. split; [exact H2 | exact H3].
Defined.

(** ** [cleanup] *)

Lemma save_data_keeps (l : KeypointLogger.t) (env : KeypointLogger.Env) :
  let l' := fst (KeypointLogger.save_data l env) in
  KeypointLogger.logged_data l' = KeypointLogger.logged_data l /\
  KeypointLogger.frame_counter l' = KeypointLogger.frame_counter l /\
  KeypointLogger.hand_side l' = KeypointLogger.hand_side l /\
  KeypointLogger.auto_save_interval l' = KeypointLogger.auto_save_interval l /\
  KeypointLogger.moving_average_limit l' = KeypointLogger.moving_average_limit l.
Proof.
  unfold KeypointLogger.save_data.
  destruct (_ =? 0)%Z; [repeat split |].
  destruct (KeypointLogger.write_ok env); repeat split.
Qed.

(** [save_data] on a buffer that holds frames. *)
Lemma save_data_nonempty (l : KeypointLogger.t) (env : KeypointLogger.Env) :
  KeypointLogger.logged_data l <> [] ->
  KeypointLogger.save_data l env
  = if KeypointLogger.write_ok env
    then (KeypointLogger.set_log_file l (KeypointLogger.Saved (document_of l env)),
          [LoggerCall INFO])
    else (KeypointLogger.set_log_file l KeypointLogger.Undetermined,
          [LoggerCall ERROR]).
Proof.
  intros H. unfold KeypointLogger.save_data.
  assert (E : (Z.of_nat (length (KeypointLogger.logged_data l)) =? 0)%Z = false).
  { apply Z.eqb_neq. destruct (KeypointLogger.logged_data l);
      [contradiction H; reflexivity | simpl; lia]. }
  rewrite E. reflexivity.
Qed.

Lemma save_data_empty (l : KeypointLogger.t) (env : KeypointLogger.Env) :
  KeypointLogger.logged_data l = [] -> KeypointLogger.save_data l env = (l, []).
Proof. intros H. unfold KeypointLogger.save_data. rewrite H. reflexivity. Qed.

(** X5.  [cleanup] after a run of [log_frame] calls (fresh logger, positive
    interval [M], frames of four rows) writes what the buffer holds: the
    last [n mod M] entries.  When [n mod M] is not zero and the write goes
    through, the file holds these entries alone, the frames of the earlier
    auto-saves are overwritten; when [n] is a multiple of [M] nothing is
    written and the logger is as it was.  The buffer and the counter are
    kept, and in every case the subscriber is stopped and the ZMQ resources
    are released last. *)
Theorem cleanup_flushes_remainder (self : Self) (hs dir : string) (M K : Z)
    (calls : list (KeypointLogger.Env * ndarray * rows))
    (env : KeypointLogger.Env) :
  (0 < M)%Z ->
  Forall (fun c => length (snd c) = 4%nat) calls ->
  let l := fst (KeypointLogger.log_frames (KeypointLogger.fresh hs dir M K) calls) in
  keypoint_logger self = Some l ->
  let r := Z.to_nat (Z.of_nat (length calls) mod M) in
  let remainder := lastn r (entries_from 0 calls) in
  exists l' evs,
    cleanup self env
    = (set_keypoint_logger self (Some l'),
       Call (LoggerCall INFO) :: map Call evs
         ++ [SubscriberStop; CleanupZmqResources]) /\
    KeypointLogger.logged_data l' = remainder /\
    length remainder = r /\
    KeypointLogger.frame_counter l' = Z.of_nat (length calls) /\
    (r = 0%nat -> l' = l /\ evs = []) /\
    (r <> 0%nat -> KeypointLogger.write_ok env = true ->
     evs = [LoggerCall INFO] /\
     KeypointLogger.log_file l'
     = KeypointLogger.Saved
         (KeypointLogger.mkDocument hs (Z.of_nat r) remainder
            (KeypointLogger.datetime_now env) K)) /\
    (r <> 0%nat -> KeypointLogger.write_ok env = false ->
     evs = [LoggerCall ERROR] /\
     KeypointLogger.log_file l' = KeypointLogger.Undetermined).
Proof.
  intros HM Hwf l Hl r remainder.
  destruct (log_frames_run hs dir M K calls HM Hwf)
    as (s & Hrun & Hhs & Hi & Hk & Hcnt & Hd & _).
  assert (El : l = s) by (unfold l; rewrite Hrun; reflexivity).
  fold r in Hd. fold remainder in Hd.
  assert (Hlen : length remainder = r).
  { unfold remainder. rewrite length_lastn, length_entries_from.
    pose proof (Z.mod_pos_bound (Z.of_nat (length calls)) M HM).
    pose proof (Z.mod_le (Z.of_nat (length calls)) M ltac:(lia) HM).
    unfold r. lia. }
  unfold cleanup. rewrite Hl, El.
  destruct (Nat.eq_dec r 0) as [Hr | Hr].
  - assert (He : KeypointLogger.logged_data s = []).
    { rewrite Hd. destruct remainder; [reflexivity | simpl in Hlen; lia]. }
    rewrite (save_data_empty s env He).
    exists s, []. split; [reflexivity |].
    split; [exact Hd |]. split; [exact Hlen |]. split; [exact Hcnt |].
    split; [intros _; split; reflexivity |].
    split; intros H; contradiction.
  - assert (Hne : KeypointLogger.logged_data s <> []).
    { rewrite Hd. intros E. rewrite E in Hlen. simpl in Hlen. lia. }
    rewrite (save_data_nonempty s env Hne).
    destruct (KeypointLogger.write_ok env) eqn:Hw.
    + eexists. exists [LoggerCall INFO]. split; [reflexivity |].
      split; [exact Hd |]. split; [exact Hlen |]. split; [exact Hcnt |].
      split; [intros H; contradiction |].
      split; [| intros _ H; discriminate H].
      intros _ _. split; [reflexivity |].
      cbn [KeypointLogger.log_file KeypointLogger.set_log_file].
      unfold document_of. rewrite Hhs, Hk, Hd, Hlen. reflexivity.
    + eexists. exists [LoggerCall ERROR]. split; [reflexivity |].
      split; [exact Hd |]. split; [exact Hlen |]. split; [exact Hcnt |].
      split; [intros H; contradiction |].
      split; [intros _ H; discriminate H |].
      intros _ _. split; reflexivity.
Qed.

Lemma cleanup_flushes_remainder_witness :
  let calls := [example_call; example_call; example_call] in
  let l := fst (KeypointLogger.log_frames example_logger calls) in
  exists l' evs,
    cleanup (set_keypoint_logger example_self (Some l)) example_log_env
    = (set_keypoint_logger (set_keypoint_logger example_self (Some l)) (Some l'),
       Call (LoggerCall INFO) :: map Call evs
         ++ [SubscriberStop; CleanupZmqResources]) /\
    evs = [LoggerCall INFO] /\
    KeypointLogger.log_file l'
    = KeypointLogger.Saved
        (KeypointLogger.mkDocument "right" 1 [entry_of 2 example_call] 0 5).
Proof.
  intros calls l.
  destruct (cleanup_flushes_remainder
              (set_keypoint_logger example_self (Some l)) "right" example_log_dir
              2 5 calls
              example_log_env)
    as (l' & evs & H1 & _ & _ & _ & _ & H2 & _).
  - lia.
  - repeat (apply Forall_cons; [reflexivity |]). apply Forall_nil.
  - reflexivity.
  - destruct H2 as [H3 H4].
    + discriminate.
    + reflexivity.
    + exists l', evs. split; [exact H1 |]. split; [exact H3 | exact H4].
Defined.

(** X6.  [__del__] after [cleanup] does everything again: [save_data]
    neither clears the buffer nor resets anything, so the second call leaves
    the instance as one call in the second environment would, and when the
    write behaves alike it makes the same outward calls once more (the same
    frames written again, the subscriber stopped and the ZMQ resources
    released a second time). *)
Theorem del_after_cleanup (self : Self) (env1 env2 : KeypointLogger.Env) :
  fst (__del__ (fst (cleanup self env1)) env2) = fst (cleanup self env2) /\
  (KeypointLogger.write_ok env1 = KeypointLogger.write_ok env2 ->
   snd (__del__ (fst (cleanup self env1)) env2) = snd (cleanup self env1)).
Proof.
  unfold __del__, cleanup.
  destruct (keypoint_logger self) as [l |] eqn:Hl.
  - unfold KeypointLogger.save_data.
    destruct (Z.of_nat (length (KeypointLogger.logged_data l)) =? 0)%Z eqn:E.
    + cbn [fst snd set_keypoint_logger keypoint_logger]. rewrite E.
      split; [reflexivity | intros _; reflexivity].
    + destruct (KeypointLogger.write_ok env1) eqn:H1;
        cbn [fst snd set_keypoint_logger keypoint_logger
             KeypointLogger.set_log_file KeypointLogger.logged_data];
        rewrite E;
        (split; [| intros <-]);
        try (destruct (KeypointLogger.write_ok env2)); reflexivity.
  - cbn [fst snd]. rewrite Hl. split; [reflexivity | intros _; reflexivity].
Qed.

(** ** [transform_keypoints] on every input *)

Lemma valid_index_dec {A : Type} (l : list A) (i : Z) :
  {valid_index l i} + {~ valid_index l i}.
Proof.
  unfold valid_index.
  destruct (Z_le_dec (- Z.of_nat (length l)) i) as [H1 | H1];
    [| right; lia].
  destruct (Z_lt_dec i (Z.of_nat (length l))) as [H2 | H2];
    [left; lia | right; lia].
Qed.

Lemma valid_index_map {A B : Type} (f : A -> B) (l : list A) (i : Z) :
  valid_index (map f l) i <-> valid_index l i.
Proof. unfold valid_index. rewrite length_map. reflexivity. Qed.

(** [landmark_vectors] returns exactly when its four indices are indices of
    the keypoint list, and raises [IndexError] otherwise. *)
Lemma landmark_vectors_cases (self : Self) (hc : list vec) :
  (valid_index hc (wrist_idx self) /\
   valid_index hc (index_knuckle_idx self) /\
   valid_index hc (pinky_knuckle_idx self) /\
   valid_index hc (middle_knuckle_idx self) /\
   exists w v1 v2 v3, landmark_vectors self hc = inl (w, v1, v2, v3) /\
                      getitem hc (wrist_idx self) = inl w) \/
  (~ (valid_index hc (wrist_idx self) /\
      valid_index hc (index_knuckle_idx self) /\
      valid_index hc (pinky_knuckle_idx self) /\
      valid_index hc (middle_knuckle_idx self)) /\
   landmark_vectors self hc = inr IndexError).
Proof.
  unfold landmark_vectors.
  destruct (valid_index_dec hc (wrist_idx self)) as [V1 | V1].
  2: { right. split; [tauto |]. rewrite (getitem_invalid _ _ V1). reflexivity. }
  destruct (getitem_valid _ _ V1) as [w E1]. rewrite E1.
  destruct (valid_index_dec hc (index_knuckle_idx self)) as [V2 | V2].
  2: { right. split; [tauto |]. rewrite (getitem_invalid _ _ V2). reflexivity. }
  destruct (getitem_valid _ _ V2) as [i E2]. rewrite E2.
  destruct (valid_index_dec hc (pinky_knuckle_idx self)) as [V3 | V3].
  2: { right. split; [tauto |]. rewrite (getitem_invalid _ _ V3). reflexivity. }
  destruct (getitem_valid _ _ V3) as [p E3]. rewrite E3.
  destruct (valid_index_dec hc (middle_knuckle_idx self)) as [V4 | V4].
  2: { right. split; [tauto |]. rewrite (getitem_invalid _ _ V4). reflexivity. }
  destruct (getitem_valid _ _ V4) as [m E4]. rewrite E4.
  left. repeat (split; [assumption |]).
  do 4 eexists. split; reflexivity.
Qed.

Lemma cross_triple (a b c : vec) :
  cross a (cross b c) = vsub (vscale (dot a c) b) (vscale (dot a b) c).
Proof. apply vec_eq; unfold cross, vsub, vscale, dot; simpl; ring. Qed.

(** The matrix of an orthonormal right-handed triple is its own transposed
    inverse: the solve of [transform_keypoints] gives the frame back. *)
Lemma orthonormal_rh_rotation (x y z : vec) :
  orthonormal_rh x y z -> transpose (inverse (mkmat x y z)) = mkmat x y z.
Proof.
  intros Hon. pose proof (orthonormal_rh_det x y z Hon) as Hd.
  destruct Hon as (Hx & Hy & _ & Hxy & _ & _ & Hz).
  assert (Hxx : dot x x = 1) by (rewrite <- norm_sqr, Hx; ring).
  assert (Hyy : dot y y = 1) by (rewrite <- norm_sqr, Hy; ring).
  unfold inverse. rewrite transpose_involutive, Hd, !vdiv_1.
  cbn [row0 row1 row2].
  assert (E1 : cross y z = x).
  { rewrite Hz, cross_triple, Hyy, (dot_comm y x), Hxy.
    apply vec_eq; unfold vsub, vscale; simpl; ring. }
  assert (E2 : cross z x = y).
  { rewrite Hz. apply vec_eq;
      [transitivity (vx y * dot x x - vx x * dot x y)
      | transitivity (vy y * dot x x - vy x * dot x y)
      | transitivity (vz y * dot x x - vz x * dot x y)];
      try (unfold cross, dot; simpl; ring);
      rewrite Hxx, Hxy; ring. }
  rewrite E1, E2, <- Hz. reflexivity.
Qed.

Lemma mat_mul_inverse_l (m : mat) : det m <> 0 -> mat_mul (inverse m) m = eye.
Proof.
  intros Hd. destruct m as [[a1 a2 a3] [b1 b2 b3] [c1 c2 c3]].
  unfold det, dot, cross in Hd; simpl in Hd.
  unfold mat_mul, inverse, eye, e0, e1, e2.
  unfold mat_vec, transpose, vdiv, det, dot, cross; simpl.
  f_equal; apply vec_eq; simpl; field; exact Hd.
Qed.

Lemma dot_mat_vec (m : mat) (u v : vec) :
  dot (mat_vec m u) (mat_vec m v) = dot u (mat_vec (mat_mul (transpose m) m) v).
Proof.
  destruct m as [[a1 a2 a3] [b1 b2 b3] [c1 c2 c3]], u, v.
  unfold mat_mul, mat_vec, transpose, dot; simpl. ring.
Qed.

Lemma mat_vec_eye (v : vec) : mat_vec eye v = v.
Proof.
  apply vec_eq; unfold mat_vec, eye, e0, e1, e2, dot; simpl; ring.
Qed.

Lemma mat_vec_vsub (m : mat) (u v : vec) :
  vsub (mat_vec m u) (mat_vec m v) = mat_vec m (vsub u v).
Proof. apply vec_eq; unfold mat_vec, vsub, dot; simpl; ring. Qed.

Lemma mat_vec_vzero (m : mat) : mat_vec m vzero = vzero.
Proof. apply vec_eq; unfold mat_vec, vzero, dot; simpl; ring. Qed.

Lemma vsub_self (a : vec) : vsub a a = vzero.
Proof. apply vec_eq; unfold vsub, vzero; simpl; ring. Qed.

(** The matrix of an orthonormal right-handed triple keeps dot products. *)
Lemma orthonormal_rh_dot (x y z u v : vec) :
  orthonormal_rh x y z ->
  dot (mat_vec (mkmat x y z) u) (mat_vec (mkmat x y z) v) = dot u v.
Proof.
  intros Hon.
  pose proof (orthonormal_rh_rotation x y z Hon) as Hr.
  pose proof (orthonormal_rh_det x y z Hon) as Hd.
  assert (Hi : inverse (mkmat x y z) = transpose (mkmat x y z)).
  { rewrite <- Hr at 2. rewrite transpose_involutive. reflexivity. }
  rewrite dot_mat_vec, <- Hi, mat_mul_inverse_l by (rewrite Hd; lra).
  rewrite mat_vec_eye. reflexivity.
Qed.

(** What [transform_keypoints] does, on every keypoint list: it raises
    [IndexError] on an index out of range; it returns non-finite keypoints
    and a non-finite basis; or it returns every keypoint in the coordinates
    of an orthonormal right-handed frame. *)
Lemma transform_keypoints_cases (robots : Robots) (self : Self) (hc : list vec) :
  (transform_keypoints robots self hc = inr IndexError /\
   ~ (valid_index hc 0 /\
      valid_index hc (wrist_idx self) /\
      valid_index hc (index_knuckle_idx self) /\
      valid_index hc (pinky_knuckle_idx self) /\
      valid_index hc (middle_knuckle_idx self))) \/
  (valid_index hc 0 /\
   valid_index hc (wrist_idx self) /\
   valid_index hc (index_knuckle_idx self) /\
   valid_index hc (pinky_knuckle_idx self) /\
   valid_index hc (middle_knuckle_idx self) /\
   exists wrist w : vec,
     getitem hc 0 = inl wrist /\
     getitem hc (wrist_idx self) = inl w /\
     ((_get_stable_coord_frame self (translate hc wrist) = inl [None; None; None] /\
       transform_keypoints robots self hc
       = inl (map (fun _ => None) hc, [Some w; None; None; None])) \/
      (exists x y z a b c : vec,
         _get_stable_coord_frame self (translate hc wrist)
         = inl [Some x; Some y; Some z] /\
         orthonormal_rh x y z /\
         orthonormal_rh a b c /\
         transform_keypoints robots self hc
         = inl (map (fun p => Some (mat_vec (mkmat x y z) (vsub p wrist))) hc,
                [Some w; Some a; Some b; Some c])))).
Proof.
  destruct (valid_index_dec hc 0) as [V0 | V0].
  2: { left. split; [| tauto].
       unfold transform_keypoints. rewrite (getitem_invalid _ _ V0). reflexivity. }
  destruct (getitem_valid _ _ V0) as [wrist E0].
  destruct (landmark_vectors_cases self hc)
    as [(V1 & V2 & V3 & V4 & w & v1 & v2 & v3 & Hl & Hw) | [Hn Hl]].
  2: { left. split; [| tauto].
       unfold transform_keypoints. rewrite E0. unfold rbind at 1.
       unfold _get_stable_coord_frame.
       rewrite landmark_vectors_translate, Hl. reflexivity. }
  right. repeat (split; [assumption |]).
  exists wrist, w. split; [exact E0 |]. split; [exact Hw |].
  assert (Hlt : landmark_vectors self (translate hc wrist)
                = inl (vsub w wrist, v1, v2, v3))
    by (rewrite landmark_vectors_translate, Hl; reflexivity).
  destruct (frames_cases robots self _ _ _ _ _ _ _ Hlt Hl)
    as [[Hc Hh] | (x & y & z & a & b & c & Hc & Hon & Hh & Hon')].
  - left. split; [exact Hc |].
    destruct (transform_keypoints_nonfinite robots self hc wrist _ E0 Hc)
      as (o & fx & fy & fz & Hh' & Ht); [left; reflexivity |].
    rewrite Hh in Hh'. injection Hh' as <- <- <- <-. exact Ht.
  - right. exists x, y, z, a, b, c.
    split; [exact Hc |]. split; [exact Hon |]. split; [exact Hon' |].
    destruct (transform_keypoints_finite robots self hc wrist x y z E0 Hc)
      as (o & fx & fy & fz & Hh' & Ht).
    { rewrite (orthonormal_rh_det x y z Hon). lra. }
    rewrite Hh in Hh'. injection Hh' as <- <- <- <-.
    rewrite (orthonormal_rh_rotation x y z Hon) in Ht. exact Ht.
Qed.

(** X7.  [transform_keypoints] returns exactly when 0 and the four landmark
    indices are indices of the keypoint list, then with as many transformed
    keypoints as it was given and a frame of four rows; otherwise it raises
    [IndexError].  The linear solve never raises [LinAlgError]: a finite
    rotation-alignment frame is orthonormal, and a non-finite one has no
    zero pivot. *)
Theorem transform_keypoints_raises_iff (robots : Robots) (self : Self)
    (hc : list vec) :
  let valid :=
    valid_index hc 0 /\
    valid_index hc (wrist_idx self) /\
    valid_index hc (index_knuckle_idx self) /\
    valid_index hc (pinky_knuckle_idx self) /\
    valid_index hc (middle_knuckle_idx self) in
  (valid ->
   exists tk cf, transform_keypoints robots self hc = inl (tk, cf) /\
                 length tk = length hc /\ length cf = 4%nat) /\
  (~ valid -> transform_keypoints robots self hc = inr IndexError) /\
  (forall e, transform_keypoints robots self hc = inr e -> e = IndexError).
Proof.
  intros valid.
  destruct (transform_keypoints_cases robots self hc)
    as [[Ht Hn] | (V0 & V1 & V2 & V3 & V4 & wrist & w & _ & _ & H)].
  - split; [intros Hv; contradiction |].
    split; [intros _; exact Ht |].
    intros e He. rewrite Ht in He. injection He as <-. reflexivity.
  - assert (Hret : exists tk cf,
               transform_keypoints robots self hc = inl (tk, cf) /\
               length tk = length hc /\ length cf = 4%nat).
    { destruct H as [[_ Ht] | (x & y & z & a & b & c & _ & _ & _ & Ht)];
        do 2 eexists; (split; [exact Ht |]);
        (split; [apply length_map | reflexivity]). }
    split; [intros _; exact Hret |].
    split; [intros Hn; contradiction Hn; unfold valid; tauto |].
    intros e He. destruct Hret as (tk & cf & Ht & _).
    rewrite Ht in He. discriminate He.
Qed.

(** X8.  When the rotation-alignment frame is finite, [transform_keypoints]
    returns every keypoint [p] as its coordinates along the three axes of
    that frame, [(x . (p - wrist), y . (p - wrist), z . (p - wrist))]: the
    solved rotation is the matrix of the frame itself, the frame being
    orthonormal and right-handed; the keypoint of index 0 goes to the
    origin. *)
Theorem transform_keypoints_coordinates (robots : Robots) (self : Self)
    (hc : list vec) (wrist x y z : vec) :
  getitem hc 0 = inl wrist ->
  _get_stable_coord_frame self (translate hc wrist) = inl [Some x; Some y; Some z] ->
  orthonormal_rh x y z /\
  transpose (inverse (mkmat x y z)) = mkmat x y z /\
  exists tk cf : rows,
    transform_keypoints robots self hc = inl (tk, cf) /\
    tk = map (fun p => Some (mkvec (dot x (vsub p wrist))
                                   (dot y (vsub p wrist))
                                   (dot z (vsub p wrist)))) hc /\
    getitem tk 0 = inl (Some vzero).
Proof.
  intros E0 Hc.
  destruct (transform_keypoints_cases robots self hc)
    as [[Ht Hn] | (V0 & _ & _ & _ & _ & wrist' & w & E0' & _ & H)].
  - exfalso. apply Hn.
    destruct (coord_frame_inl_landmarks _ _ _ Hc) as [l Hl].
    destruct (landmark_vectors_cases self (translate hc wrist))
      as [(V1 & V2 & V3 & V4 & _) | [_ Hl']];
      [| rewrite Hl' in Hl; discriminate Hl].
    unfold translate in V1, V2, V3, V4.
    rewrite valid_index_map in V1, V2, V3, V4.
    assert (V0 : valid_index hc 0).
    { destruct (valid_index_dec hc 0) as [V | V]; [exact V |].
      rewrite (getitem_invalid _ _ V) in E0. discriminate E0. }
    tauto.
  - rewrite E0 in E0'. injection E0' as <-.
    destruct H as [[Hc' _] | (x' & y' & z' & a & b & c & Hc' & Hon & _ & Ht)];
      rewrite Hc in Hc'; [discriminate Hc' |].
    injection Hc' as <- <- <-.
    split; [exact Hon |].
    split; [exact (orthonormal_rh_rotation x y z Hon) |].
    do 2 eexists. split; [exact Ht |]. split; [reflexivity |].
    rewrite getitem_map, E0.
    rewrite vsub_self, mat_vec_vzero. reflexivity.
Qed.

Lemma transform_keypoints_coordinates_witness :
  exists tk cf : rows,
    transform_keypoints example_robots example_self example_hand_coords
    = inl (tk, cf) /\
    tk = map (fun p =>
                Some (mkvec (dot (mkvec (4/5) (-3/5) 0) (vsub p example_wrist))
                            (dot (mkvec (3/5) (4/5) 0) (vsub p example_wrist))
                            (dot e2 (vsub p example_wrist))))
             example_hand_coords /\
    getitem tk 0 = inl (Some vzero).
Proof.
  destruct (transform_keypoints_coordinates example_robots example_self
              example_hand_coords example_wrist
              (mkvec (4/5) (-3/5) 0) (mkvec (3/5) (4/5) 0) e2
              eq_refl example_coord_frame)
    as (_ & _ & H).
  exact H.
Defined.

(** X9.  [transform_keypoints] is a rigid motion on the keypoints it
    returns finite: the distance between two transformed keypoints is the
    distance between the two keypoints they come from, and the distance of
    a transformed keypoint from the origin is the distance of its keypoint
    from the keypoint of index 0. *)
Theorem transform_keypoints_isometry (robots : Robots) (self : Self)
    (hc : list vec) (tk cf : rows) (i j : nat) (p q a b : vec) :
  transform_keypoints robots self hc = inl (tk, cf) ->
  nth_error hc i = Some p -> nth_error hc j = Some q ->
  nth_error tk i = Some (Some a) -> nth_error tk j = Some (Some b) ->
  norm (vsub a b) = norm (vsub p q) /\
  norm a = norm (vsub p (nth 0 hc vzero)).
Proof.
  intros Ht Hp Hq Ha Hb.
  destruct (transform_keypoints_cases robots self hc)
    as [[Ht' _] | (_ & _ & _ & _ & _ & wrist & w & E0 & _ & H)].
  { rewrite Ht in Ht'. discriminate Ht'. }
  destruct H as [[_ Ht'] | (x & y & z & a' & b' & c' & _ & Hon & _ & Ht')];
    rewrite Ht in Ht'; injection Ht' as -> ->.
  { rewrite nth_error_map, Hp in Ha. discriminate Ha. }
  rewrite nth_error_map, Hp in Ha. rewrite nth_error_map, Hq in Hb.
  simpl in Ha, Hb. injection Ha as <-. injection Hb as <-.
  assert (Hw : nth 0 hc vzero = wrist).
  { unfold getitem in E0. simpl in E0.
    destruct hc as [| h hc']; [discriminate E0 |].
    simpl in E0. unfold ret in E0. injection E0 as <-. reflexivity. }
  rewrite Hw. split.
  - rewrite mat_vec_vsub, vsub_translate. unfold norm.
    rewrite (orthonormal_rh_dot x y z _ _ Hon). reflexivity.
  - unfold norm. rewrite (orthonormal_rh_dot x y z _ _ Hon). reflexivity.
Qed.

Lemma transform_keypoints_isometry_witness :
  exists a b : vec,
    norm (vsub a b) = norm (vsub (mkvec 4 1 1) (mkvec 1 5 1)) /\
    norm a = norm (vsub (mkvec 4 1 1) (nth 0 example_hand_coords vzero)).
Proof.
  destruct (transform_keypoints_finite example_robots example_self
              example_hand_coords example_wrist
              (mkvec (4/5) (-3/5) 0) (mkvec (3/5) (4/5) 0) e2
              eq_refl example_coord_frame)
    as (o & fx & fy & fz & _ & Ht).
  { rewrite (orthonormal_rh_det _ _ _ example_frame_orthonormal). lra. }
  do 2 eexists.
  apply (transform_keypoints_isometry example_robots example_self
           example_hand_coords _ _ 6 9 (mkvec 4 1 1) (mkvec 1 5 1) _ _ Ht);
    reflexivity.
Defined.

(** ** Moving the hand *)

Lemma vsub_vadd_shift (a w t : vec) : vsub (vadd a t) (vadd w t) = vsub a w.
Proof. apply vec_eq; unfold vsub, vadd; simpl; ring. Qed.

Lemma translate_shift (hc : list vec) (wrist t : vec) :
  translate (map (fun p => vadd p t) hc) (vadd wrist t) = translate hc wrist.
Proof.
  unfold translate. rewrite map_map. apply map_ext.
  intros a. apply vsub_vadd_shift.
Qed.

Lemma landmark_vectors_shift (self : Self) (hc : list vec) (t : vec) :
  landmark_vectors self (map (fun p => vadd p t) hc)
  = match landmark_vectors self hc with
    | inl (wrist, v1, v2, v3) => inl (vadd wrist t, v1, v2, v3)
    | inr e => inr e
    end.
Proof.
  unfold landmark_vectors.
  rewrite !getitem_map.
  destruct (getitem hc (wrist_idx self)) as [wr |]; [| reflexivity].
  destruct (getitem hc (index_knuckle_idx self)) as [i |]; [| reflexivity].
  destruct (getitem hc (pinky_knuckle_idx self)) as [p |]; [| reflexivity].
  destruct (getitem hc (middle_knuckle_idx self)) as [m |]; [| reflexivity].
  unfold rbind, ret. rewrite !vsub_vadd_shift. reflexivity.
Qed.

Lemma hand_dir_frame_shift (robots : Robots) (self : Self) (hc : list vec)
    (t : vec) :
  _get_stable_hand_dir_frame robots self (map (fun p => vadd p t) hc)
  = match _get_stable_hand_dir_frame robots self hc with
    | inl cf => inl (shift_origin t cf)
    | inr e => inr e
    end.
Proof.
  unfold _get_stable_hand_dir_frame. rewrite landmark_vectors_shift.
  destruct (landmark_vectors self hc) as [[[[w v1] v2] v3] | e];
    [| reflexivity].
  unfold rbind, ret; cbv beta iota zeta.
  destruct (String.eqb (hand_side self) (RIGHT robots)); cbv beta iota;
    match goal with
    | |- context [_orthogonalize_frame ?a ?b ?c] =>
        destruct (_orthogonalize_frame a b c) as [[x y] z]
    end; reflexivity.
Qed.

(** X10.  Moving the whole hand by [t] changes nothing in the transformed
    keypoints and nothing in the basis of the frame: only the origin of the
    frame moves by [t] (real-number semantics); an input that raises still
    raises the same exception. *)
Theorem transform_keypoints_translation (robots : Robots) (self : Self)
    (hc : list vec) (t : vec) :
  transform_keypoints robots self (map (fun p => vadd p t) hc)
  = match transform_keypoints robots self hc with
    | inl (tk, cf) => inl (tk, shift_origin t cf)
    | inr e => inr e
    end.
Proof.
  unfold transform_keypoints. rewrite getitem_map.
  destruct (getitem hc 0) as [wrist | e]; [| reflexivity].
  unfold rbind at 1 5. rewrite translate_shift.
  destruct (_get_stable_coord_frame self (translate hc wrist)) as [fr | e];
    [| reflexivity].
  unfold rbind at 1 4.
  destruct (linalg_solve_eye fr) as [m | e]; [| reflexivity].
  unfold rbind at 1 3. rewrite hand_dir_frame_shift.
  destruct (_get_stable_hand_dir_frame robots self hc) as [cf | e];
    reflexivity.
Qed.

(** ** The two frames together *)

Lemma example_coord_frame_untranslated :
  _get_stable_coord_frame example_self example_hand_coords
  = inl [Some (mkvec (4/5) (-3/5) 0); Some (mkvec (3/5) (4/5) 0); Some e2].
Proof.
  unfold _get_stable_coord_frame.
  rewrite example_landmarks.
  unfold rbind; cbv beta iota zeta.
  destruct example_orthogonalize as (Hn & Hd & Hc).
  rewrite Hc, Hn, Hd.
  rewrite (orthogonalize_frame_fixed _ _ _ example_frame_orthonormal).
  reflexivity.
Qed.

(** X11.  The two frame functions never return a partly finite basis, and
    they are finite together: on valid landmark indices either every basis
    row of both frames is non-finite (the hand-direction frame keeps the
    wrist as its origin), or both bases are finite, each orthonormal and
    right-handed, and the two frames have the same first axis. *)
Theorem frames_all_or_nothing (robots : Robots) (self : Self) (hc : list vec)
    (w v1 v2 v3 : vec) :
  landmark_vectors self hc = inl (w, v1, v2, v3) ->
  (_get_stable_coord_frame self hc = inl [None; None; None] /\
   _get_stable_hand_dir_frame robots self hc
   = inl [Some w; None; None; None]) \/
  (exists x y z b c : vec,
     _get_stable_coord_frame self hc = inl [Some x; Some y; Some z] /\
     _get_stable_hand_dir_frame robots self hc
     = inl [Some w; Some x; Some b; Some c] /\
     orthonormal_rh x y z /\
     orthonormal_rh x b c).
Proof.
  intros Hl.
  unfold _get_stable_coord_frame, _get_stable_hand_dir_frame. rewrite Hl.
  unfold rbind, ret; cbv beta iota zeta.
  destruct (landmark_rows_cases v1 v2 v3)
    as [E | (c & d & n & Ec & Ed & En & Hcn & Hdn & Hnn & Hdc & Hnc)].
  - left. rewrite E, orthogonalize_frame_none. split; [reflexivity |].
    destruct (String.eqb (hand_side self) (RIGHT robots));
      cbv beta iota; rewrite orthogonalize_frame_none; reflexivity.
  - right.
    destruct (orthogonalize_frame_unit_pair c d (Some n) Hcn Hdn Hdc) as [E1 O1].
    destruct (orthogonalize_frame_unit_pair c n (Some d) Hcn Hnn Hnc) as [E2 O2].
    exists c, d, (cross c d), n, (cross c n).
    rewrite Ec, Ed, En, E1.
    split; [reflexivity |].
    split; [| split; assumption].
    destruct (String.eqb (hand_side self) (RIGHT robots));
      cbv beta iota; rewrite E2; reflexivity.
Qed.

Lemma frames_all_or_nothing_witness :
  exists x y z b c : vec,
    _get_stable_coord_frame example_self example_hand_coords
    = inl [Some x; Some y; Some z] /\
    _get_stable_hand_dir_frame example_robots example_self example_hand_coords
    = inl [Some example_wrist; Some x; Some b; Some c] /\
    orthonormal_rh x y z /\
    orthonormal_rh x b c.
Proof.
  destruct (frames_all_or_nothing example_robots example_self
              example_hand_coords example_wrist (mkvec 3 0 0) (mkvec 3 4 0)
              (mkvec 0 4 0) example_landmarks)
    as [[Hc _] | H].
  - rewrite example_coord_frame_untranslated in Hc. discriminate Hc.
  - exact H.
Defined.

(** ** Every pass of the loop *)

Lemma transform_keypoints_inr (robots : Robots) (self : Self) (hc : list vec)
    (e : exn) :
  transform_keypoints robots self hc = inr e -> e = IndexError.
Proof.
  intros He.
  destruct (transform_keypoints_cases robots self hc)
    as [[Ht _] | (_ & _ & _ & _ & _ & wrist & w & _ & _ & H)].
  - rewrite Ht in He. injection He as <-. reflexivity.
  - destruct H as [[_ Ht] | (x & y & z & a & b & c & _ & _ & _ & Ht)];
      rewrite Ht in He; discriminate He.
Qed.

Lemma ndarray_getitem_inr (a : ndarray) (i : Z) (e : exn) :
  ndarray_getitem a i = inr e -> e = IndexError.
Proof.
  destruct a as [| l]; simpl.
  - intros H. injection H as <-. reflexivity.
  - apply getitem_inr.
Qed.

Lemma reorthogonalize_inr (averaged : ndarray) (e : exn) :
  reorthogonalize averaged = inr e -> e = IndexError.
Proof.
  unfold reorthogonalize.
  destruct (ndarray_getitem averaged 0) as [o |] eqn:E0;
    [| intros H; injection H as <-; exact (ndarray_getitem_inr _ _ _ E0)].
  destruct (ndarray_getitem averaged 1) as [a1 |] eqn:E1;
    [| intros H; injection H as <-; exact (ndarray_getitem_inr _ _ _ E1)].
  destruct (ndarray_getitem averaged 2) as [a2 |] eqn:E2;
    [| intros H; injection H as <-; exact (ndarray_getitem_inr _ _ _ E2)].
  destruct (ndarray_getitem averaged 3) as [a3 |] eqn:E3;
    [| intros H; injection H as <-; exact (ndarray_getitem_inr _ _ _ E3)].
  unfold rbind, ret.
  destruct (_orthogonalize_frame _ _ _) as [[x y] z]. discriminate.
Qed.

(** What [_orthogonalize_frame] returns, on every input: three finite rows
    that are orthonormal and right-handed, or a non-finite third row. *)
Lemma orthogonalize_frame_cases (a b c : nvec) :
  (exists x y z : vec,
     _orthogonalize_frame a b c = (Some x, Some y, Some z) /\
     orthonormal_rh x y z) \/
  (exists x y : nvec, _orthogonalize_frame a b c = (x, y, None)).
Proof.
  destruct a as [a |]; [| right; rewrite orthogonalize_frame_none; eauto].
  destruct (Req_dec_T (norm a) 0) as [Ha | Ha].
  { right. unfold _orthogonalize_frame.
    rewrite (normalize_vector_zero a Ha). destruct b; simpl; eauto. }
  destruct b as [b |].
  2: { right. unfold _orthogonalize_frame.
       rewrite (normalize_vector_some a Ha). simpl. eauto. }
  destruct (Req_dec_T (norm (reject b (vdiv a (norm a)))) 0) as [Hb | Hb].
  { right. unfold _orthogonalize_frame.
    rewrite (normalize_vector_some a Ha).
    change (nsub (Some b) (nscale (ndot (Some b) (Some (vdiv a (norm a))))
                             (Some (vdiv a (norm a)))))
      with (Some (reject b (vdiv a (norm a)))).
    rewrite (normalize_vector_zero _ Hb). simpl. eauto. }
  left.
  destruct (orthogonalize_frame_eq a b c Ha Hb) as [Hz Heq].
  set (x := vdiv a (norm a)) in *.
  set (y := vdiv (reject b x) (norm (reject b x))) in *.
  exists x, y, (cross x y). split; [exact Heq |].
  assert (Hx1 : norm x = 1) by (apply norm_vdiv_norm, Ha).
  assert (Hy1 : norm y = 1) by (apply norm_vdiv_norm, Hb).
  assert (Hxx : dot x x = 1) by (rewrite <- norm_sqr, Hx1; ring).
  assert (Hxy : dot x y = 0).
  { unfold y. rewrite dot_vdiv_r, dot_reject by exact Hxx. unfold Rdiv; ring. }
  unfold orthonormal_rh. repeat split; try assumption.
  - apply dot_cross_l.
  - apply dot_cross_r.
Qed.

(** What [normalize_vector] returns is a unit row when it is finite. *)
Lemma normalize_vector_norm (v : nvec) (u : vec) :
  normalize_vector v = Some u -> norm u = 1.
Proof.
  destruct v as [a |]; [| discriminate].
  destruct (normalize_vector_cases a) as [E | (u' & E & Hu & _)];
    rewrite E; [discriminate |].
  intros H. injection H as <-. exact Hu.
Qed.

(** The rows of [_orthogonalize_frame], on every input: each finite row is
    a unit row, and a non-finite row leaves every later row non-finite. *)
Lemma orthogonalize_frame_rows (a b c : nvec) :
  exists x y z : nvec,
    _orthogonalize_frame a b c = (x, y, z) /\
    (forall u, In (Some u) [x; y; z] -> norm u = 1) /\
    (x = None -> y = None) /\
    (y = None -> z = None).
Proof.
  unfold _orthogonalize_frame.
  set (x := normalize_vector a).
  set (y := normalize_vector (nsub b (nscale (ndot b x) x))).
  set (z := normalize_vector (ncross x y)).
  exists x, y, z. split; [reflexivity |].
  split; [| split].
  - intros u [Hu | [Hu | [Hu | []]]];
      eapply normalize_vector_norm; exact Hu.
  - intros Hx. unfold y. rewrite Hx. destruct b; reflexivity.
  - intros Hy. unfold z. rewrite Hy. destruct x; reflexivity.
Qed.

Lemma reorthogonalize_rows (averaged : ndarray) (frame : rows) :
  reorthogonalize averaged = inl frame ->
  exists o x y z : nvec,
    frame = [o; x; y; z] /\
    (forall u, In (Some u) [x; y; z] -> norm u = 1) /\
    (x = None -> y = None) /\
    (y = None -> z = None).
Proof.
  unfold reorthogonalize.
  destruct (ndarray_getitem averaged 0) as [o |]; [| discriminate].
  destruct (ndarray_getitem averaged 1) as [a1 |]; [| discriminate].
  destruct (ndarray_getitem averaged 2) as [a2 |]; [| discriminate].
  destruct (ndarray_getitem averaged 3) as [a3 |]; [| discriminate].
  unfold rbind, ret.
  destruct (orthogonalize_frame_rows (normalize_vector a1)
              (normalize_vector a2) (normalize_vector a3))
    as (x & y & z & E & Hrows); rewrite E.
  intros H. injection H as <-.
  exists o, x, y, z. split; [reflexivity | exact Hrows].
Qed.

(** The re-orthogonalised frame: four rows, the basis orthonormal and
    right-handed or with a non-finite third row. *)
Lemma reorthogonalize_cases (averaged : ndarray) (frame : rows) :
  reorthogonalize averaged = inl frame ->
  exists o x y z : nvec,
    frame = [o; x; y; z] /\
    ndarray_getitem averaged 0 = inl o /\
    ((exists x' y' z' : vec,
        x = Some x' /\ y = Some y' /\ z = Some z' /\ orthonormal_rh x' y' z') \/
     z = None).
Proof.
  unfold reorthogonalize.
  destruct (ndarray_getitem averaged 0) as [o |]; [| discriminate].
  destruct (ndarray_getitem averaged 1) as [a1 |]; [| discriminate].
  destruct (ndarray_getitem averaged 2) as [a2 |]; [| discriminate].
  destruct (ndarray_getitem averaged 3) as [a3 |]; [| discriminate].
  unfold rbind, ret.
  destruct (orthogonalize_frame_cases (normalize_vector a1) (normalize_vector a2)
              (normalize_vector a3))
    as [(x & y & z & E & Hon) | (x & y & E)]; rewrite E;
    intros H; injection H as <-.
  - exists o, (Some x), (Some y), (Some z).
    split; [reflexivity |]. split; [reflexivity |].
    left. exists x, y, z. repeat split; try reflexivity; apply Hon.
  - exists o, x, y, None. split; [reflexivity |]. split; [reflexivity |].
    right. reflexivity.
Qed.

(** The calls [log_frame] makes are calls of the logger, none of them a
    warning. *)
Lemma log_frame_events (l : KeypointLogger.t) (env : KeypointLogger.Env)
    (k : ndarray) (cf : rows) :
  exists lvls : list level,
    snd (fst (KeypointLogger.log_frame l env k cf)) = map LoggerCall lvls /\
    ~ In WARNING lvls.
Proof.
  unfold KeypointLogger.log_frame.
  destruct (rbind _ _) as [fd | e];
    [| exists []; split; [reflexivity | intros []]].
  cbv zeta.
  destruct (_ =? 0)%Z; [exists []; split; [reflexivity | intros []] |].
  destruct (_ =? 0)%Z; [| exists []; split; [reflexivity | intros []]].
  unfold KeypointLogger.save_data.
  destruct (_ =? 0)%Z.
  - exists [DEBUG]. split; [reflexivity |].
    intros [H | []]; discriminate H.
  - destruct (KeypointLogger.write_ok env).
    + exists [INFO; DEBUG]. split; [reflexivity |].
      intros [H | [H | []]]; discriminate H.
    + exists [ERROR; DEBUG]. split; [reflexivity |].
      intros [H | [H | []]]; discriminate H.
Qed.

(** When [log_frame] raises on a frame of four rows the interval is zero
    and the exception is [ZeroDivisionError]. *)
Lemma log_frame_inr (l l' : KeypointLogger.t) (env : KeypointLogger.Env)
    (k : ndarray) (cf : rows) (evs : list event) (e : exn) :
  length cf = 4%nat ->
  KeypointLogger.log_frame l env k cf = (l', evs, inr e) ->
  e = ZeroDivisionError /\ KeypointLogger.auto_save_interval l = 0%Z /\
  evs = [] /\
  KeypointLogger.frame_counter l' = (KeypointLogger.frame_counter l + 1)%Z.
Proof.
  intros Hcf H.
  destruct (Z.eq_dec (KeypointLogger.auto_save_interval l) 0) as [HM | HM].
  - unfold KeypointLogger.log_frame in H.
    rewrite (log_frame_entry l env k cf Hcf) in H. cbv zeta in H.
    cbn [KeypointLogger.auto_save_interval KeypointLogger.set_frame_counter
         KeypointLogger.set_logged_data] in H.
    rewrite HM in H. change (0 =? 0)%Z with true in H. cbv iota in H.
    injection H as <- <- <-. repeat split; try reflexivity. exact HM.
  - rewrite (log_frame_nonzero l env k cf HM Hcf) in H.
    destruct (_ =? 0)%Z; discriminate H.
Qed.

(** The pass on a keypoint set that went through [transform_keypoints] and
    whose averaged frame went through the re-orthogonalisation. *)
Lemma stream_iteration_data (robots : Robots) (self : Self) (env : TickEnv)
    (f : RecvFrame) (tk cf frame : rows) :
  received env = Some f ->
  length (recv_keypoints f) = OCULUS_NUM_KEYPOINTS robots ->
  transform_keypoints robots self (recv_keypoints f) = inl (tk, cf) ->
  let K := moving_average_limit self in
  let mk := moving_average tk (coord_moving_average_queue self) K in
  let mf := moving_average cf (frame_moving_average_queue self) K in
  reorthogonalize (fst mf) = inl frame ->
  let self1 :=
    set_queues self (snd mk) (snd mf) (Some (fst mk)) (Some (Rows frame)) in
  let data :=
    mkInputFrame (now env) (hand_side self) (fst mk)
      (String.eqb (if recv_is_relative f then relative_mode self
                   else absolute_mode self) (relative_mode self))
      frame in
  stream_iteration robots self env
  = match keypoint_logger self with
    | None =>
        (self1,
         [TimerStartLoop; Publish (coords_topic self) data;
          Publish (frame_topic self) data; TimerEndLoop],
         inl tt)
    | Some l =>
        match KeypointLogger.log_frame l (log_env env) (fst mk) frame with
        | (l', levs, inl _) =>
            (set_keypoint_logger self1 (Some l'),
             [TimerStartLoop; Publish (coords_topic self) data] ++ levs
               ++ [Publish (frame_topic self) data; TimerEndLoop],
             inl tt)
        | (l', levs, inr e) =>
            (set_keypoint_logger self1 (Some l'),
             [TimerStartLoop; Publish (coords_topic self) data] ++ levs,
             inr e)
        end
    end.
Proof.
  intros Hr Hn Ht K mk mf Hre self1 data.
  unfold stream_iteration, _get_hand_coords.
  rewrite Hr. apply Nat.eqb_eq in Hn. rewrite Hn. unfold ret at 1.
  rewrite Ht.
  unfold moving_average at 1 2. cbv zeta.
  unfold mf, moving_average in Hre. cbv zeta in Hre. cbn [fst] in Hre.
  fold K. rewrite Hre.
  unfold _log_frame.
  change (keypoint_logger (set_queues _ _ _ _ _)) with (keypoint_logger self).
  destruct (keypoint_logger self) as [l |] eqn:Hl.
  - unfold self1, data, mk, mf, moving_average. cbv zeta. cbn [fst snd].
    match goal with
    | |- context [KeypointLogger.log_frame l ?e ?k ?fr] =>
        destruct (KeypointLogger.log_frame l e k fr) as [[l' levs] [[] | e']]
    end; reflexivity.
  - unfold self1, set_queues, set_keypoint_logger. cbn. rewrite Hl. reflexivity.
Qed.

(** Every pass of the loop is one of five. *)
Lemma stream_iteration_cases (robots : Robots) (self : Self) (env : TickEnv) :
  (received env = None /\
   stream_iteration robots self env
   = (self, [TimerStartLoop; TimerEndLoop], inl tt)) \/
  (exists f, received env = Some f /\
     length (recv_keypoints f) <> OCULUS_NUM_KEYPOINTS robots /\
     stream_iteration robots self env
     = (self, [TimerStartLoop], inr ValueError)) \/
  (exists f, received env = Some f /\
     length (recv_keypoints f) = OCULUS_NUM_KEYPOINTS robots /\
     transform_keypoints robots self (recv_keypoints f) = inr IndexError /\
     stream_iteration robots self env
     = (self, [TimerStartLoop], inr IndexError)) \/
  (exists f tk cf, received env = Some f /\
     length (recv_keypoints f) = OCULUS_NUM_KEYPOINTS robots /\
     transform_keypoints robots self (recv_keypoints f) = inl (tk, cf) /\
     let K := moving_average_limit self in
     let mk := moving_average tk (coord_moving_average_queue self) K in
     let mf := moving_average cf (frame_moving_average_queue self) K in
     ((reorthogonalize (fst mf) = inr IndexError /\
       stream_iteration robots self env
       = (set_queues self (snd mk) (snd mf) (Some (fst mk)) (Some (fst mf)),
          [TimerStartLoop], inr IndexError)) \/
      (exists frame, reorthogonalize (fst mf) = inl frame))).
Proof.
  destruct (received env) as [f |] eqn:Hr.
  2: { left. split; [reflexivity |].
       unfold stream_iteration, _get_hand_coords. rewrite Hr. reflexivity. }
  right.
  destruct (Nat.eq_dec (length (recv_keypoints f)) (OCULUS_NUM_KEYPOINTS robots))
    as [Hn | Hn].
  2: { left. exists f. split; [reflexivity |]. split; [exact Hn |].
       unfold stream_iteration, _get_hand_coords. rewrite Hr.
       apply Nat.eqb_neq in Hn. rewrite Hn. reflexivity. }
  right.
  destruct (transform_keypoints robots self (recv_keypoints f))
    as [[tk cf] | e] eqn:Ht.
  2: { left. exists f. split; [reflexivity |]. split; [exact Hn |].
       pose proof (transform_keypoints_inr robots self _ e Ht) as ->.
       split; [exact Ht |].
       unfold stream_iteration, _get_hand_coords. rewrite Hr.
       apply Nat.eqb_eq in Hn. rewrite Hn. unfold ret at 1. rewrite Ht.
       reflexivity. }
  right. exists f, tk, cf. split; [reflexivity |]. split; [exact Hn |].
  split; [exact Ht |]. intros K mk mf.
  destruct (reorthogonalize (fst mf)) as [frame | e] eqn:Hre.
  - right. exists frame. reflexivity.
  - left. pose proof (reorthogonalize_inr _ e Hre) as ->.
    split; [reflexivity |].
    unfold stream_iteration, _get_hand_coords. rewrite Hr.
    apply Nat.eqb_eq in Hn. rewrite Hn. unfold ret at 1. rewrite Ht.
    unfold moving_average at 1 2. cbv zeta.
    unfold mf, moving_average in Hre. cbv zeta in Hre. cbn [fst] in Hre.
    fold K. rewrite Hre. reflexivity.
Qed.

(** What a pass has done when it is over: nothing but timer calls, or the
    publication of one record. *)
Lemma stream_iteration_summary (robots : Robots) (self : Self) (env : TickEnv)
    (self' : Self) (evs : list event) (r : res unit) :
  stream_iteration robots self env = (self', evs, r) ->
  (evs = [TimerStartLoop; TimerEndLoop] /\ r = inl tt /\
   received env = None /\ self' = self) \/
  (evs = [TimerStartLoop] /\
   keypoint_logger self' = keypoint_logger self /\ same_config self self' /\
   ((r = inr ValueError /\ self' = self /\
     exists f, received env = Some f /\
               length (recv_keypoints f) <> OCULUS_NUM_KEYPOINTS robots) \/
    r = inr IndexError)) \/
  (exists (f : RecvFrame) (averaged : ndarray) (frame : rows) (avg_k : ndarray),
     received env = Some f /\
     length (recv_keypoints f) = OCULUS_NUM_KEYPOINTS robots /\
     reorthogonalize averaged = inl frame /\
     averaged_keypoints self' = Some avg_k /\
     averaged_coordinate_frame self' = Some (Rows frame) /\
     same_config self self' /\
     let data := published_record self env f avg_k frame in
     match keypoint_logger self with
     | None =>
         keypoint_logger self' = None /\
         evs = [TimerStartLoop; Publish (coords_topic self) data;
                Publish (frame_topic self) data; TimerEndLoop] /\
         r = inl tt
     | Some l =>
         exists l' levs lr,
           KeypointLogger.log_frame l (log_env env) avg_k frame = (l', levs, lr) /\
           keypoint_logger self' = Some l' /\
           match lr with
           | inl _ =>
               evs = [TimerStartLoop; Publish (coords_topic self) data] ++ levs
                     ++ [Publish (frame_topic self) data; TimerEndLoop] /\
               r = inl tt
           | inr e =>
               evs = [TimerStartLoop; Publish (coords_topic self) data] ++ levs /\
               r = inr e
           end
     end).
Proof.
  intros H.
  destruct (stream_iteration_cases robots self env)
    as [[Hr E] | [(f & Hr & Hn & E) | [(f & Hr & Hn & Ht & E)
        | (f & tk & cf & Hr & Hn & Ht & Hcases)]]].
  - rewrite E in H. injection H as <- <- <-. left. repeat split; assumption.
  - rewrite E in H. injection H as <- <- <-. right. left.
    split; [reflexivity |]. split; [reflexivity |].
    split; [apply same_config_refl |]. left.
    split; [reflexivity |]. split; [reflexivity |]. exists f. split; assumption.
  - rewrite E in H. injection H as <- <- <-. right. left.
    split; [reflexivity |]. split; [reflexivity |].
    split; [apply same_config_refl |]. right. reflexivity.
  - cbv zeta in Hcases. destruct Hcases as [[Hre E] | [frame Hre]].
    + rewrite E in H. injection H as <- <- <-. right. left.
      split; [reflexivity |]. split; [reflexivity |].
      split; [unfold same_config; repeat split |]. right. reflexivity.
    + right. right.
      pose proof (stream_iteration_data robots self env f tk cf frame Hr Hn Ht Hre)
        as E. cbv zeta in E. rewrite E in H. clear E.
      set (mk := moving_average tk (coord_moving_average_queue self)
                   (moving_average_limit self)) in *.
      set (mf := moving_average cf (frame_moving_average_queue self)
                   (moving_average_limit self)) in *.
      exists f, (fst mf), frame, (fst mk).
      split; [exact Hr |]. split; [exact Hn |]. split; [exact Hre |].
      destruct (keypoint_logger self) as [l |] eqn:Hl.
      * destruct (KeypointLogger.log_frame l (log_env env) (fst mk) frame)
          as [[l' levs] lr] eqn:El.
        destruct lr as [u | e]; injection H as <- <- <-;
          (split; [reflexivity |]); (split; [reflexivity |]);
          (split; [unfold same_config; repeat split |]);
          cbv zeta; exists l', levs;
          [exists (inl u) | exists (inr e)];
          (split; [reflexivity |]); (split; [reflexivity |]);
          split; reflexivity.
      * injection H as <- <- <-.
        split; [reflexivity |]. split; [reflexivity |].
        split; [unfold same_config; repeat split |].
        cbv zeta. split; [exact Hl |]. split; reflexivity.
Qed.

(** ** What the loop publishes *)

Lemma filter_publish_logger (lvls : list level) :
  filter is_publish (map LoggerCall lvls) = [].
Proof. induction lvls as [| a l IH]; simpl; [reflexivity | exact IH]. Qed.

Lemma in_publish_logger (t : string) (d : InputFrame) (lvls : list level) :
  ~ In (Publish t d) (map LoggerCall lvls).
Proof.
  intros H. apply in_map_iff in H. destruct H as (lvl & H & _). discriminate H.
Qed.

(** The publications among the calls of a pass that has published. *)
Lemma in_publish_pass (c ft t : string) (data d : InputFrame)
    (lvls : list level) (rest : list event) :
  rest = [] \/ rest = [Publish ft data; TimerEndLoop] ->
  In (Publish t d)
     ([TimerStartLoop; Publish c data] ++ map LoggerCall lvls ++ rest) ->
  d = data /\ (t = c \/ t = ft).
Proof.
  intros Hrest H. cbn [app In] in H.
  destruct H as [H | [H | H]]; [discriminate H | |].
  - injection H as <- <-. split; [reflexivity | left; reflexivity].
  - apply in_app_or in H. destruct H as [H | H].
    + contradiction (in_publish_logger t d lvls H).
    + destruct Hrest as [-> | ->]; [contradiction H |].
      cbn [In] in H. destruct H as [H | [H | []]]; [| discriminate H].
      injection H as <- <-. split; [reflexivity | right; reflexivity].
Qed.

(** A pass that has published: the record, the calls of the logger between
    the two publications, and how the pass ended. *)
Lemma stream_iteration_published_pass (robots : Robots) (self : Self)
    (env : TickEnv) (self' : Self) (evs : list event) (r : res unit)
    (t : string) (d : InputFrame) :
  stream_iteration robots self env = (self', evs, r) ->
  In (Publish t d) evs ->
  exists (f : RecvFrame) (averaged : ndarray) (lvls : list level),
    received env = Some f /\
    length (recv_keypoints f) = OCULUS_NUM_KEYPOINTS robots /\
    reorthogonalize averaged = inl (frame_vectors d) /\
    d = published_record self env f (keypoints d) (frame_vectors d) /\
    averaged_keypoints self' = Some (keypoints d) /\
    averaged_coordinate_frame self' = Some (Rows (frame_vectors d)) /\
    (t = coords_topic self \/ t = frame_topic self) /\
    ~ In WARNING lvls /\
    ((evs = [TimerStartLoop; Publish (coords_topic self) d]
            ++ map LoggerCall lvls
            ++ [Publish (frame_topic self) d; TimerEndLoop] /\
      r = inl tt) \/
     (evs = [TimerStartLoop; Publish (coords_topic self) d] /\
      r = inr ZeroDivisionError /\
      exists l, keypoint_logger self = Some l /\
                KeypointLogger.auto_save_interval l = 0%Z)).
Proof.
  intros H Hin.
  destruct (stream_iteration_summary robots self env self' evs r H)
    as [(-> & _) | [(-> & _) | (f & averaged & frame & avg_k & Hr & Hn & Hre
                                & Hak & Haf & _ & Hlog)]].
  - cbn [In] in Hin. destruct Hin as [E | [E | []]]; discriminate E.
  - cbn [In] in Hin. destruct Hin as [E | []]; discriminate E.
  - cbv zeta in Hlog.
    set (data := published_record self env f avg_k frame) in *.
    destruct (reorthogonalize_cases averaged frame Hre)
      as (o & x & y & z & Hfr & _).
    assert (Hlen : length frame = 4%nat) by (rewrite Hfr; reflexivity).
    destruct (keypoint_logger self) as [l |] eqn:Hl.
    + destruct Hlog as (l' & levs & lr & El & _ & Hev).
      destruct (log_frame_events l (log_env env) avg_k frame)
        as (lvls & Hlv & Hnw).
      rewrite El in Hlv. cbn [fst snd] in Hlv. subst levs.
      destruct lr as [u | e].
      * destruct Hev as [-> ->].
        destruct (in_publish_pass _ _ _ _ _ _ _ (or_intror eq_refl) Hin)
          as [-> Ht].
        exists f, averaged, lvls. repeat (split; [assumption || reflexivity |]).
        left. split; reflexivity.
      * destruct Hev as [-> ->].
        destruct (log_frame_inr l l' (log_env env) avg_k frame _ e Hlen El)
          as (-> & HM & Hnil & _).
        rewrite Hnil in Hin |- *.
        apply (f_equal (@length event)) in Hnil. rewrite length_map in Hnil.
        destruct lvls; [| discriminate Hnil].
        cbn [app In] in Hin.
        destruct Hin as [E | [E | []]]; [discriminate E |].
        injection E as <- <-.
        exists f, averaged, []. split; [exact Hr |]. split; [exact Hn |].
        split; [exact Hre |]. split; [reflexivity |].
        split; [exact Hak |]. split; [exact Haf |].
        split; [left; reflexivity |]. split; [intros [] |].
        right. split; [reflexivity |]. split; [reflexivity |].
        exists l. split; [reflexivity | exact HM].
    + destruct Hlog as (_ & -> & ->).
      assert (Hin' : In (Publish t d)
                       ([TimerStartLoop; Publish (coords_topic self) data]
                          ++ map LoggerCall []
                          ++ [Publish (frame_topic self) data; TimerEndLoop]))
        by exact Hin.
      destruct (in_publish_pass _ _ _ _ _ _ _ (or_intror eq_refl) Hin')
        as [-> Ht].
      exists f, averaged, []. repeat (split; [assumption || reflexivity |]).
      split; [intros [] |]. left. split; reflexivity.
Qed.

(** A pass with a sample, a limit of at least one and frames of four rows
    in the frame window gets as far as its first publication. *)
Lemma stream_iteration_reaches_publish (robots : Robots) (self : Self)
    (env : TickEnv) (tk cf : rows) :
  tick_sample robots self env = Some (tk, cf) ->
  (1 <= moving_average_limit self)%Z ->
  Forall (fun s => length s = 4%nat) (frame_moving_average_queue self) ->
  exists self' evs r d,
    stream_iteration robots self env = (self', evs, r) /\
    In (Publish (coords_topic self) d) evs.
Proof.
  intros Hs HK Hq.
  destruct (stream_iteration robots self env) as [[self' evs] r] eqn:E.
  exists self', evs, r.
  unfold tick_sample in Hs.
  destruct (stream_iteration_cases robots self env)
    as [[Hr _] | [(f & Hr & Hn & _) | [(f & Hr & Hn & Ht & _)
        | (f & tk' & cf' & Hr & Hn & Ht & Hcases)]]].
  - unfold _get_hand_coords in Hs. rewrite Hr in Hs. discriminate Hs.
  - unfold _get_hand_coords in Hs. rewrite Hr in Hs.
    apply Nat.eqb_neq in Hn. rewrite Hn in Hs. discriminate Hs.
  - unfold _get_hand_coords in Hs. rewrite Hr in Hs.
    apply Nat.eqb_eq in Hn. rewrite Hn in Hs. unfold ret in Hs.
    rewrite Ht in Hs. discriminate Hs.
  - pose proof Hn as Hn'.
    unfold _get_hand_coords in Hs. rewrite Hr in Hs.
    apply Nat.eqb_eq in Hn'. rewrite Hn' in Hs. unfold ret in Hs.
    rewrite Ht in Hs. injection Hs as -> ->.
    cbv zeta in Hcases.
    assert (Hcf : length cf = 4%nat).
    { unfold transform_keypoints in Ht.
      destruct (getitem (recv_keypoints f) 0) as [w |]; [| discriminate Ht].
      unfold rbind at 1 in Ht.
      destruct (_get_stable_coord_frame self (translate (recv_keypoints f) w))
        as [fr |]; [| discriminate Ht].
      unfold rbind at 1 in Ht.
      destruct (linalg_solve_eye fr) as [m |]; [| discriminate Ht].
      unfold rbind at 1 in Ht.
      destruct (_get_stable_hand_dir_frame robots self (recv_keypoints f))
        as [cf'' |] eqn:Hh; [| discriminate Ht].
      unfold rbind, ret in Ht. injection Ht as _ <-.
      exact (hand_dir_frame_rows robots self _ cf'' Hh). }
    set (mf := moving_average cf (frame_moving_average_queue self)
                 (moving_average_limit self)) in *.
    assert (Hrows : Forall (fun s => length s = 4%nat) (snd mf))
      by (apply moving_average_rows; assumption).
    assert (Hne : snd mf <> []).
    { pose proof (moving_average_in cf (frame_moving_average_queue self)
                    (moving_average_limit self) HK) as Hin.
      fold mf in Hin. intros E0. rewrite E0 in Hin. contradiction Hin. }
    destruct (reorthogonalize_returns (snd mf) Hne Hrows) as [frame Hre].
    change (np_mean (snd mf)) with (fst mf) in Hre.
    pose proof (stream_iteration_data robots self env f tk cf frame Hr Hn Ht Hre)
      as E'. cbv zeta in E'. rewrite E in E'.
    destruct (keypoint_logger self) as [l |].
    + destruct (KeypointLogger.log_frame l (log_env env) _ frame)
        as [[l' levs] [u | e]]; injection E' as -> -> ->;
        eexists; (split; [reflexivity |]); right; left; reflexivity.
    + injection E' as -> -> ->.
      eexists. split; [reflexivity |]. right; left; reflexivity.
Qed.

Lemma example_pass_publishes (l : option KeypointLogger.t) :
  exists self' evs r d,
    stream_iteration example_robots (set_keypoint_logger example_self l)
      example_env_data = (self', evs, r) /\
    In (Publish (coords_topic (set_keypoint_logger example_self l)) d) evs.
Proof.
  destruct example_tick_sample as [[tk cf] Hs].
  apply (stream_iteration_reaches_publish example_robots
           (set_keypoint_logger example_self l) example_env_data tk cf).
  - rewrite <- Hs. apply tick_sample_same_config.
    unfold same_config. repeat split.
  - simpl. lia.
  - constructor.
Qed.

(** X13.  The calls of one pass come in one of four orders: the two timer
    calls alone when nothing was received; the timer's start alone when the
    pass raised before it published; start, the record on the coords topic,
    the logger's calls (none a warning), the same record on the frame topic,
    the timer's end, when the pass returns; start and the record on the
    coords topic alone when the logger raised [ZeroDivisionError].  The
    frame topic is never published without the coords topic before it, and
    the timer's end is called exactly when the pass returns. *)
Theorem stream_iteration_event_order (robots : Robots) (self : Self)
    (env : TickEnv) (self' : Self) (evs : list event) (r : res unit) :
  stream_iteration robots self env = (self', evs, r) ->
  (evs = [TimerStartLoop; TimerEndLoop] /\ r = inl tt /\ received env = None) \/
  (evs = [TimerStartLoop] /\ (r = inr ValueError \/ r = inr IndexError)) \/
  (exists (data : InputFrame) (lvls : list level),
     ~ In WARNING lvls /\
     ((evs = [TimerStartLoop; Publish (coords_topic self) data]
             ++ map LoggerCall lvls
             ++ [Publish (frame_topic self) data; TimerEndLoop] /\
       r = inl tt) \/
      (evs = [TimerStartLoop; Publish (coords_topic self) data] /\
       r = inr ZeroDivisionError))).
Proof.
  intros H.
  destruct (stream_iteration_summary robots self env self' evs r H)
    as [(Hev & Hr & Hrecv & _) | [(Hev & _ & _ & Hr) | Hpub]].
  - left. repeat split; assumption.
  - right. left. split; [exact Hev |].
    destruct Hr as [(Hr & _) | Hr]; [left | right]; exact Hr.
  - right. right.
    assert (Hin : exists d, In (Publish (coords_topic self) d) evs).
    { destruct Hpub as (f & averaged & frame & avg_k & _ & _ & _ & _ & _ & _
                        & Hlog). cbv zeta in Hlog.
      destruct (keypoint_logger self) as [l |].
      - destruct Hlog as (l' & levs & [u | e] & _ & _ & -> & _);
          eexists; right; left; reflexivity.
      - destruct Hlog as (_ & -> & _). eexists; right; left; reflexivity. }
    destruct Hin as [d Hin].
    destruct (stream_iteration_published_pass robots self env self' evs r _ d
                H Hin)
      as (f & averaged & lvls & _ & _ & _ & _ & _ & _ & _ & Hnw & Hev).
    exists d, lvls. split; [exact Hnw |].
    destruct Hev as [[Hev Hr] | (Hev & Hr & _)]; [left | right];
      split; assumption.
Qed.

Lemma stream_iteration_event_order_witness :
  exists (self' : Self) (evs : list event) (r : res unit),
    stream_iteration example_robots example_self example_env_data
    = (self', evs, r) /\
    ((evs = [TimerStartLoop; TimerEndLoop] /\ r = inl tt /\
      received example_env_data = None) \/
     (evs = [TimerStartLoop] /\ (r = inr ValueError \/ r = inr IndexError)) \/
     (exists (data : InputFrame) (lvls : list level),
        ~ In WARNING lvls /\
        ((evs = [TimerStartLoop; Publish (coords_topic example_self) data]
                ++ map LoggerCall lvls
                ++ [Publish (frame_topic example_self) data; TimerEndLoop] /\
          r = inl tt) \/
         (evs = [TimerStartLoop; Publish (coords_topic example_self) data] /\
          r = inr ZeroDivisionError)))).
Proof.
  destruct (stream_iteration example_robots example_self example_env_data)
    as [[self' evs] r] eqn:E.
  exists self', evs, r. split; [reflexivity |].
  exact (stream_iteration_event_order example_robots example_self
           example_env_data self' evs r E).
Defined.

(** X14.  Every record a pass publishes, on either topic, was built from a
    frame received on that pass with the configured number of keypoints: its
    timestamp is the time read on that pass, its hand side is the
    instance's, its keypoints and frame are the averaged keypoints and the
    averaged frame the instance holds after the pass, and its topic is one
    of the instance's two.  The relativity flag of the received frame comes
    back in the record when the two mode constants differ; were they equal,
    every record would be flagged relative. *)
Theorem stream_iteration_published_record (robots : Robots) (self : Self)
    (env : TickEnv) (self' : Self) (evs : list event) (r : res unit)
    (t : string) (d : InputFrame) :
  stream_iteration robots self env = (self', evs, r) ->
  In (Publish t d) evs ->
  exists f : RecvFrame,
    received env = Some f /\
    length (recv_keypoints f) = OCULUS_NUM_KEYPOINTS robots /\
    (t = coords_topic self \/ t = frame_topic self) /\
    timestamp_s d = now env /\
    if_hand_side d = hand_side self /\
    averaged_keypoints self' = Some (keypoints d) /\
    averaged_coordinate_frame self' = Some (Rows (frame_vectors d)) /\
    (relative_mode self <> absolute_mode self ->
     is_relative d = recv_is_relative f) /\
    (relative_mode self = absolute_mode self -> is_relative d = true).
Proof.
  intros H Hin.
  destruct (stream_iteration_published_pass robots self env self' evs r t d
              H Hin)
    as (f & averaged & lvls & Hr & Hn & _ & Hd & Hak & Haf & Ht & _).
  exists f. repeat (split; [assumption |]).
  split; [rewrite Hd; reflexivity |].
  split; [rewrite Hd; reflexivity |].
  split; [exact Hak |]. split; [exact Haf |].
  rewrite Hd. unfold published_record. cbn [is_relative].
  split.
  - intros Hne. destruct (recv_is_relative f).
    + apply String.eqb_refl.
    + apply String.eqb_neq. intros E. apply Hne. symmetry. exact E.
  - intros ->. destruct (recv_is_relative f); apply String.eqb_refl.
Qed.

Lemma stream_iteration_published_record_witness :
  exists (self' : Self) (evs : list event) (r : res unit) (d : InputFrame),
    stream_iteration example_robots example_self example_env_data
    = (self', evs, r) /\
    In (Publish (coords_topic example_self) d) evs /\
    timestamp_s d = now example_env_data /\
    if_hand_side d = hand_side example_self /\
    averaged_keypoints self' = Some (keypoints d) /\
    is_relative d = false.
Proof.
  destruct (example_pass_publishes None) as (self' & evs & r & d & E & Hin).
  destruct (stream_iteration_published_record example_robots example_self
              example_env_data self' evs r _ d E Hin)
    as (f & Hr & _ & _ & Hts & Hhs & Hak & _ & Hrel & _).
  exists self', evs, r, d.
  split; [exact E |]. split; [exact Hin |]. split; [exact Hts |].
  split; [exact Hhs |]. split; [exact Hak |].
  injection Hr as <-. apply Hrel. discriminate.
Defined.

(** X15.  Every frame the loop publishes has four rows; each of its three
    basis rows that is finite is a unit row, however the averaged rows came
    out; and a non-finite row leaves every later row non-finite. *)
Theorem stream_iteration_published_frame (robots : Robots) (self : Self)
    (env : TickEnv) (self' : Self) (evs : list event) (r : res unit)
    (t : string) (d : InputFrame) :
  stream_iteration robots self env = (self', evs, r) ->
  In (Publish t d) evs ->
  exists o x y z : nvec,
    frame_vectors d = [o; x; y; z] /\
    (forall u, In (Some u) [x; y; z] -> norm u = 1) /\
    (x = None -> y = None) /\
    (y = None -> z = None).
Proof.
  intros H Hin.
  destruct (stream_iteration_published_pass robots self env self' evs r t d
              H Hin)
    as (f & averaged & lvls & _ & _ & Hre & _).
  apply (reorthogonalize_rows averaged _ Hre).
Qed.

Lemma stream_iteration_published_frame_witness :
  exists (self' : Self) (evs : list event) (r : res unit) (d : InputFrame)
         (o x y z : nvec),
    stream_iteration example_robots example_self example_env_data
    = (self', evs, r) /\
    In (Publish (coords_topic example_self) d) evs /\
    frame_vectors d = [o; x; y; z] /\
    (forall u, In (Some u) [x; y; z] -> norm u = 1).
Proof.
  destruct (example_pass_publishes None) as (self' & evs & r & d & E & Hin).
  destruct (stream_iteration_published_frame example_robots example_self
              example_env_data self' evs r _ d E Hin)
    as (o & x & y & z & Hfr & Hu & _).
  exists self', evs, r, d, o, x, y, z.
  split; [exact E |]. split; [exact Hin |]. split; assumption.
Defined.

(** ** Runs of the loop *)

(** [log_frame] keeps the configuration of the logger. *)
Lemma log_frame_config (l : KeypointLogger.t) (env : KeypointLogger.Env)
    (k : ndarray) (cf : rows) :
  let l' := fst (fst (KeypointLogger.log_frame l env k cf)) in
  KeypointLogger.auto_save_interval l' = KeypointLogger.auto_save_interval l /\
  KeypointLogger.hand_side l' = KeypointLogger.hand_side l /\
  KeypointLogger.moving_average_limit l' = KeypointLogger.moving_average_limit l.
Proof.
  unfold KeypointLogger.log_frame.
  destruct (rbind _ _) as [fd | e]; [| repeat split].
  cbv zeta.
  destruct (_ =? 0)%Z; [repeat split |].
  destruct (_ =? 0)%Z; [| repeat split].
  unfold KeypointLogger.save_data.
  destruct (_ =? 0)%Z; [repeat split |].
  destruct (KeypointLogger.write_ok env); repeat split.
Qed.

(** A pass keeps the presence of the logger and its interval. *)
Lemma stream_iteration_interval (robots : Robots) (self : Self) (env : TickEnv)
    (self' : Self) (evs : list event) (r : res unit) :
  stream_iteration robots self env = (self', evs, r) ->
  option_map KeypointLogger.auto_save_interval (keypoint_logger self')
  = option_map KeypointLogger.auto_save_interval (keypoint_logger self).
Proof.
  intros H.
  destruct (stream_iteration_summary robots self env self' evs r H)
    as [(_ & _ & _ & ->) | [(_ & -> & _) | (f & averaged & frame & avg_k & _ & _
                                           & _ & _ & _ & _ & Hlog)]];
    try reflexivity.
  cbv zeta in Hlog.
  destruct (keypoint_logger self) as [l |].
  - destruct Hlog as (l' & levs & lr & El & -> & _).
    pose proof (log_frame_config l (log_env env) avg_k frame) as Hc.
    rewrite El in Hc. cbn [fst] in Hc. destruct Hc as [Hc _].
    simpl. rewrite Hc. reflexivity.
  - destruct Hlog as (-> & _). reflexivity.
Qed.

(** X16.  When an exception ends [stream] it is one of three: [ValueError],
    and then a pass received a frame whose number of keypoints is not the
    configured one; [IndexError]; or [ZeroDivisionError], and then the
    instance has a logger whose auto-save interval is zero.  The linear
    solve never ends the loop: no [LinAlgError] leaves [stream]. *)
Theorem stream_exceptions (robots : Robots) (self : Self) (envs : list TickEnv)
    (self' : Self) (evs : list event) (e : exn) :
  stream robots self envs = (self', evs, Some e) ->
  (e = ValueError /\
   exists env f, In env envs /\ received env = Some f /\
                 length (recv_keypoints f) <> OCULUS_NUM_KEYPOINTS robots) \/
  e = IndexError \/
  (e = ZeroDivisionError /\
   exists l, keypoint_logger self = Some l /\
             KeypointLogger.auto_save_interval l = 0%Z).
Proof.
  revert self self' evs.
  induction envs as [| env envs IH]; intros self self' evs H.
  - discriminate H.
  - cbn [stream] in H.
    destruct (stream_iteration robots self env) as [[s1 evs1] r1] eqn:E.
    pose proof (stream_iteration_interval robots self env s1 evs1 r1 E) as Hint.
    destruct r1 as [u | e1].
    + destruct (stream robots s1 envs) as [[s2 evs2] r2] eqn:E2.
      injection H as <- <- ->.
      destruct (IH s1 s2 evs2 E2)
        as [(-> & env' & f & Hin & Hr & Hn) | [-> | (-> & l & Hl & HM)]].
      * left. split; [reflexivity |]. exists env', f.
        split; [right; exact Hin |]. split; assumption.
      * right. left. reflexivity.
      * right. right. split; [reflexivity |].
        rewrite Hl in Hint. simpl in Hint.
        destruct (keypoint_logger self) as [l0 |]; [| discriminate Hint].
        exists l0. split; [reflexivity |].
        simpl in Hint. injection Hint as Hint. rewrite <- Hint. exact HM.
    + injection H as <- <- <-.
      destruct (stream_iteration_summary robots self env s1 evs1 _ E)
        as [(_ & Hr & _) | [(_ & _ & _ & [(Hr & _ & f & Hrecv & Hn) | Hr])
           | Hpub]].
      * discriminate Hr.
      * injection Hr as ->. left. split; [reflexivity |].
        exists env, f. split; [left; reflexivity |]. split; assumption.
      * injection Hr as ->. right. left. reflexivity.
      * destruct Hpub as (f & averaged & frame & avg_k & _ & _ & Hre & _ & _ & _
                          & Hlog). cbv zeta in Hlog.
        destruct (reorthogonalize_cases averaged frame Hre)
          as (o & x & y & z & Hfr & _).
        assert (Hlen : length frame = 4%nat) by (rewrite Hfr; reflexivity).
        destruct (keypoint_logger self) as [l |].
        -- destruct Hlog as (l' & levs & [u | e'] & El & _ & _ & Hr);
             [discriminate Hr |].
           injection Hr as <-.
           destruct (log_frame_inr l l' (log_env env) avg_k frame levs e1 Hlen El)
             as (-> & HM & _).
           right. right. split; [reflexivity |]. exists l.
           split; [reflexivity | exact HM].
        -- destruct Hlog as (_ & _ & Hr). discriminate Hr.
Qed.

Lemma stream_exceptions_witness :
  (ValueError = ValueError /\
   exists env f,
     In env [example_env_no_data; example_env_malformed] /\
     received env = Some f /\
     length (recv_keypoints f) <> OCULUS_NUM_KEYPOINTS example_robots) \/
  ValueError = IndexError \/
  (ValueError = ZeroDivisionError /\
   exists l, keypoint_logger example_self = Some l /\
             KeypointLogger.auto_save_interval l = 0%Z).
Proof.
  apply (stream_exceptions example_robots example_self
           [example_env_no_data; example_env_malformed]
           example_self
           [TimerStartLoop; TimerEndLoop; TimerStartLoop] ValueError).
  reflexivity.
Defined.

(** With an interval of zero [log_frame] raises on a frame of four rows. *)
Lemma log_frame_zero_raises (l : KeypointLogger.t) (env : KeypointLogger.Env)
    (k : ndarray) (cf : rows) :
  KeypointLogger.auto_save_interval l = 0%Z ->
  length cf = 4%nat ->
  exists l',
    KeypointLogger.log_frame l env k cf = (l', [], inr ZeroDivisionError).
Proof.
  intros HM Hcf. unfold KeypointLogger.log_frame.
  rewrite (log_frame_entry l env k cf Hcf). cbv zeta.
  cbn [KeypointLogger.auto_save_interval KeypointLogger.set_frame_counter
       KeypointLogger.set_logged_data].
  rewrite HM. change (0 =? 0)%Z with true. cbv iota.
  eexists. reflexivity.
Qed.

(** X17.  With logging enabled and an auto-save interval of zero the loop
    publishes at most one record, on the coords topic alone: the first pass
    that publishes is ended by [ZeroDivisionError] between its two
    publications, and with it [stream].  Nothing is ever published on the
    frame topic. *)
Theorem stream_zero_interval (robots : Robots) (self : Self)
    (envs : list TickEnv) (l : KeypointLogger.t)
    (self' : Self) (evs : list event) (r : option exn) :
  keypoint_logger self = Some l ->
  KeypointLogger.auto_save_interval l = 0%Z ->
  stream robots self envs = (self', evs, r) ->
  filter is_publish evs = [] \/
  (exists d, filter is_publish evs = [Publish (coords_topic self) d] /\
             r = Some ZeroDivisionError).
Proof.
  intros Hl HM. revert self' evs r.
  induction envs as [| env envs IH]; intros self' evs r H.
  - injection H as <- <- <-. left. reflexivity.
  - cbn [stream] in H.
    destruct (stream_iteration robots self env) as [[s1 evs1] r1] eqn:E.
    destruct (stream_iteration_summary robots self env s1 evs1 r1 E)
      as [(-> & -> & _ & ->) | [(-> & _ & _ & Hr) | Hpub]].
    + destruct (stream robots self envs) as [[s2 evs2] r2] eqn:E2.
      injection H as <- <- <-.
      destruct (IH s2 evs2 r2 eq_refl) as [Hf | (d & Hf & Hr)].
      * left. cbn. exact Hf.
      * right. exists d. cbn. split; assumption.
    + left. destruct Hr as [(-> & _) | ->]; injection H as <- <- <-; reflexivity.
    + destruct Hpub as (f & averaged & frame & avg_k & _ & _ & Hre & _ & _ & _
                        & Hlog). cbv zeta in Hlog.
      destruct (reorthogonalize_cases averaged frame Hre)
        as (o & x & y & z & Hfr & _).
      assert (Hlen : length frame = 4%nat) by (rewrite Hfr; reflexivity).
      rewrite Hl in Hlog.
      destruct Hlog as (l' & levs & lr & El & _ & Hev).
      destruct (log_frame_zero_raises l (log_env env) avg_k frame HM Hlen)
        as [l'' El'].
      rewrite El' in El. injection El as <- <- <-.
      destruct Hev as [-> ->].
      injection H as <- <- <-.
      right. eexists. split; reflexivity.
Qed.

Lemma stream_zero_interval_witness :
  exists (self' : Self) (evs : list event) (r : option exn),
    stream example_robots
      (example_self_logging (KeypointLogger.fresh "right" example_log_dir 0 5))
      [example_env_data; example_env_data]
    = (self', evs, r) /\
    (filter is_publish evs = [] \/
     (exists d,
        filter is_publish evs
        = [Publish (coords_topic
                      (example_self_logging
                         (KeypointLogger.fresh "right" example_log_dir 0 5))) d] /\
        r = Some ZeroDivisionError)).
Proof.
  destruct (stream example_robots
              (example_self_logging (KeypointLogger.fresh "right" example_log_dir 0 5))
              [example_env_data; example_env_data])
    as [[self' evs] r] eqn:E.
  exists self', evs, r. split; [reflexivity |].
  exact (stream_zero_interval example_robots
           (example_self_logging (KeypointLogger.fresh "right" example_log_dir 0 5))
           [example_env_data; example_env_data]
           (KeypointLogger.fresh "right" example_log_dir 0 5) self' evs r
           eq_refl eq_refl E).
Defined.

(** One call of [log_frame] on a logger in order. *)
Lemma log_frame_ok (l : KeypointLogger.t) (env : KeypointLogger.Env)
    (k : ndarray) (cf : rows) :
  logger_ok l -> length cf = 4%nat ->
  exists l' lvls,
    KeypointLogger.log_frame l env k cf = (l', map LoggerCall lvls, inl tt) /\
    logger_ok l' /\
    KeypointLogger.auto_save_interval l' = KeypointLogger.auto_save_interval l /\
    KeypointLogger.frame_counter l' = (KeypointLogger.frame_counter l + 1)%Z.
Proof.
  intros (HM & Hc & Hb) Hcf.
  assert (HM0 : KeypointLogger.auto_save_interval l <> 0%Z) by lia.
  rewrite (log_frame_nonzero l env k cf HM0 Hcf).
  set (M := KeypointLogger.auto_save_interval l) in *.
  set (c := KeypointLogger.frame_counter l) in *.
  destruct (mod_succ c M HM Hc) as [[E1 E2] | [E1 E2]].
  - rewrite E1. change (0 =? 0)%Z with true. cbv iota.
    eexists.
    exists [if KeypointLogger.write_ok env then INFO else ERROR; DEBUG].
    split; [reflexivity |].
    split; [| split; reflexivity].
    unfold logger_ok. cbn. fold M c. rewrite E1. repeat split; lia.
  - apply Z.eqb_neq in E2. rewrite E2.
    eexists. exists []. split; [reflexivity |].
    split; [| split; reflexivity].
    unfold logger_ok. cbn. fold M c. rewrite length_app. cbn.
    repeat split; lia.
Qed.

(** One pass on an instance whose logger is in order. *)
Lemma stream_iteration_logger_ok (robots : Robots) (self : Self)
    (env : TickEnv) (l : KeypointLogger.t)
    (self' : Self) (evs : list event) (r : res unit) :
  keypoint_logger self = Some l -> logger_ok l ->
  stream_iteration robots self env = (self', evs, r) ->
  exists l',
    keypoint_logger self' = Some l' /\ logger_ok l' /\
    KeypointLogger.auto_save_interval l' = KeypointLogger.auto_save_interval l /\
    Z.of_nat (length (filter is_publish evs))
    = (2 * (KeypointLogger.frame_counter l' - KeypointLogger.frame_counter l))%Z /\
    r <> inr ZeroDivisionError.
Proof.
  intros Hl Hok H.
  destruct (stream_iteration_summary robots self env self' evs r H)
    as [(-> & -> & _ & ->) | [(-> & Hl' & _ & Hr) | Hpub]].
  - exists l. split; [exact Hl |]. split; [exact Hok |].
    split; [reflexivity |]. split; [cbn [filter is_publish length]; lia | discriminate].
  - exists l. split; [rewrite Hl'; exact Hl |]. split; [exact Hok |].
    split; [reflexivity |]. split; [cbn [filter is_publish length]; lia |].
    destruct Hr as [(-> & _) | ->]; discriminate.
  - destruct Hpub as (f & averaged & frame & avg_k & _ & _ & Hre & _ & _ & _
                      & Hlog). cbv zeta in Hlog.
    destruct (reorthogonalize_cases averaged frame Hre)
      as (o & x & y & z & Hfr & _).
    assert (Hlen : length frame = 4%nat) by (rewrite Hfr; reflexivity).
    rewrite Hl in Hlog.
    destruct Hlog as (l' & levs & lr & El & Hl' & Hev).
    destruct (log_frame_ok l (log_env env) avg_k frame Hok Hlen)
      as (l'' & lvls & El' & Hok' & Hint & Hcnt).
    rewrite El' in El. injection El as <- <- <-.
    destruct Hev as [-> ->].
    exists l''. split; [exact Hl' |]. split; [exact Hok' |].
    split; [exact Hint |]. split; [| discriminate].
    cbn [app filter is_publish].
    rewrite filter_app, filter_publish_logger.
    cbn [app filter is_publish length]. lia.
Qed.

(** X18.  With a logger in order (a positive interval [M], the buffer
    holding [counter mod M] entries, as after construction), a run of
    [stream] keeps the logger in order: the buffer never reaches [M]
    entries; every record published is logged exactly once (two
    publications for every increment of the counter); and the run is never
    ended by [ZeroDivisionError]. *)
Theorem stream_logs_every_record (robots : Robots) (self : Self)
    (envs : list TickEnv) (l : KeypointLogger.t)
    (self' : Self) (evs : list event) (r : option exn) :
  keypoint_logger self = Some l -> logger_ok l ->
  stream robots self envs = (self', evs, r) ->
  exists l',
    keypoint_logger self' = Some l' /\ logger_ok l' /\
    (Z.of_nat (length (KeypointLogger.logged_data l'))
     < KeypointLogger.auto_save_interval l')%Z /\
    KeypointLogger.auto_save_interval l' = KeypointLogger.auto_save_interval l /\
    Z.of_nat (length (filter is_publish evs))
    = (2 * (KeypointLogger.frame_counter l' - KeypointLogger.frame_counter l))%Z /\
    r <> Some ZeroDivisionError.
Proof.
  revert self l self' evs r.
  induction envs as [| env envs IH]; intros self l self' evs r Hl Hok H.
  - injection H as <- <- <-. exists l.
    split; [exact Hl |]. split; [exact Hok |].
    split.
    { destruct Hok as (HM & _ & Hb). rewrite Hb.
      apply Z.mod_pos_bound, HM. }
    split; [reflexivity |]. split; [cbn [filter is_publish length]; lia | discriminate].
  - cbn [stream] in H.
    destruct (stream_iteration robots self env) as [[s1 evs1] r1] eqn:E.
    destruct (stream_iteration_logger_ok robots self env l s1 evs1 r1 Hl Hok E)
      as (l1 & Hl1 & Hok1 & Hint1 & Hcnt1 & Hr1).
    destruct r1 as [u | e1].
    + destruct (stream robots s1 envs) as [[s2 evs2] r2] eqn:E2.
      injection H as <- <- <-.
      destruct (IH s1 l1 s2 evs2 r2 Hl1 Hok1 E2)
        as (l2 & Hl2 & Hok2 & Hlt2 & Hint2 & Hcnt2 & Hr2).
      exists l2. split; [exact Hl2 |]. split; [exact Hok2 |].
      split; [exact Hlt2 |].
      split; [rewrite Hint2; exact Hint1 |].
      split; [| exact Hr2].
      rewrite filter_app, length_app. lia.
    + injection H as <- <- <-.
      exists l1. split; [exact Hl1 |]. split; [exact Hok1 |].
      split.
      { destruct Hok1 as (HM & _ & Hb). rewrite Hb.
        apply Z.mod_pos_bound, HM. }
      split; [exact Hint1 |]. split; [exact Hcnt1 |].
      intros Heq. injection Heq as ->. apply Hr1. reflexivity.
Qed.

Lemma logger_ok_init (hs dir : string) (M K : Z) :
  (0 < M)%Z -> logger_ok (KeypointLogger.fresh hs dir M K).
Proof.
  intros HM. unfold logger_ok, KeypointLogger.fresh.
  cbn [KeypointLogger.auto_save_interval KeypointLogger.frame_counter
       KeypointLogger.logged_data length].
  split; [exact HM |]. split; [lia |].
  rewrite Z.mod_0_l by lia. reflexivity.
Qed.

Lemma stream_logs_every_record_witness :
  exists (self' : Self) (evs : list event) (r : option exn)
         (l' : KeypointLogger.t),
    stream example_robots (example_self_logging example_logger)
      [example_env_data; example_env_no_data; example_env_data; example_env_data]
    = (self', evs, r) /\
    keypoint_logger self' = Some l' /\
    (Z.of_nat (length (KeypointLogger.logged_data l')) < 2)%Z /\
    Z.of_nat (length (filter is_publish evs))
    = (2 * KeypointLogger.frame_counter l')%Z /\
    r <> Some ZeroDivisionError.
Proof.
  destruct (stream example_robots (example_self_logging example_logger)
              [example_env_data; example_env_no_data; example_env_data;
               example_env_data])
    as [[self' evs] r] eqn:E.
  destruct (stream_logs_every_record example_robots
              (example_self_logging example_logger)
              [example_env_data; example_env_no_data; example_env_data;
               example_env_data]
              example_logger self' evs r eq_refl
              (logger_ok_init "right" example_log_dir 2 5 ltac:(lia)) E)
    as (l' & Hl' & _ & Hlt & Hint & Hcnt & Hr).
  exists self', evs, r, l'. split; [reflexivity |].
  split; [exact Hl' |].
  split; [rewrite Hint in Hlt; exact Hlt |].
  split; [| exact Hr].
  rewrite Hcnt. change (KeypointLogger.frame_counter example_logger) with 0%Z.
  lia.
Defined.

(** X19.  What is logged is what is published: on a pass that returns, the
    entry the logger takes holds the keypoints and the four frame rows of
    the record published on that pass, under the logger's counter before
    the pass.  The entry ends the buffer, or, when the pass auto-saved, it
    ends the frames of the document written and the buffer is empty. *)
Theorem stream_iteration_logs_published (robots : Robots) (self : Self)
    (env : TickEnv) (l : KeypointLogger.t)
    (self' : Self) (evs : list event) (t : string) (d : InputFrame) :
  keypoint_logger self = Some l ->
  stream_iteration robots self env = (self', evs, inl tt) ->
  In (Publish t d) evs ->
  let e := frame_data_of l (log_env env) (keypoints d) (frame_vectors d) in
  exists l',
    keypoint_logger self' = Some l' /\
    KeypointLogger.frame_counter l' = (KeypointLogger.frame_counter l + 1)%Z /\
    KeypointLogger.frame_id e = KeypointLogger.frame_counter l /\
    KeypointLogger.fd_keypoints e = keypoints d /\
    [KeypointLogger.origin e; KeypointLogger.x_vector e;
     KeypointLogger.y_vector e; KeypointLogger.z_vector e] = frame_vectors d /\
    (KeypointLogger.logged_data l' = KeypointLogger.logged_data l ++ [e] \/
     (KeypointLogger.logged_data l' = [] /\
      (KeypointLogger.write_ok (log_env env) = true ->
       exists doc,
         KeypointLogger.log_file l' = KeypointLogger.Saved doc /\
         KeypointLogger.frames doc = KeypointLogger.logged_data l ++ [e]))).
Proof.
  intros Hl H Hin e.
  destruct (stream_iteration_published_pass robots self env self' evs _ t d
              H Hin)
    as (f & averaged & lvls & _ & _ & Hre & Hd & _ & _ & _ & _ & _).
  destruct (reorthogonalize_cases averaged _ Hre) as (o & x & y & z & Hfr & _).
  assert (Hlen : length (frame_vectors d) = 4%nat) by (rewrite Hfr; reflexivity).
  destruct (stream_iteration_summary robots self env self' evs _ H)
    as [(-> & _) | [(-> & _) | (f' & averaged' & frame & avg_k & _ & _ & _ & _ & _
                                & _ & Hlog)]].
  { cbn [In] in Hin. destruct Hin as [E | [E | []]]; discriminate E. }
  { cbn [In] in Hin. destruct Hin as [E | []]; discriminate E. }
  cbv zeta in Hlog. rewrite Hl in Hlog.
  destruct Hlog as (l' & levs & lr & El & Hl' & Hev).
  destruct lr as [u | e']; [| destruct Hev as [_ Hr]; discriminate Hr].
  destruct Hev as [-> _].
  destruct (log_frame_events l (log_env env) avg_k frame) as (lvls' & Hlv & _).
  rewrite El in Hlv. cbn [fst snd] in Hlv. subst levs.
  destruct (in_publish_pass _ _ _ _ _ _ _ (or_intror eq_refl) Hin) as [-> _].
  unfold published_record in e, Hlen, Hfr. cbn [keypoints frame_vectors] in *.
  destruct (Z.eq_dec (KeypointLogger.auto_save_interval l) 0) as [HM | HM].
  { destruct (log_frame_zero_raises l (log_env env) avg_k frame HM Hlen)
      as [l'' El'].
    rewrite El' in El. discriminate El. }
  rewrite (log_frame_nonzero l (log_env env) avg_k frame HM Hlen) in El.
  fold e in El.
  exists l'. split; [exact Hl' |].
  assert (Hrows : [KeypointLogger.origin e; KeypointLogger.x_vector e;
                   KeypointLogger.y_vector e; KeypointLogger.z_vector e]
                  = frame)
    by (unfold e; rewrite Hfr; reflexivity).
  destruct (_ =? 0)%Z; injection El as <- _.
  - split; [reflexivity |]. split; [reflexivity |]. split; [reflexivity |].
    split; [exact Hrows |]. right. split; [reflexivity |].
    intros Hw. rewrite Hw. eexists. split; reflexivity.
  - split; [reflexivity |]. split; [reflexivity |]. split; [reflexivity |].
    split; [exact Hrows |]. left. reflexivity.
Qed.

Lemma example_logging_pass_returns :
  exists self' evs d,
    stream_iteration example_robots (example_self_logging example_logger)
      example_env_data = (self', evs, inl tt) /\
    In (Publish (coords_topic (example_self_logging example_logger)) d) evs.
Proof.
  destruct (example_pass_publishes (Some example_logger))
    as (self' & evs & r & d & E & Hin).
  destruct (stream_iteration_published_pass example_robots _ _ self' evs r _ d
              E Hin)
    as (f & averaged & lvls & _ & _ & _ & _ & _ & _ & _ & _ & Hev).
  destruct Hev as [[_ ->] | (_ & _ & l & Hl & HM)].
  - exists self', evs, d. split; assumption.
  - injection Hl as <-. discriminate HM.
Qed.

Lemma stream_iteration_logs_published_witness :
  exists (self' : Self) (evs : list event) (d : InputFrame)
         (l' : KeypointLogger.t),
    stream_iteration example_robots (example_self_logging example_logger)
      example_env_data = (self', evs, inl tt) /\
    In (Publish (coords_topic (example_self_logging example_logger)) d) evs /\
    keypoint_logger self' = Some l' /\
    KeypointLogger.frame_counter l' = 1%Z /\
    KeypointLogger.fd_keypoints
      (frame_data_of example_logger (log_env example_env_data)
         (keypoints d) (frame_vectors d))
    = keypoints d.
Proof.
  destruct example_logging_pass_returns as (self' & evs & d & E & Hin).
  destruct (stream_iteration_logs_published example_robots
              (example_self_logging example_logger) example_env_data
              example_logger self' evs _ d eq_refl E Hin)
    as (l' & Hl' & Hcnt & _ & Hk & _).
  exists self', evs, d, l'.
  split; [exact E |]. split; [exact Hin |]. split; [exact Hl' |].
  split; [exact Hcnt | exact Hk].
Defined.

(** ** The attributes after construction *)

Lemma getitem_nth {A : Type} (l : list A) (i : nat) (d : A) :
  (i < length l)%nat -> getitem l (Z.of_nat i) = inl (nth i l d).
Proof.
  intros H. unfold getitem.
  assert (E : (Z.of_nat i <? 0)%Z = false) by (apply Z.ltb_ge; lia).
  rewrite E.
  assert (E1 : (0 <=? Z.of_nat i)%Z = true) by (apply Z.leb_le; lia).
  assert (E2 : (Z.of_nat i <? Z.of_nat (length l))%Z = true)
    by (apply Z.ltb_lt; lia).
  rewrite E1, E2, Nat2Z.id. simpl andb. cbv iota.
  rewrite (nth_error_nth' l d H). reflexivity.
Qed.

Lemma nth_pred_last {A : Type} (l : list A) (d : A) :
  nth (length l - 1) l d = last l d.
Proof.
  induction l as [| a l IH]; [reflexivity |].
  destruct l as [| b l']; [reflexivity |].
  change (length (a :: b :: l') - 1)%nat with (S (length l')).
  change (nth (S (length l')) (a :: b :: l') d)
    with (nth (length l') (b :: l') d).
  change (last (a :: b :: l') d) with (last (b :: l') d).
  rewrite <- IH. f_equal. simpl. lia.
Qed.

Lemma getitem_last {A : Type} (l : list A) (d : A) :
  l <> [] -> getitem l (-1) = inl (last l d).
Proof.
  intros H. unfold getitem.
  change (-1 <? 0)%Z with true. cbv iota zeta.
  assert (Hn : (0 < length l)%nat)
    by (destruct l; [congruence | simpl; lia]).
  assert (E1 : (0 <=? -1 + Z.of_nat (length l))%Z = true)
    by (apply Z.leb_le; lia).
  assert (E2 : (-1 + Z.of_nat (length l) <? Z.of_nat (length l))%Z = true)
    by (apply Z.ltb_lt; lia).
  rewrite E1, E2. simpl andb. cbv iota.
  replace (Z.to_nat (-1 + Z.of_nat (length l))) with (length l - 1)%nat by lia.
  rewrite (nth_error_nth' l d) by lia.
  rewrite nth_pred_last. reflexivity.
Qed.

(** X20.  An instance that [__init__] returns was given one of the two
    hand-side constants; its two topics are that hand side, an underscore
    and the two topic constants; its modes are the two mode constants; the
    wrist index is 0 and the knuckle indices are the first, the second and
    the last of the configured knuckles, of which there are at least two;
    the windows are empty, nothing is averaged yet; and it has a logger
    exactly when logging was enabled, a fresh one with the same hand side,
    the given directory, the given interval and the given limit, whose
    construction logged one line. *)
Theorem init_attributes (robots : Robots) (env : KeypointLogger.InitEnv)
    (host : string) (keypoint_sub_port keypoint_transform_pub_port : Z)
    (hs : string) (limit : Z) (enable_logging : bool) (log_dir : string)
    (interval : Z) (evs : list event) (self : Self) :
  __init__ robots env host keypoint_sub_port keypoint_transform_pub_port hs
    limit enable_logging log_dir interval = (evs, inl self) ->
  (hs = LEFT robots \/ hs = RIGHT robots) /\
  hand_side self = hs /\
  coords_topic self = (hs ++ "_" ++ TRANSFORMED_HAND_COORDS robots)%string /\
  frame_topic self = (hs ++ "_" ++ TRANSFORMED_HAND_FRAME robots)%string /\
  absolute_mode self = ABSOLUTE robots /\
  relative_mode self = RELATIVE robots /\
  wrist_idx self = 0%Z /\
  (2 <= length (OCULUS_JOINTS_knuckles robots))%nat /\
  index_knuckle_idx self = nth 0 (OCULUS_JOINTS_knuckles robots) 0%Z /\
  middle_knuckle_idx self = nth 1 (OCULUS_JOINTS_knuckles robots) 0%Z /\
  pinky_knuckle_idx self = last (OCULUS_JOINTS_knuckles robots) 0%Z /\
  coord_moving_average_queue self = [] /\
  frame_moving_average_queue self = [] /\
  averaged_keypoints self = None /\
  averaged_coordinate_frame self = None /\
  keypoint_logger self
  = (if enable_logging
     then Some (KeypointLogger.fresh hs log_dir interval limit)
     else None) /\
  evs = (if enable_logging then [LoggerCall INFO] else []).
Proof.
  unfold __init__. intros H.
  destruct (is_hand_side robots hs) eqn:Hs; simpl negb in H; cbv iota in H;
    [| discriminate H].
  assert (Hside : hs = LEFT robots \/ hs = RIGHT robots).
  { unfold is_hand_side in Hs. apply orb_prop in Hs.
    destruct Hs as [Hs | Hs]; apply String.eqb_eq in Hs; [left | right];
      exact Hs. }
  assert (Hk : forall l : list Z,
             (exists a b c, getitem l 0 = inl a /\ getitem l 1 = inl b /\
                            getitem l (-1) = inl c) ->
             (2 <= length l)%nat /\
             getitem l 0 = inl (nth 0 l 0%Z) /\
             getitem l 1 = inl (nth 1 l 0%Z) /\
             getitem l (-1) = inl (last l 0%Z)).
  { intros l (a & b & c & H0 & H1 & H2).
    destruct l as [| k0 [| k1 l']]; [discriminate H0 | discriminate H1 |].
    split; [simpl; lia |].
    split; [apply (getitem_nth _ 0); simpl; lia |].
    split; [apply (getitem_nth _ 1); simpl; lia |].
    apply getitem_last. discriminate. }
  destruct (getitem (OCULUS_JOINTS_knuckles robots) 0) as [i |] eqn:Hi;
    [| destruct (String.eqb hs (RIGHT robots)); discriminate H].
  destruct (getitem (OCULUS_JOINTS_knuckles robots) 1) as [m |] eqn:Hm;
    [| destruct (String.eqb hs (RIGHT robots)); discriminate H].
  destruct (getitem (OCULUS_JOINTS_knuckles robots) (-1)) as [p |] eqn:Hp;
    [| destruct (String.eqb hs (RIGHT robots)); discriminate H].
  destruct (Hk (OCULUS_JOINTS_knuckles robots)) as (Hlen & G0 & G1 & G2).
  { exists i, m, p. repeat split; assumption. }
  rewrite Hi in G0. rewrite Hm in G1. rewrite Hp in G2.
  injection G0 as ->. injection G1 as ->. injection G2 as ->.
  unfold rbind, ret in H.
  assert (Hl : enable_logging = true ->
               KeypointLogger.__init__ env hs log_dir interval limit
               = ([LoggerCall INFO],
                  inl (KeypointLogger.fresh hs log_dir interval limit))).
  { intros ->.
    destruct (logger_init_cases env hs log_dir interval limit)
      as [(_ & _ & _ & E) | (e & [(_ & E) | [(_ & _ & E) | (_ & _ & _ & E)]])];
      [exact E | | |];
      rewrite E in H;
      destruct (String.eqb hs (RIGHT robots)); discriminate H. }
  destruct enable_logging; [rewrite (Hl eq_refl) in H |];
    (destruct (String.eqb hs (RIGHT robots)) eqn:Hright;
     cbv beta iota zeta in H; injection H as <- <-;
     cbn [hand_side coords_topic frame_topic absolute_mode relative_mode
          wrist_idx index_knuckle_idx middle_knuckle_idx pinky_knuckle_idx
          coord_moving_average_queue frame_moving_average_queue
          averaged_keypoints averaged_coordinate_frame keypoint_logger];
     [apply String.eqb_eq in Hright; subst hs
     | destruct Hside as [-> | ->];
       [| rewrite String.eqb_refl in Hright; discriminate Hright]]);
    repeat (split; [tauto || assumption || reflexivity |]); reflexivity.
Qed.

Lemma init_attributes_witness :
  exists (evs : list event) (self : Self),
    __init__ example_robots example_init_env "localhost" 8087 8088 "left" 5
      true example_log_dir 100 = (evs, inl self) /\
    coords_topic self = "left_transformed_hand_coords"%string /\
    frame_topic self = "left_transformed_hand_frame"%string /\
    index_knuckle_idx self = 6%Z /\
    middle_knuckle_idx self = 9%Z /\
    pinky_knuckle_idx self = 16%Z /\
    keypoint_logger self
    = Some (KeypointLogger.fresh "left" example_log_dir 100 5).
Proof.
  eexists. eexists. split; [reflexivity |].
  destruct (init_attributes example_robots example_init_env "localhost" 8087
              8088 "left" 5 true example_log_dir 100 _ _ eq_refl)
    as (_ & _ & Hc & Hf & _ & _ & _ & _ & Hi & Hm & Hp & _ & _ & _ & _ & Hl
        & _).
  split; [exact Hc |]. split; [exact Hf |]. split; [exact Hi |].
  split; [exact Hm |]. split; [exact Hp | exact Hl].
Defined.
